(** * RFID puzzle system: mode state machine and card-sequence protocol

    A shallow embedding of [rfid_puzzle_final.ino].  The sketch is a
    single-threaded polling loop over global variables; it is modelled
    here as a state-and-error monad over a record of those globals.  Every
    call that leaves the core (presentation, buzzer, relay, reader, EEPROM)
    is recorded as an event, in program order.  An array access outside its
    bounds is undefined behaviour in C and is a fault ([None]) here. *)

From Stdlib Require Import ZArith Lia List Bool.
From stdpp Require Import base tactics option list.

Open Scope Z_scope.

(** ** Machine integers *)

(** [unsigned long] on the AVR target is 32 bits wide; [millis()]
    differences wrap around. *)
Definition u32 (x : Z) : Z := x mod 2 ^ 32.

(** Conversion to [byte] ([uint8_t]). *)
Definition to_byte (x : Z) : Z := x mod 256.

(** ** Constants *)

Definition EEPROM_MAGIC_ADDR : Z := 0.
Definition EEPROM_LENGTH_ADDR : Z := 1.
Definition EEPROM_CODE_ADDR : Z := 2.
Definition EEPROM_MAGIC_VALUE : Z := 0x42.
Definition MAX_CARDS : Z := 10.
Definition BUZZER_PIN : Z := 3.
Definition RELAY_PIN : Z := 5.

(** ** Data *)

Inductive Mode := PUZZLE | PROGRAM | SET_COMBO.

Definition Mode_eqb (a b : Mode) : bool :=
  match a, b with
  | PUZZLE, PUZZLE | PROGRAM, PROGRAM | SET_COMBO, SET_COMBO => true
  | _, _ => false
  end.

(** Status codes of the reader library ([MFRC522::StatusCode]). *)
Inductive StatusCode :=
| STATUS_OK | STATUS_ERROR | STATUS_COLLISION | STATUS_TIMEOUT
| STATUS_NO_ROOM | STATUS_INTERNAL_ERROR | STATUS_INVALID
| STATUS_CRC_WRONG | STATUS_MIFARE_NACK.

Definition is_OK (c : StatusCode) : bool :=
  match c with STATUS_OK => true | _ => false end.

Definition is_CRC_WRONG (c : StatusCode) : bool :=
  match c with STATUS_CRC_WRONG => true | _ => false end.

(** What the reader answers during one attempt of [readCard] or
    [writeCard]: the status of the authentication, the milliseconds it
    took, the status of the data operation, the milliseconds it took, and
    the first byte of the block buffer. *)
Record Attempt := mkAttempt {
  authStatus : StatusCode;
  authElapsed : Z;
  dataStatus : StatusCode;
  dataElapsed : Z;
  buffer0 : Z
}.

(** The reader's [rfid.uid]: a size byte and a 10-byte buffer. *)
Record Uid := mkUid {
  size : Z;
  uidByte : list Z
}.

Inductive Array := A_enteredValues | A_correctCode.

(** Calls that leave the core, and (for the bounds analysis) stores into
    the two card arrays. *)
Inductive Event :=
| E_clearStrip
| E_rainbowCycle (wait : Z)
| E_showNumber (number : Z)
| E_animateCardRead (position total : Z)
| E_showProgressBar (current total : Z)
| E_animateProgress (current total : Z)
| E_animateSuccess
| E_animateFailure
| E_animateWriteSuccess
| E_animateWriteFailure
| E_animateModeChange (newMode : Mode)
| E_saveMelody
| E_beepModeChange
| E_tone (pin frequency duration : Z)
| E_delay (ms : Z)
| E_digitalWrite (pin : Z) (high : bool)
| E_poll (found : bool)
| E_readCard (ok : bool) (value : Z)
| E_writeCard (value : Z) (ok : bool)
| E_PICC_HaltA
| E_PCD_StopCrypto1
| E_EEPROM_write (addr value : Z)
| E_store (a : Array) (index value : Z).

(** The globals of the sketch, the [static] locals of its functions, and
    the EEPROM contents.  [buttonHoldStart], [lastButtonPress] and
    [DEBOUNCE_DELAY] are never used and are left out.  The [int] variables
    (16 bits on the target) are unbounded integers here: the only
    arithmetic on them is [currentIndex++] and [selectedValue++], and both
    stay below 11 (theorem C10 for the index; the selection wraps at 9). *)
Record State := mkState {
  currentMode : Mode;
  correctCode : list Z;
  codeLength : Z;
  enteredValues : list Z;
  currentIndex : Z;
  selectedValue : Z;
  cardCurrentlyPresent : bool;
  lastUID : list Z;
  lastUIDSize : Z;
  wasPressed : bool;          (* static in checkButtonPress *)
  pressStartTime : Z;         (* static in checkButtonPress *)
  lastCardCheckTime : Z;      (* static in handleReader *)
  buttonWasPressed : bool;    (* static in programmingLoop *)
  eeprom : Z -> Z
}.

Definition set_currentMode (v : Mode) (s : State) : State :=
  mkState v (correctCode s) (codeLength s) (enteredValues s) (currentIndex s)
    (selectedValue s) (cardCurrentlyPresent s) (lastUID s) (lastUIDSize s)
    (wasPressed s) (pressStartTime s) (lastCardCheckTime s)
    (buttonWasPressed s) (eeprom s).

Definition set_correctCode (v : list Z) (s : State) : State :=
  mkState (currentMode s) v (codeLength s) (enteredValues s) (currentIndex s)
    (selectedValue s) (cardCurrentlyPresent s) (lastUID s) (lastUIDSize s)
    (wasPressed s) (pressStartTime s) (lastCardCheckTime s)
    (buttonWasPressed s) (eeprom s).

Definition set_codeLength (v : Z) (s : State) : State :=
  mkState (currentMode s) (correctCode s) v (enteredValues s) (currentIndex s)
    (selectedValue s) (cardCurrentlyPresent s) (lastUID s) (lastUIDSize s)
    (wasPressed s) (pressStartTime s) (lastCardCheckTime s)
    (buttonWasPressed s) (eeprom s).

Definition set_enteredValues (v : list Z) (s : State) : State :=
  mkState (currentMode s) (correctCode s) (codeLength s) v (currentIndex s)
    (selectedValue s) (cardCurrentlyPresent s) (lastUID s) (lastUIDSize s)
    (wasPressed s) (pressStartTime s) (lastCardCheckTime s)
    (buttonWasPressed s) (eeprom s).

Definition set_currentIndex (v : Z) (s : State) : State :=
  mkState (currentMode s) (correctCode s) (codeLength s) (enteredValues s) v
    (selectedValue s) (cardCurrentlyPresent s) (lastUID s) (lastUIDSize s)
    (wasPressed s) (pressStartTime s) (lastCardCheckTime s)
    (buttonWasPressed s) (eeprom s).

Definition set_selectedValue (v : Z) (s : State) : State :=
  mkState (currentMode s) (correctCode s) (codeLength s) (enteredValues s)
    (currentIndex s) v (cardCurrentlyPresent s) (lastUID s) (lastUIDSize s)
    (wasPressed s) (pressStartTime s) (lastCardCheckTime s)
    (buttonWasPressed s) (eeprom s).

Definition set_cardCurrentlyPresent (v : bool) (s : State) : State :=
  mkState (currentMode s) (correctCode s) (codeLength s) (enteredValues s)
    (currentIndex s) (selectedValue s) v (lastUID s) (lastUIDSize s)
    (wasPressed s) (pressStartTime s) (lastCardCheckTime s)
    (buttonWasPressed s) (eeprom s).

Definition set_lastUID (v : list Z) (s : State) : State :=
  mkState (currentMode s) (correctCode s) (codeLength s) (enteredValues s)
    (currentIndex s) (selectedValue s) (cardCurrentlyPresent s) v
    (lastUIDSize s) (wasPressed s) (pressStartTime s) (lastCardCheckTime s)
    (buttonWasPressed s) (eeprom s).

Definition set_lastUIDSize (v : Z) (s : State) : State :=
  mkState (currentMode s) (correctCode s) (codeLength s) (enteredValues s)
    (currentIndex s) (selectedValue s) (cardCurrentlyPresent s) (lastUID s) v
    (wasPressed s) (pressStartTime s) (lastCardCheckTime s)
    (buttonWasPressed s) (eeprom s).

Definition set_wasPressed (v : bool) (s : State) : State :=
  mkState (currentMode s) (correctCode s) (codeLength s) (enteredValues s)
    (currentIndex s) (selectedValue s) (cardCurrentlyPresent s) (lastUID s)
    (lastUIDSize s) v (pressStartTime s) (lastCardCheckTime s)
    (buttonWasPressed s) (eeprom s).

Definition set_pressStartTime (v : Z) (s : State) : State :=
  mkState (currentMode s) (correctCode s) (codeLength s) (enteredValues s)
    (currentIndex s) (selectedValue s) (cardCurrentlyPresent s) (lastUID s)
    (lastUIDSize s) (wasPressed s) v (lastCardCheckTime s)
    (buttonWasPressed s) (eeprom s).

Definition set_lastCardCheckTime (v : Z) (s : State) : State :=
  mkState (currentMode s) (correctCode s) (codeLength s) (enteredValues s)
    (currentIndex s) (selectedValue s) (cardCurrentlyPresent s) (lastUID s)
    (lastUIDSize s) (wasPressed s) (pressStartTime s) v
    (buttonWasPressed s) (eeprom s).

Definition set_buttonWasPressed (v : bool) (s : State) : State :=
  mkState (currentMode s) (correctCode s) (codeLength s) (enteredValues s)
    (currentIndex s) (selectedValue s) (cardCurrentlyPresent s) (lastUID s)
    (lastUIDSize s) (wasPressed s) (pressStartTime s) (lastCardCheckTime s)
    v (eeprom s).

Definition set_eeprom (v : Z -> Z) (s : State) : State :=
  mkState (currentMode s) (correctCode s) (codeLength s) (enteredValues s)
    (currentIndex s) (selectedValue s) (cardCurrentlyPresent s) (lastUID s)
    (lastUIDSize s) (wasPressed s) (pressStartTime s) (lastCardCheckTime s)
    (buttonWasPressed s) v.

(** ** The monad: state, fault, and a log of events *)

Definition M (A : Type) : Type := State -> option (A * State * list Event).

#[global] Instance M_ret : MRet M := fun A a s => Some (a, s, []).

#[global] Instance M_bind : MBind M := fun A B k m s =>
  match m s with
  | Some (a, s1, t1) =>
      match k a s1 with
      | Some (b, s2, t2) => Some (b, s2, t1 ++ t2)
      | None => None
      end
  | None => None
  end.

Definition get : M State := fun s => Some (s, s, []).
Definition modify (f : State -> State) : M unit := fun s => Some (tt, f s, []).
Definition emit (e : Event) : M unit := fun s => Some (tt, s, [e]).
Definition fault {A : Type} : M A := fun _ => None.
Definition skip : M unit := mret tt.

(** [for (int i = lo; ...; i++)] running [n] times, with the loop-carried
    local in [a]. *)
Fixpoint for_loop {A : Type} (n : nat) (i : Z) (body : Z -> A -> M A) (a : A) : M A :=
  match n with
  | O => mret a
  | S n' => a' ← body i a; for_loop n' (i + 1) body a'
  end.

(** ** Arrays of [MAX_CARDS] ints *)

Definition arr_get (a : list Z) (i : Z) : option Z :=
  if 0 <=? i then a !! Z.to_nat i else None.

Definition arr_set (a : list Z) (i v : Z) : option (list Z) :=
  if (0 <=? i) && (i <? Z.of_nat (length a)) then Some (<[Z.to_nat i := v]> a)
  else None.

Definition read_enteredValues (i : Z) : M Z := fun s =>
  match arr_get (enteredValues s) i with
  | Some v => Some (v, s, [])
  | None => None
  end.

Definition read_correctCode (i : Z) : M Z := fun s =>
  match arr_get (correctCode s) i with
  | Some v => Some (v, s, [])
  | None => None
  end.

Definition store_enteredValues (i v : Z) : M unit := fun s =>
  match arr_set (enteredValues s) i v with
  | Some a => Some (tt, set_enteredValues a s, [E_store A_enteredValues i v])
  | None => None
  end.

Definition store_correctCode (i v : Z) : M unit := fun s =>
  match arr_set (correctCode s) i v with
  | Some a => Some (tt, set_correctCode a s, [E_store A_correctCode i v])
  | None => None
  end.

(** ** EEPROM: byte cells *)

Definition EEPROM_read (a : Z) : M Z := fun s => Some (to_byte (eeprom s a), s, []).

Definition EEPROM_update (ee : Z -> Z) (a v : Z) : Z -> Z :=
  fun a' => if a' =? a then to_byte v else ee a'.

Definition EEPROM_write (a v : Z) : M unit := fun s =>
  Some (tt, set_eeprom (EEPROM_update (eeprom s) a v) s, [E_EEPROM_write a (to_byte v)]).

(** ** Inputs of one iteration *)

(** What [handleReader] observes: [millis()], the outcome of
    [rfid.PICC_IsNewCardPresent() && rfid.PICC_ReadCardSerial()] (the
    card's [rfid.uid] when both succeed), and the reader's answers to the
    attempts of [readCard] / [writeCard]. *)
Record ReaderInput := mkReaderInput {
  rd_millis : Z;
  rd_card : option Uid;
  rd_attempts : Z -> Attempt
}.

(** What one pass of [loop] observes: the button level and [millis()] in
    [checkButtonPress] ([true] is [digitalRead(BUTTON_PIN) == LOW]), the
    button level read again by [programmingLoop], and the reader. *)
Record LoopInput := mkLoopInput {
  in_button : bool;
  in_millis : Z;
  in_button2 : bool;
  in_reader : ReaderInput
}.

(** ** The sketch *)

Definition triggerRelay : M unit :=
  emit (E_digitalWrite RELAY_PIN true);;
  emit (E_delay 3000);;
  emit (E_digitalWrite RELAY_PIN false).

Definition checkButtonPress (low : bool) (now : Z) : M unit :=
  s ← get;
  if low then
    if negb (wasPressed s) then
      modify (set_wasPressed true);;
      modify (set_pressStartTime (u32 now))
    else skip
  else
    if wasPressed s then
      let pressDuration := u32 (u32 now - pressStartTime s) in
      (if 4000 <=? pressDuration then
         if negb (Mode_eqb (currentMode s) SET_COMBO) then
           modify (set_currentMode SET_COMBO);;
           modify (set_currentIndex 0);;
           emit (E_animateModeChange SET_COMBO);;
           emit E_beepModeChange;;
           emit E_clearStrip
         else skip
       else if (100 <=? pressDuration) && (pressDuration <? 4000) then
         if Mode_eqb (currentMode s) PUZZLE then
           modify (set_currentMode PROGRAM);;
           modify (set_selectedValue 0);;
           emit (E_animateModeChange PROGRAM);;
           emit E_beepModeChange;;
           emit (E_showNumber 0);;
           triggerRelay
         else skip
       else skip);;
      modify (set_wasPressed false)
    else skip.

(** [uid[i]] for a [byte] buffer; past the end of the modelled buffer the
    read yields 0 (the callers only pass sizes within the buffers). *)
Definition byte_at (uid : list Z) (i : Z) : Z := default 0 (uid !! Z.to_nat i).

Fixpoint compareUID_loop (n : nat) (i : Z) (uid1 uid2 : list Z) : bool :=
  match n with
  | O => true
  | S n' =>
      if negb (byte_at uid1 i =? byte_at uid2 i) then false
      else compareUID_loop n' (i + 1) uid1 uid2
  end.

Definition compareUID (uid1 : list Z) (size1 : Z) (uid2 : list Z) (size2 : Z) : bool :=
  if negb (size1 =? size2) then false
  else compareUID_loop (Z.to_nat size1) 0 uid1 uid2.

(** [readCard]: up to three attempts; the result is the returned flag and
    the byte left in [value] (0xFF unless a read succeeded).  The commands
    sent to the reader between attempts do not touch the globals. *)
Fixpoint readCard_loop (n : nat) (attempt : Z) (obs : Z -> Attempt) : bool * Z :=
  match n with
  | O => (false, 0xFF)
  | S n' =>
      let a := obs attempt in
      if 500 <? authElapsed a then (false, 0xFF)
      else if negb (is_OK (authStatus a)) then
        if attempt <? 2 then readCard_loop n' (attempt + 1) obs
        else (false, 0xFF)
      else if 500 <? dataElapsed a then (false, 0xFF)
      else if is_OK (dataStatus a) then (true, to_byte (buffer0 a))
      else if is_CRC_WRONG (dataStatus a) && (attempt <? 2) then
        readCard_loop n' (attempt + 1) obs
      else if attempt <? 2 then readCard_loop n' (attempt + 1) obs
      else (false, 0xFF)
  end.

Definition readCard (obs : Z -> Attempt) : bool * Z := readCard_loop 3 0 obs.

Fixpoint writeCard_loop (n : nat) (attempt : Z) (obs : Z -> Attempt) : bool :=
  match n with
  | O => false
  | S n' =>
      let a := obs attempt in
      if 500 <? authElapsed a then false
      else if negb (is_OK (authStatus a)) then
        if attempt <? 2 then writeCard_loop n' (attempt + 1) obs
        else false
      else if 500 <? dataElapsed a then false
      else if is_OK (dataStatus a) then true
      else if is_CRC_WRONG (dataStatus a) && (attempt <? 2) then
        writeCard_loop n' (attempt + 1) obs
      else if attempt <? 2 then writeCard_loop n' (attempt + 1) obs
      else false
  end.

Definition writeCard (obs : Z -> Attempt) : bool := writeCard_loop 3 0 obs.

(** [memcpy(dst, src, n)] on byte buffers. *)
Definition memcpy (dst src : list Z) (n : Z) : list Z :=
  take (Z.to_nat n) src ++ drop (Z.to_nat n) dst.

Definition handleReader (r : ReaderInput) : M unit :=
  s ← get;
  let currentTime := u32 (rd_millis r) in
  if u32 (currentTime - lastCardCheckTime s) <? 20 then skip
  else
    modify (set_lastCardCheckTime currentTime);;
    match rd_card r with
    | Some uid =>
        emit (E_poll true);;
        if negb (cardCurrentlyPresent s) then
          modify (set_cardCurrentlyPresent true);;
          if negb (compareUID (uidByte uid) (size uid) (lastUID s) (lastUIDSize s)) then
            (if size uid <=? 10 then
               modify (set_lastUID (memcpy (lastUID s) (uidByte uid) (size uid)));;
               modify (set_lastUIDSize (size uid))
             else skip);;
            match currentMode s with
            | PROGRAM =>
                let ok := writeCard (rd_attempts r) in
                emit (E_writeCard (to_byte (selectedValue s)) ok);;
                (if ok then
                   emit (E_tone BUZZER_PIN 800 100);;
                   emit E_animateWriteSuccess;;
                   emit (E_showNumber (selectedValue s))
                 else
                   emit (E_tone BUZZER_PIN 200 100);;
                   emit E_animateWriteFailure;;
                   emit (E_showNumber (selectedValue s)));;
                emit E_PICC_HaltA;;
                emit E_PCD_StopCrypto1
            | PUZZLE =>
                let '(ok, val) := readCard (rd_attempts r) in
                emit (E_readCard ok val);;
                if ok then
                  store_enteredValues (currentIndex s) val;;
                  modify (set_currentIndex (currentIndex s + 1));;
                  emit (E_tone BUZZER_PIN 1500 100);;
                  emit (E_animateCardRead (currentIndex s + 1) (codeLength s));;
                  emit (E_showProgressBar (currentIndex s + 1) (codeLength s));;
                  emit E_PICC_HaltA;;
                  emit E_PCD_StopCrypto1
                else
                  emit (E_tone BUZZER_PIN 200 100);;
                  emit E_animateWriteFailure;;
                  emit (E_showProgressBar (currentIndex s) (codeLength s));;
                  emit E_PICC_HaltA;;
                  emit E_PCD_StopCrypto1
            | SET_COMBO =>
                let '(ok, val) := readCard (rd_attempts r) in
                emit (E_readCard ok val);;
                if ok then
                  store_correctCode (currentIndex s) val;;
                  modify (set_currentIndex (currentIndex s + 1));;
                  emit (E_tone BUZZER_PIN 1500 100);;
                  emit (E_animateProgress (currentIndex s + 1) (codeLength s));;
                  emit E_PICC_HaltA;;
                  emit E_PCD_StopCrypto1
                else
                  emit (E_tone BUZZER_PIN 200 100);;
                  emit E_animateWriteFailure;;
                  emit (E_animateProgress (currentIndex s) (codeLength s));;
                  emit E_PICC_HaltA;;
                  emit E_PCD_StopCrypto1
            end
          else skip
        else skip
    | None =>
        emit (E_poll false);;
        if cardCurrentlyPresent s then
          modify (set_cardCurrentlyPresent false);;
          modify (set_lastUIDSize 0)
        else skip
    end.

Definition programmingLoop (low : bool) (r : ReaderInput) : M unit :=
  s ← get;
  (if low then
     if negb (buttonWasPressed s) then
       modify (set_buttonWasPressed true);;
       modify (set_selectedValue
                 (if 9 <? selectedValue s + 1 then 0 else selectedValue s + 1));;
       s' ← get;
       emit (E_showNumber (selectedValue s'));;
       emit (E_tone BUZZER_PIN 1000 50);;
       emit (E_delay 200)
     else skip
   else modify (set_buttonWasPressed false));;
  handleReader r.

(** Body of the comparison loop of [puzzleLoop]:
    [if (enteredValues[i] != correctCode[i]) correct = false;] *)
Definition puzzleLoop_body (i : Z) (correct : bool) : M bool :=
  e ← read_enteredValues i;
  c ← read_correctCode i;
  mret (if negb (e =? c) then false else correct).

Definition puzzleLoop (r : ReaderInput) : M unit :=
  handleReader r;;
  s ← get;
  if codeLength s <=? currentIndex s then
    correct ← for_loop (Z.to_nat (codeLength s)) 0 puzzleLoop_body true;
    (if correct : bool then emit E_animateSuccess;; triggerRelay
     else emit E_animateFailure);;
    modify (set_currentIndex 0);;
    emit E_clearStrip
  else skip.

(** Body of the loop of [saveComboToEEPROM]:
    [EEPROM.write(EEPROM_CODE_ADDR + i, correctCode[i]);] *)
Definition saveCombo_body (i : Z) (_ : unit) : M unit :=
  v ← read_correctCode i;
  EEPROM_write (EEPROM_CODE_ADDR + i) v.

Definition saveComboToEEPROM : M unit :=
  s ← get;
  EEPROM_write EEPROM_MAGIC_ADDR EEPROM_MAGIC_VALUE;;
  EEPROM_write EEPROM_LENGTH_ADDR (codeLength s);;
  for_loop (Z.to_nat (codeLength s)) 0 saveCombo_body tt.

Definition setComboLoop (r : ReaderInput) : M unit :=
  handleReader r;;
  s ← get;
  if codeLength s <=? currentIndex s then
    saveComboToEEPROM;;
    emit E_saveMelody;;
    emit E_clearStrip;;
    modify (set_currentIndex 0);;
    modify (set_currentMode PUZZLE);;
    emit (E_animateModeChange PUZZLE)
  else skip.

(** Body of the loop of [loadComboFromEEPROM]:
    [correctCode[i] = EEPROM.read(EEPROM_CODE_ADDR + i);] *)
Definition loadCombo_body (i : Z) (_ : unit) : M unit :=
  v ← EEPROM_read (EEPROM_CODE_ADDR + i);
  store_correctCode i v.

Definition loadComboFromEEPROM : M unit :=
  magic ← EEPROM_read EEPROM_MAGIC_ADDR;
  if magic =? EEPROM_MAGIC_VALUE then
    savedLength ← EEPROM_read EEPROM_LENGTH_ADDR;
    if (0 <? savedLength) && (savedLength <=? MAX_CARDS) then
      modify (set_codeLength savedLength);;
      for_loop (Z.to_nat savedLength) 0 loadCombo_body tt
    else skip
  else skip.

(** The values of the globals when [setup] starts, over an EEPROM [ee]. *)
Definition initial (ee : Z -> Z) : State :=
  {| currentMode := PUZZLE;
     correctCode := [1; 2; 3; 4; 0; 0; 0; 0; 0; 0];
     codeLength := 4;
     enteredValues := [0; 0; 0; 0; 0; 0; 0; 0; 0; 0];
     currentIndex := 0;
     selectedValue := 0;
     cardCurrentlyPresent := false;
     lastUID := [0; 0; 0; 0; 0; 0; 0; 0; 0; 0];
     lastUIDSize := 0;
     wasPressed := false;
     pressStartTime := 0;
     lastCardCheckTime := 0;
     buttonWasPressed := false;
     eeprom := ee |}.

(** [setup], without the pin and reader initialisation. *)
Definition setup : M unit :=
  emit E_clearStrip;;
  emit (E_rainbowCycle 30);;
  emit E_clearStrip;;
  loadComboFromEEPROM;;
  emit (E_animateModeChange PUZZLE).

(** One pass of [loop], without the reader health check (it only
    re-initialises the reader). *)
Definition loop (i : LoopInput) : M unit :=
  checkButtonPress (in_button i) (in_millis i);;
  s ← get;
  match currentMode s with
  | PROGRAM => programmingLoop (in_button2 i) (in_reader i)
  | SET_COMBO => setComboLoop (in_reader i)
  | PUZZLE => puzzleLoop (in_reader i)
  end;;
  emit (E_delay 10).

(** Several passes of [loop], one per input. *)
Fixpoint run (ins : list LoopInput) : M unit :=
  match ins with
  | [] => skip
  | i :: rest => loop i;; run rest
  end.

(** States at the top of [loop]: after [setup], and after each pass. *)
Inductive reachable : State -> Prop :=
| reachable_setup ee s t :
    setup (initial ee) = Some (tt, s, t) -> reachable s
| reachable_loop s i s' t :
    reachable s -> loop i s = Some (tt, s', t) -> reachable s'.

(** ** The LED strip *)

(** The presentation functions that compute which LEDs to light are
    modelled on the strip itself: [leds] is the array of [NUM_LEDS] colours,
    a write outside it is a fault.  [FastLED.show()] and the delays do not
    change the array. *)

Definition NUM_LEDS : Z := 9.

(** The range of [int] on the Arduino Nano (16 bits).  Signed overflow is
    undefined in C++: the model makes it a fault. *)
Definition INT_MIN : Z := -32768.
Definition INT_MAX : Z := 32767.

Definition fits_int (x : Z) : bool := (INT_MIN <=? x) && (x <=? INT_MAX).

(** The colours these functions write, as the source names them. *)
Inductive CRGB :=
| CRGB_Black
| CRGB_Green
| CRGB_Orange
| CRGB_Yellow
| CHSV (hue sat val : Z).

Definition leds_set (leds : list CRGB) (i : Z) (c : CRGB) : option (list CRGB) :=
  if (0 <=? i) && (i <? Z.of_nat (length leds))
  then Some (<[Z.to_nat i := c]> leds)
  else None.

(** [for (int i = lo; ...; i++) leds[i] = colour(i);] running [n] times. *)
Fixpoint leds_paint (n : nat) (i : Z) (colour : Z -> CRGB) (leds : list CRGB)
  : option (list CRGB) :=
  match n with
  | O => Some leds
  | S n' =>
      leds' ← leds_set leds i (colour i);
      leds_paint n' (i + 1) colour leds'
  end.

(** FastLED's [fill_solid(leds, n, colour)]. *)
Definition fill_solid (leds : list CRGB) (n : Z) (c : CRGB) : option (list CRGB) :=
  leds_paint (Z.to_nat n) 0 (fun _ => c) leds.

Definition clearStrip (leds : list CRGB) : option (list CRGB) :=
  fill_solid leds NUM_LEDS CRGB_Black.

Definition showNumber (number : Z) (leds : list CRGB) : option (list CRGB) :=
  leds ← clearStrip leds;
  let number := if number <? 0 then 0 else number in
  let number := if 9 <? number then 9 else number in
  leds_paint (Z.to_nat number) 0 (fun i => CHSV (to_byte (160 - i * 10)) 255 255) leds.

Definition showProgressBar (current total : Z) (leds : list CRGB) : option (list CRGB) :=
  leds ← clearStrip leds;
  let ledsPerCard := 2 in
  let ledsToLight := current * ledsPerCard in
  if negb (fits_int ledsToLight) then None
  else
    let ledsToLight := if NUM_LEDS <? ledsToLight then NUM_LEDS else ledsToLight in
    leds_paint (Z.to_nat ledsToLight) 0 (fun _ => CRGB_Green) leds.

(** Arduino's [map(x, in_min, in_max, out_min, out_max)], in [long]
    arithmetic with C's truncating division; dividing by zero is a fault.
    Its arguments here are [int]s, whose products fit a [long]. *)
Definition map_range (x in_min in_max out_min out_max : Z) : option Z :=
  if in_max - in_min =? 0 then None
  else Some (Z.quot ((x - in_min) * (out_max - out_min)) (in_max - in_min) + out_min).

Definition animateProgress (current total : Z) (leds : list CRGB) : option (list CRGB) :=
  leds ← clearStrip leds;
  ledsToFill ← map_range current 0 total 0 NUM_LEDS;
  leds ← leds_paint (Z.to_nat ledsToFill) 0 (fun _ => CRGB_Orange) leds;
  if ledsToFill <? NUM_LEDS then leds_set leds ledsToFill CRGB_Yellow
  else Some leds.

(** * Vocabulary of the statements *)

(** The three gestures of the specification, and its classification of a
    hold time in milliseconds. *)
Inductive Gesture := NoOp | ShortPress | LongHold.

Definition classify (d : Z) : Gesture :=
  if d <? 100 then NoOp
  else if d <? 4000 then ShortPress
  else LongHold.

(** The hold time [checkButtonPress] computes if the release is seen at
    [now]. *)
Definition pressDuration (s : State) (now : Z) : Z :=
  u32 (u32 now - pressStartTime s).

Definition relay_pulse : list Event :=
  [E_digitalWrite RELAY_PIN true; E_delay 3000; E_digitalWrite RELAY_PIN false].

(** The state at the top of the first [loop] when the board starts on the
    EEPROM contents [ee]. *)
Definition booted (ee : Z -> Z) : State :=
  match setup (initial ee) with
  | Some (_, s, _) => s
  | None => initial ee
  end.

(** A persisted record is valid when its magic byte is the sentinel and
    its length byte is in 1..MAX_CARDS. *)
Definition record_valid (ee : Z -> Z) : Prop :=
  to_byte (ee EEPROM_MAGIC_ADDR) = EEPROM_MAGIC_VALUE /\
  1 <= to_byte (ee EEPROM_LENGTH_ADDR) <= MAX_CARDS.

(** The persisted record as laid out in the EEPROM: magic, length, then
    [length] value bytes. *)
Definition persistedRecord (ee : Z -> Z) : list Z :=
  to_byte (ee EEPROM_MAGIC_ADDR) :: to_byte (ee EEPROM_LENGTH_ADDR) ::
  ((fun i => to_byte (ee (EEPROM_CODE_ADDR + i)))
     <$> seqZ 0 (to_byte (ee EEPROM_LENGTH_ADDR))).

(** The Combination: the first [codeLength] cells of [correctCode]. *)
Definition combination (s : State) : list Z :=
  take (Z.to_nat (codeLength s)) (correctCode s).

(** Every position of the entered sequence equals the combination's. *)
Definition entered_matches (s : State) : Prop :=
  forall i, 0 <= i < codeLength s ->
    arr_get (enteredValues s) i = arr_get (correctCode s) i.

(** Classes of events. *)
Definition is_store (e : Event) : bool :=
  match e with E_store _ _ _ => true | _ => false end.

Definition is_EEPROM_write (e : Event) : bool :=
  match e with E_EEPROM_write _ _ => true | _ => false end.

Definition is_poll (e : Event) : bool :=
  match e with E_poll _ => true | _ => false end.

(** A new-card event reaches a mode handler exactly when that handler
    calls the card transport: [readCard] or [writeCard]. *)
Definition is_dispatch (e : Event) : bool :=
  match e with E_readCard _ _ | E_writeCard _ _ => true | _ => false end.

Fixpoint count (p : Event -> bool) (t : list Event) : nat :=
  match t with
  | [] => O
  | e :: t' => ((if p e then 1 else 0) + count p t')%nat
  end.

(** Every store into a card array recorded in a trace has its index in
    [lo, hi). *)
Definition store_in (lo hi : Z) (e : Event) : Prop :=
  match e with
  | E_store _ k _ => lo <= k < hi
  | _ => True
  end.

(** The invariant of the loop.  At the top of [loop], and still after the
    button handler, it holds with the index strictly below [codeLength]
    ([InvTop]); between [handleReader] and the completion check the index
    may equal [codeLength]. *)
Record Inv (s : State) : Prop := mkInv {
  inv_code_len : length (correctCode s) = 10%nat;
  inv_entered_len : length (enteredValues s) = 10%nat;
  inv_codeLength : 1 <= codeLength s <= MAX_CARDS;
  inv_index : 0 <= currentIndex s <= codeLength s;
  inv_bytes : Forall (fun v => 0 <= v < 256) (correctCode s);
  inv_uid : cardCurrentlyPresent s = false -> lastUIDSize s = 0;
  inv_length_persisted : codeLength s = codeLength (booted (eeprom s));
  inv_code_persisted :
    forall k : nat,
      (currentMode s = SET_COMBO -> currentIndex s <= Z.of_nat k) ->
      correctCode s !! k = correctCode (booted (eeprom s)) !! k
}.

Definition InvTop (s : State) : Prop :=
  Inv s /\ currentIndex s < codeLength s.

(** Events that are neither a store into a card array, nor an EEPROM
    write, nor a poll of the reader, nor a call of the card transport. *)
Definition quiet (e : Event) : Prop :=
  is_store e = false /\ is_EEPROM_write e = false /\
  is_poll e = false /\ is_dispatch e = false.

(** The state after [handleReader] has registered the placement of card
    [uid] at the poll [r], before the mode handler runs: only the card
    tracking variables differ from [s]. *)
Definition card_tracked (r : ReaderInput) (uid : Uid) (s : State) : State :=
  let s1 := set_cardCurrentlyPresent true
              (set_lastCardCheckTime (u32 (rd_millis r)) s) in
  if size uid <=? 10
  then set_lastUIDSize (size uid)
         (set_lastUID (memcpy (lastUID s) (uidByte uid) (size uid)) s1)
  else s1.

(** The poll [r] passes the 20 ms rate limit of [handleReader] in [s]. *)
Definition polled (r : ReaderInput) (s : State) : Prop :=
  20 <= u32 (u32 (rd_millis r) - lastCardCheckTime s).

(** A card is on the reader at every pass of [ins]. *)
Definition card_stays (ins : list LoopInput) : Prop :=
  Forall (fun i => is_Some (rd_card (in_reader i))) ins.

(** Pass [i] sees a card (of a real identity) whose value reads [v]. *)
Definition places (i : LoopInput) (v : Z) : Prop :=
  exists u, rd_card (in_reader i) = Some u /\ size u <> 0 /\
            readCard (rd_attempts (in_reader i)) = (true, v).

(** Pass [i] sees the reader empty. *)
Definition lifts (i : LoopInput) : Prop := rd_card (in_reader i) = None.

(** The passes [ins] present the cards reading [vs] one after the other,
    with one pass seeing the reader empty between two cards. *)
Fixpoint entering (vs : list Z) (ins : list LoopInput) : Prop :=
  match vs, ins with
  | [], _ => ins = []
  | v :: vs', i :: rest =>
      places i v /\
      match vs', rest with
      | [], _ => rest = []
      | _ :: _, j :: rest' => lifts j /\ entering vs' rest'
      | _ :: _, [] => False
      end
  | _ :: _, [] => False
  end.

(** Every pass of [ins] polls the reader: its [millis()] is at least 20 ms
    after the previous poll, the last one before [ins] being at [last]. *)
Fixpoint paced (last : Z) (ins : list LoopInput) : Prop :=
  match ins with
  | [] => True
  | i :: rest =>
      20 <= u32 (u32 (rd_millis (in_reader i)) - last) /\
      paced (u32 (rd_millis (in_reader i))) rest
  end.

(** ** Concrete boards and inputs *)

(** An EEPROM holding [bytes] from address 0 on, erased (0xFF) elsewhere. *)
Definition eeprom_of (bytes : list Z) : Z -> Z :=
  fun a => if a <? 0 then 0xFF else default 0xFF (bytes !! Z.to_nat a).

(** A reader that answers every attempt at once with value [v]. *)
Definition reads (v : Z) : Z -> Attempt :=
  fun _ => mkAttempt STATUS_OK 0 STATUS_OK 0 v.

(** A reader whose authentication times out at every attempt. *)
Definition unreadable : Z -> Attempt :=
  fun _ => mkAttempt STATUS_TIMEOUT 0 STATUS_TIMEOUT 0 0.

Definition card_A : Uid := mkUid 4 [0xDE; 0xAD; 0xBE; 0xEF; 0; 0; 0; 0; 0; 0].

(** One pass at time [now] with the button at level [low], the reader
    seeing [card] and answering with [obs]. *)
Definition pass (low : bool) (now : Z) (card : option Uid) (obs : Z -> Attempt) : LoopInput :=
  mkLoopInput low now low (mkReaderInput now card obs).

(** A long hold from Puzzle: pressed at 100 ms, released at 5000 ms. *)
Definition long_hold : list LoopInput :=
  [pass true 100 None (reads 0); pass false 5000 None (reads 0)].

(** A board whose EEPROM holds the valid record 0x42, 4, 1, 2, 3, 4. *)
Definition saved_1234 : Z -> Z := eeprom_of [0x42; 4; 1; 2; 3; 4].

(** The state of [r] when it holds a result. *)
Definition state_of (r : option (unit * State * list Event)) (d : State) : State :=
  match r with
  | Some (_, s, _) => s
  | None => d
  end.

(** A factory-fresh board after a long hold: SetCombo mode, empty
    accumulator, default combination. *)
Definition fresh_in_setcombo : State :=
  state_of (run long_hold (booted (eeprom_of []))) (initial (eeprom_of [])).

(** A factory-fresh board on which cards reading 1, 2, 3 have been
    presented in Puzzle mode, each taken off again. *)
Definition fresh_after_123 : State :=
  state_of
    (run [pass false 100 (Some card_A) (reads 1); pass false 200 None (reads 0);
          pass false 300 (Some card_A) (reads 2); pass false 400 None (reads 0);
          pass false 500 (Some card_A) (reads 3); pass false 600 None (reads 0)]
       (booted (eeprom_of [])))
    (initial (eeprom_of [])).

(** A factory-fresh board on which the button has just been pressed at
    100 ms and is still held. *)
Definition fresh_pressed : State :=
  state_of (run [pass true 100 None (reads 0)] (booted (eeprom_of [])))
    (initial (eeprom_of [])).

(** Four cards reading 5, 6, 7, 8 presented one after the other from
    5100 ms on. *)
Definition cards_5678 : list LoopInput :=
  [pass false 5100 (Some card_A) (reads 5); pass false 5200 None (reads 0);
   pass false 5300 (Some card_A) (reads 6); pass false 5400 None (reads 0);
   pass false 5500 (Some card_A) (reads 7); pass false 5600 None (reads 0);
   pass false 5700 (Some card_A) (reads 8)].

(** A poll at 700 ms that sees card A, reading 4. *)
Definition poll_4 : ReaderInput := mkReaderInput 700 (Some card_A) (reads 4).

(** A poll at 100 ms that sees card A, which cannot be read. *)
Definition poll_unreadable : ReaderInput :=
  mkReaderInput 100 (Some card_A) unreadable.

(** Card A left on the reader for three passes. *)
Definition card_rests : list LoopInput :=
  [pass false 100 (Some card_A) (reads 1); pass false 200 (Some card_A) (reads 1);
   pass false 300 (Some card_A) (reads 1)].

(** ** Proof tools *)

Ltac munfold :=
  cbv [mbind M_bind mret M_ret get modify emit skip fault triggerRelay
       EEPROM_read EEPROM_write].

Tactic Notation "munfold" "in" hyp(H) :=
  cbv [mbind M_bind mret M_ret get modify emit skip fault triggerRelay
       EEPROM_read EEPROM_write] in H.

Ltac zcases :=
  repeat match goal with
  | |- context [?a <=? ?b] => destruct (Z.leb_spec a b); try lia
  | |- context [?a <? ?b] => destruct (Z.ltb_spec a b); try lia
  | |- context [?a =? ?b] => destruct (Z.eqb_spec a b); try lia
  end.

Ltac hr_split s r :=
  unfold handleReader; munfold;
  destruct (u32 (u32 (rd_millis r) - lastCardCheckTime s) <? 20) eqn:Hrate;
  [| destruct (rd_card r) as [uid|] eqn:Hcard;
     [ destruct (cardCurrentlyPresent s) eqn:Hpres; simpl negb; cbv iota;
       [| destruct (compareUID (uidByte uid) (size uid) (lastUID s) (lastUIDSize s)) eqn:Hcmp;
          simpl negb; cbv iota;
          [| destruct (currentMode s) eqn:Hmode;
             [ destruct (readCard (rd_attempts r)) as [ok val] eqn:Hread; destruct ok
             | destruct (writeCard (rd_attempts r)) eqn:Hwrite
             | destruct (readCard (rd_attempts r)) as [ok val] eqn:Hread; destruct ok ];
             destruct (size uid <=? 10) eqn:Hsz ] ]
     | destruct (cardCurrentlyPresent s) eqn:Hpres ] ].

Ltac quiet_trace := repeat constructor.

Ltac concrete_bound :=
  vm_compute;
  first [ reflexivity
        | discriminate
        | split; concrete_bound ].

Ltac concrete_InvTop :=
  split; [constructor|];
  first [ concrete_bound
        | intros; vm_compute; reflexivity
        | repeat (constructor; [concrete_bound|]); constructor ].

(** ** Vocabulary of the further properties *)

(** An attempt answers in time and with status OK at both steps. *)
Definition attempt_ok (a : Attempt) : Prop :=
  authElapsed a <= 500 /\ authStatus a = STATUS_OK /\
  dataElapsed a <= 500 /\ dataStatus a = STATUS_OK.

(** An attempt fails without a timeout: a bad status at the authentication,
    or at the data step after an authentication in time. *)
Definition attempt_retried (a : Attempt) : Prop :=
  authElapsed a <= 500 /\
  (authStatus a <> STATUS_OK \/
   (dataElapsed a <= 500 /\ dataStatus a <> STATUS_OK)).

(** The programming selection is a digit. *)
Definition sel_ok (s : State) : Prop := 0 <= selectedValue s <= 9.

Definition is_success (e : Event) : bool :=
  match e with E_animateSuccess => true | _ => false end.

Definition is_failure (e : Event) : bool :=
  match e with E_animateFailure => true | _ => false end.

(** The levels written to the relay pin, in order. *)
Fixpoint relay_writes (t : list Event) : list bool :=
  match t with
  | [] => []
  | E_digitalWrite pin level :: t' =>
      if pin =? RELAY_PIN then level :: relay_writes t' else relay_writes t'
  | _ :: t' => relay_writes t'
  end.

(** The arguments of a presentation call are in range for a combination of
    length [len]: a digit for [showNumber], a card count from 0 to [len]
    out of [len] for the progress displays. *)
Definition present_ok (len : Z) (e : Event) : Prop :=
  match e with
  | E_showNumber n => 0 <= n <= 9
  | E_animateCardRead c t => 0 <= c <= t /\ t = len
  | E_showProgressBar c t => 0 <= c <= t /\ t = len
  | E_animateProgress c t => 0 <= c <= t /\ t = len
  | _ => True
  end.

(** A value written to a card is a digit. *)
Definition digit_written (e : Event) : Prop :=
  match e with
  | E_writeCard v _ => 0 <= v <= 9
  | _ => True
  end.

(** An EEPROM write goes to an address in [lo, hi) and stores a byte. *)
Definition write_in (lo hi : Z) (e : Event) : Prop :=
  match e with
  | E_EEPROM_write a v => lo <= a < hi /\ 0 <= v < 256
  | _ => True
  end.

(** What [checkButtonPress] can do to [s]: touch only its own latch, or
    dispatch a short press from Puzzle, or dispatch a long hold. *)
Definition button_outcome (low : bool) (now : Z) (s s0 : State) (t0 : list Event) : Prop :=
  ((exists w p, s0 = set_wasPressed w (set_pressStartTime p s)) /\ t0 = [] /\
   (low = true \/ wasPressed s = false \/ pressDuration s now < 100 \/
    (pressDuration s now < 4000 /\ currentMode s <> PUZZLE) \/
    (4000 <= pressDuration s now /\ currentMode s = SET_COMBO))) \/
  (low = false /\ wasPressed s = true /\ 100 <= pressDuration s now < 4000 /\
   currentMode s = PUZZLE /\
   s0 = set_wasPressed false (set_selectedValue 0 (set_currentMode PROGRAM s)) /\
   t0 = [E_animateModeChange PROGRAM; E_beepModeChange; E_showNumber 0] ++ relay_pulse) \/
  (low = false /\ wasPressed s = true /\ 4000 <= pressDuration s now /\
   currentMode s <> SET_COMBO /\
   s0 = set_wasPressed false (set_currentIndex 0 (set_currentMode SET_COMBO s)) /\
   t0 = [E_animateModeChange SET_COMBO; E_beepModeChange; E_clearStrip]).

(** The button part of [programmingLoop]: a press edge advances the
    selection (wrapping after 9), anything else only tracks the level. *)
Definition selection_outcome (low : bool) (s sp : State) (tp : list Event) : Prop :=
  (low = true /\ buttonWasPressed s = false /\
   sp = set_selectedValue (if 9 <? selectedValue s + 1 then 0 else selectedValue s + 1)
          (set_buttonWasPressed true s) /\
   tp = [E_showNumber (if 9 <? selectedValue s + 1 then 0 else selectedValue s + 1);
         E_tone BUZZER_PIN 1000 50; E_delay 200]) \/
  ((low = false \/ buttonWasPressed s = true) /\
   sp = set_buttonWasPressed low s /\ tp = []).

(** The completion check of a mode loop on the state [s1] left by the
    reader handler. *)
Definition completion_outcome (m : Mode) (s1 s' : State) (te : list Event) : Prop :=
  match m with
  | PROGRAM => s' = s1 /\ te = []
  | PUZZLE =>
      (currentIndex s1 < codeLength s1 /\ s' = s1 /\ te = []) \/
      (codeLength s1 <= currentIndex s1 /\ s' = set_currentIndex 0 s1 /\
       exists b : bool,
         (b = true <-> entered_matches s1) /\
         te = (if b then E_animateSuccess :: relay_pulse else [E_animateFailure])
                ++ [E_clearStrip])
  | SET_COMBO =>
      (currentIndex s1 < codeLength s1 /\ s' = s1 /\ te = []) \/
      (codeLength s1 <= currentIndex s1 /\
       exists ee tw,
         saveComboToEEPROM s1 = Some (tt, set_eeprom ee s1, tw) /\
         s' = set_currentMode PUZZLE (set_currentIndex 0 (set_eeprom ee s1)) /\
         te = tw ++ [E_saveMelody; E_clearStrip; E_animateModeChange PUZZLE])
  end.

(** The release of a press of at least 100 ms and less than 4 s, and of
    one of at least 4 s, seen by pass [i] in state [s]. *)
Definition short_release (i : LoopInput) (s : State) : Prop :=
  in_button i = false /\ wasPressed s = true /\
  100 <= pressDuration s (in_millis i) < 4000.

Definition long_release (i : LoopInput) (s : State) : Prop :=
  in_button i = false /\ wasPressed s = true /\
  4000 <= pressDuration s (in_millis i).

(** A short press from Puzzle: pressed at 100 ms, released at 400 ms. *)
Definition short_press : list LoopInput :=
  [pass true 100 None (reads 0); pass false 400 None (reads 0)].

(** A factory-fresh board after a short press: Program mode. *)
Definition fresh_in_program : State :=
  state_of (run short_press (booted (eeprom_of []))) (initial (eeprom_of [])).

(** A strip of nine LEDs in arbitrary colours. *)
Definition strip9 : list CRGB :=
  [CRGB_Green; CRGB_Black; CRGB_Orange; CRGB_Yellow; CRGB_Black;
   CHSV 7 255 255; CRGB_Green; CRGB_Black; CRGB_Orange].

(** What a presentation call does to the strip, for the calls whose LED
    arithmetic is modelled; the other events do not index the strip by
    their arguments. *)
Definition render (e : Event) (leds : list CRGB) : option (list CRGB) :=
  match e with
  | E_clearStrip => clearStrip leds
  | E_showNumber n => showNumber n leds
  | E_showProgressBar c t => showProgressBar c t leds
  | E_animateProgress c t => animateProgress c t leds
  | _ => Some leds
  end.

(** The EEPROM writes of [saveComboToEEPROM] for a combination [cc] of
    length [len]: magic byte, length, then the values in order. *)
Definition save_trace (len : Z) (cc : list Z) : list Event :=
  E_EEPROM_write EEPROM_MAGIC_ADDR EEPROM_MAGIC_VALUE ::
  E_EEPROM_write EEPROM_LENGTH_ADDR (to_byte len) ::
  ((fun k => E_EEPROM_write (EEPROM_CODE_ADDR + k)
               (to_byte (default 0 (cc !! Z.to_nat k)))) <$> seqZ 0 len).

(** Four cards reading 1, 2, 3, 4 presented one after the other from
    100 ms on, the button untouched. *)
Definition cards_1234 : list LoopInput :=
  [pass false 100 (Some card_A) (reads 1); pass false 200 None (reads 0);
   pass false 300 (Some card_A) (reads 2); pass false 400 None (reads 0);
   pass false 500 (Some card_A) (reads 3); pass false 600 None (reads 0);
   pass false 700 (Some card_A) (reads 4)].

Definition card_B : Uid := mkUid 4 [0x12; 0x34; 0x56; 0x78; 0; 0; 0; 0; 0; 0].

(** A poll at 500 ms that sees card A, which answers at once. *)
Definition poll_program : ReaderInput := mkReaderInput 500 (Some card_A) (reads 0).

(** A poll at 5100 ms that sees card A, which cannot be read. *)
Definition poll_late_unreadable : ReaderInput :=
  mkReaderInput 5100 (Some card_A) unreadable.

(** A factory-fresh board with card A resting on the reader. *)
Definition fresh_card_on : State :=
  state_of (run [pass false 100 (Some card_A) (reads 1)] (booted (eeprom_of [])))
    (initial (eeprom_of [])).

(** Card B seen at two passes. *)
Definition card_B_rests : list LoopInput :=
  [pass false 200 (Some card_B) (reads 2); pass false 300 (Some card_B) (reads 2)].

(** * Verification *)

Lemma to_byte_range x : 0 <= to_byte x < 256.
Proof. unfold to_byte. apply Z.mod_pos_bound. lia. Qed.

Lemma to_byte_small x : 0 <= x < 256 -> to_byte x = x.
Proof. intros H. unfold to_byte. apply Z.mod_small. exact H. Qed.

Lemma Mode_eqb_eq a b : Mode_eqb a b = true <-> a = b.
Proof. destruct a, b; simpl; split; congruence. Qed.

(** ** The button gesture classifier *)

Lemma triggerRelay_run s : triggerRelay s = Some (tt, s, relay_pulse).
Proof. reflexivity. Qed.

Lemma release_noop s now :
  wasPressed s = true -> pressDuration s now < 100 ->
  checkButtonPress false now s = Some (tt, set_wasPressed false s, []).
Proof.
  unfold pressDuration. intros Hw Hd. unfold checkButtonPress. munfold.
  rewrite Hw. zcases. reflexivity.
Qed.

Lemma release_short s now :
  wasPressed s = true -> 100 <= pressDuration s now < 4000 ->
  checkButtonPress false now s =
    if Mode_eqb (currentMode s) PUZZLE
    then Some (tt, set_wasPressed false (set_selectedValue 0 (set_currentMode PROGRAM s)),
               [E_animateModeChange PROGRAM; E_beepModeChange; E_showNumber 0]
                 ++ relay_pulse)
    else Some (tt, set_wasPressed false s, []).
Proof.
  unfold pressDuration. intros Hw Hd. unfold checkButtonPress. munfold.
  rewrite Hw. zcases. destruct (Mode_eqb (currentMode s) PUZZLE); reflexivity.
Qed.

Lemma release_long s now :
  wasPressed s = true -> 4000 <= pressDuration s now ->
  checkButtonPress false now s =
    if Mode_eqb (currentMode s) SET_COMBO
    then Some (tt, set_wasPressed false s, [])
    else Some (tt, set_wasPressed false (set_currentIndex 0 (set_currentMode SET_COMBO s)),
               [E_animateModeChange SET_COMBO; E_beepModeChange; E_clearStrip]).
Proof.
  unfold pressDuration. intros Hw Hd. unfold checkButtonPress. munfold.
  rewrite Hw. zcases. destruct (Mode_eqb (currentMode s) SET_COMBO); reflexivity.
Qed.

Lemma button_held s now :
  checkButtonPress true now s =
    Some (tt, if wasPressed s then s
              else set_pressStartTime (u32 now) (set_wasPressed true s), []).
Proof.
  unfold checkButtonPress. munfold. destruct (wasPressed s); reflexivity.
Qed.

Lemma button_idle s now :
  wasPressed s = false -> checkButtonPress false now s = Some (tt, s, []).
Proof.
  intros Hw. unfold checkButtonPress. munfold. rewrite Hw. reflexivity.
Qed.

Lemma classify_cases d :
  (classify d = NoOp <-> d < 100) /\
  (classify d = ShortPress <-> 100 <= d < 4000) /\
  (classify d = LongHold <-> 4000 <= d).
Proof.
  unfold classify. zcases; repeat split; intros; try lia; congruence.
Qed.

(** C3: seen at the release edge, a press of measured duration [d] is a
    no-op below 100 ms, a short press from 100 ms up to 4000 ms and a
    long hold from 4000 ms on: a no-op only clears the pressed flag; what
    the release does depends on [d] only through its class; from Puzzle the
    three classes lead to three different modes.  While the button is held
    nothing is dispatched (only the press is latched), and with no press
    latched a released button does nothing. *)
Theorem C3_gesture_classification (s : State) (now : Z) :
  let d := pressDuration s now in
  ((classify d = NoOp <-> d < 100) /\
   (classify d = ShortPress <-> 100 <= d < 4000) /\
   (classify d = LongHold <-> 4000 <= d)) /\
  (wasPressed s = true ->
     (classify d = NoOp ->
        checkButtonPress false now s = Some (tt, set_wasPressed false s, [])) /\
     (forall now', classify (pressDuration s now') = classify d ->
        checkButtonPress false now' s = checkButtonPress false now s) /\
     (currentMode s = PUZZLE ->
        exists s' t, checkButtonPress false now s = Some (tt, s', t) /\
          currentMode s' = match classify d with
                           | NoOp => PUZZLE
                           | ShortPress => PROGRAM
                           | LongHold => SET_COMBO
                           end)) /\
  checkButtonPress true now s =
    Some (tt, if wasPressed s then s
              else set_pressStartTime (u32 now) (set_wasPressed true s), []) /\
  (wasPressed s = false -> checkButtonPress false now s = Some (tt, s, [])).
Proof.
  intros d. split; [apply classify_cases|].
  split; [|split; [apply button_held | apply button_idle]].
  intros Hw. split; [|split].
  - intros Hc. apply release_noop; [exact Hw|]. apply classify_cases, Hc.
  - intros now' Hc.
    destruct (classify_cases d) as (Hn & Hs & Hl).
    destruct (classify_cases (pressDuration s now')) as (Hn' & Hs' & Hl').
    destruct (classify d) eqn:E.
    + rewrite !release_noop; auto; [apply Hn | apply Hn']; auto.
    + rewrite !release_short; auto; [apply Hs | apply Hs']; auto.
    + rewrite !release_long; auto; [apply Hl | apply Hl']; auto.
  - intros Hm. destruct (classify_cases d) as (Hn & Hs & Hl).
    destruct (classify d) eqn:E.
    + rewrite release_noop; auto; [|apply Hn; auto]. eauto.
    + rewrite release_short; auto; [|apply Hs; auto]. rewrite Hm. simpl. eauto.
    + rewrite release_long; auto; [|apply Hl; auto]. rewrite Hm. simpl. eauto.
Qed.

(** C6: a short press (100 ms up to 4000 ms) released in Puzzle switches to
    Program, sets the selection to 0, plays the mode-change presentation
    and pulses the relay in the same call; released in Program or SetCombo
    it changes nothing but the pressed flag and has no effect outside. *)
Theorem C6_short_press (s : State) (now : Z) :
  wasPressed s = true ->
  100 <= pressDuration s now < 4000 ->
  (currentMode s = PUZZLE ->
     checkButtonPress false now s =
       Some (tt, set_wasPressed false (set_selectedValue 0 (set_currentMode PROGRAM s)),
             [E_animateModeChange PROGRAM; E_beepModeChange; E_showNumber 0]
               ++ relay_pulse)) /\
  (currentMode s <> PUZZLE ->
     checkButtonPress false now s = Some (tt, set_wasPressed false s, [])) /\
  (forall s0, triggerRelay s0 = Some (tt, s0, relay_pulse)).
Proof.
  intros Hw Hd. rewrite release_short by assumption.
  split; [|split].
  - intros ->. reflexivity.
  - intros Hm. destruct (Mode_eqb (currentMode s) PUZZLE) eqn:E; [|reflexivity].
    apply Mode_eqb_eq in E. contradiction.
  - apply triggerRelay_run.
Qed.

(** C7: a long hold (4000 ms or more) released in Puzzle or Program switches
    to SetCombo, resets the accumulator index to 0 and plays the mode-change
    presentation; released in SetCombo it changes nothing but the pressed
    flag: no transition, no reset, no presentation. *)
Theorem C7_long_hold (s : State) (now : Z) :
  wasPressed s = true ->
  4000 <= pressDuration s now ->
  (currentMode s <> SET_COMBO ->
     checkButtonPress false now s =
       Some (tt, set_wasPressed false (set_currentIndex 0 (set_currentMode SET_COMBO s)),
             [E_animateModeChange SET_COMBO; E_beepModeChange; E_clearStrip])) /\
  (currentMode s = SET_COMBO ->
     checkButtonPress false now s = Some (tt, set_wasPressed false s, [])).
Proof.
  intros Hw Hd. rewrite release_long by assumption. split.
  - intros Hm. destruct (Mode_eqb (currentMode s) SET_COMBO) eqn:E; [|reflexivity].
    apply Mode_eqb_eq in E. contradiction.
  - intros ->. reflexivity.
Qed.

(** ** Arrays, traces and loops *)

Lemma count_app p t1 t2 : count p (t1 ++ t2) = (count p t1 + count p t2)%nat.
Proof. induction t1; simpl; lia. Qed.

Lemma set_correctCode_id s : set_correctCode (correctCode s) s = s.
Proof. destruct s; reflexivity. Qed.

Lemma set_eeprom_id s : set_eeprom (eeprom s) s = s.
Proof. destruct s; reflexivity. Qed.

Lemma arr_get_Some (a : list Z) i :
  0 <= i < Z.of_nat (length a) -> exists v, arr_get a i = Some v /\ a !! Z.to_nat i = Some v.
Proof.
  intros H. unfold arr_get. zcases.
  destruct (lookup_lt_is_Some_2 a (Z.to_nat i)) as [v Hv]; [lia|].
  exists v. rewrite Hv. auto.
Qed.

Lemma arr_get_nat (a : list Z) (k : nat) : arr_get a (Z.of_nat k) = a !! k.
Proof. unfold arr_get. zcases. rewrite Nat2Z.id. reflexivity. Qed.

Lemma store_correctCode_run s i v :
  0 <= i < Z.of_nat (length (correctCode s)) ->
  store_correctCode i v s =
    Some (tt, set_correctCode (<[Z.to_nat i := v]> (correctCode s)) s,
          [E_store A_correctCode i v]).
Proof. intros H. unfold store_correctCode, arr_set. zcases. reflexivity. Qed.

Lemma store_enteredValues_run s i v :
  0 <= i < Z.of_nat (length (enteredValues s)) ->
  store_enteredValues i v s =
    Some (tt, set_enteredValues (<[Z.to_nat i := v]> (enteredValues s)) s,
          [E_store A_enteredValues i v]).
Proof. intros H. unfold store_enteredValues, arr_set. zcases. reflexivity. Qed.

Lemma loadCombo_body_run s i :
  0 <= i < Z.of_nat (length (correctCode s)) ->
  loadCombo_body i tt s =
    Some (tt, set_correctCode
                (<[Z.to_nat i := to_byte (eeprom s (EEPROM_CODE_ADDR + i))]> (correctCode s)) s,
          [E_store A_correctCode i (to_byte (eeprom s (EEPROM_CODE_ADDR + i)))]).
Proof.
  intros H. unfold loadCombo_body. munfold.
  rewrite store_correctCode_run by lia. reflexivity.
Qed.

(** The loop of [loadComboFromEEPROM]: cells [i .. i+n) of [correctCode]
    receive the EEPROM bytes at [EEPROM_CODE_ADDR + i ..]; nothing else
    changes, and the only events are those stores. *)
Lemma load_loop n : forall i s,
  0 <= i -> i + Z.of_nat n <= Z.of_nat (length (correctCode s)) ->
  exists cc t,
    for_loop n i loadCombo_body tt s = Some (tt, set_correctCode cc s, t) /\
    length cc = length (correctCode s) /\
    (forall k : nat,
       cc !! k = if (i <=? Z.of_nat k) && (Z.of_nat k <? i + Z.of_nat n)
                 then Some (to_byte (eeprom s (EEPROM_CODE_ADDR + Z.of_nat k)))
                 else correctCode s !! k) /\
    Forall (store_in i (i + Z.of_nat n)) t /\
    count is_EEPROM_write t = O.
Proof.
  induction n as [|n IH]; intros i s Hi Hb.
  - exists (correctCode s), []. simpl. munfold. rewrite set_correctCode_id.
    repeat split; auto.
    intros k. zcases; reflexivity.
  - simpl for_loop. munfold.
    rewrite loadCombo_body_run by lia.
    set (s1 := set_correctCode _ s).
    destruct (IH (i + 1) s1) as (cc & t & Hrun & Hlen & Hcc & Hst & Hw).
    { lia. }
    { subst s1. simpl. rewrite length_insert. lia. }
    rewrite Hrun.
    exists cc, (E_store A_correctCode i (to_byte (eeprom s (EEPROM_CODE_ADDR + i))) :: t).
    split; [reflexivity|].
    split; [rewrite Hlen; subst s1; simpl; apply length_insert|].
    split; [|split].
    + intros k. rewrite Hcc. subst s1. simpl.
      destruct (Z.eq_dec i (Z.of_nat k)) as [->|Hne].
      * zcases. simpl. rewrite Nat2Z.id.
        rewrite list_lookup_insert_eq by lia. reflexivity.
      * rewrite list_lookup_insert_ne by lia.
        zcases; reflexivity.
    + constructor; [simpl; lia|].
      eapply Forall_impl; [exact Hst|].
      intros [] He; simpl in *; auto; lia.
    + simpl. exact Hw.
Qed.

(** ** Loading the persisted record *)

Lemma record_valid_dec ee :
  record_valid ee \/
  (to_byte (ee EEPROM_MAGIC_ADDR) <> EEPROM_MAGIC_VALUE \/
   to_byte (ee EEPROM_LENGTH_ADDR) = 0 \/
   MAX_CARDS < to_byte (ee EEPROM_LENGTH_ADDR)).
Proof.
  unfold record_valid.
  pose proof (to_byte_range (ee EEPROM_LENGTH_ADDR)).
  destruct (Z.eq_dec (to_byte (ee EEPROM_MAGIC_ADDR)) EEPROM_MAGIC_VALUE); [|auto].
  destruct (Z.eq_dec (to_byte (ee EEPROM_LENGTH_ADDR)) 0); [auto|].
  destruct (Z_lt_dec MAX_CARDS (to_byte (ee EEPROM_LENGTH_ADDR))); [auto|].
  left. split; [assumption|lia].
Qed.

Lemma load_invalid s :
  ~ record_valid (eeprom s) -> loadComboFromEEPROM s = Some (tt, s, []).
Proof.
  intros Hv. unfold loadComboFromEEPROM. munfold.
  destruct (Z.eqb_spec (to_byte (eeprom s EEPROM_MAGIC_ADDR)) EEPROM_MAGIC_VALUE) as [Hm|Hm];
    [|reflexivity].
  destruct (Z.ltb_spec 0 (to_byte (eeprom s EEPROM_LENGTH_ADDR)));
    destruct (Z.leb_spec (to_byte (eeprom s EEPROM_LENGTH_ADDR)) MAX_CARDS);
    simpl; try reflexivity.
  exfalso. apply Hv. split; [assumption|lia].
Qed.

Lemma load_valid s :
  length (correctCode s) = 10%nat ->
  record_valid (eeprom s) ->
  exists cc t,
    loadComboFromEEPROM s =
      Some (tt, set_correctCode cc
                  (set_codeLength (to_byte (eeprom s EEPROM_LENGTH_ADDR)) s), t) /\
    length cc = 10%nat /\
    (forall k : nat,
       cc !! k = if Z.of_nat k <? to_byte (eeprom s EEPROM_LENGTH_ADDR)
                 then Some (to_byte (eeprom s (EEPROM_CODE_ADDR + Z.of_nat k)))
                 else correctCode s !! k) /\
    Forall (store_in 0 (to_byte (eeprom s EEPROM_LENGTH_ADDR))) t /\
    count is_EEPROM_write t = O.
Proof.
  intros Hlen [Hm Hl]. unfold MAX_CARDS in Hl.
  destruct (load_loop (Z.to_nat (to_byte (eeprom s EEPROM_LENGTH_ADDR))) 0
              (set_codeLength (to_byte (eeprom s EEPROM_LENGTH_ADDR)) s))
    as (cc & t & Hrun & Hlc & Hcc & Hst & Hw).
  { lia. }
  { simpl. rewrite Hlen. lia. }
  exists cc, t. simpl in Hlc, Hcc.
  rewrite Z2Nat.id in Hcc, Hst by lia.
  split; [|split; [congruence|split; [|split; [exact Hst|exact Hw]]]].
  - unfold loadComboFromEEPROM. munfold.
    rewrite Hm. simpl.
    destruct (Z.ltb_spec 0 (to_byte (eeprom s EEPROM_LENGTH_ADDR))); [|lia].
    destruct (Z.leb_spec (to_byte (eeprom s EEPROM_LENGTH_ADDR)) MAX_CARDS);
      [|unfold MAX_CARDS in *; lia].
    simpl. rewrite Hrun. reflexivity.
  - intros k. rewrite Hcc. zcases; reflexivity.
Qed.

Lemma setup_run ee :
  exists t, setup (initial ee) = Some (tt, booted ee, t) /\
            Forall (store_in 0 (codeLength (booted ee))) t /\
            count is_EEPROM_write t = O.
Proof.
  unfold booted.
  destruct (record_valid_dec ee) as [Hv|Hv].
  - destruct (load_valid (initial ee) eq_refl Hv) as (cc & t & Hrun & _ & _ & Hst & Hw).
    unfold setup. munfold. rewrite Hrun. simpl.
    eexists. split; [reflexivity|]. split.
    + repeat (constructor; [exact I|]).
      apply Forall_app. split; [exact Hst|repeat constructor].
    + simpl. rewrite count_app, Hw. reflexivity.
  - assert (Hn : ~ record_valid (eeprom (initial ee))).
    { unfold record_valid. simpl. pose proof (to_byte_range (ee EEPROM_LENGTH_ADDR)).
      unfold MAX_CARDS in *. intros [? ?]. destruct Hv as [?|[?|?]]; [auto|lia|lia]. }
    unfold setup. munfold. rewrite (load_invalid _ Hn). simpl.
    eexists. split; [reflexivity|]. split; [repeat constructor|reflexivity].
Qed.

(** What [setup] leaves in memory: the record's length and values when the
    record is valid, the compiled-in default otherwise. *)
Lemma booted_spec ee :
  eeprom (booted ee) = ee /\
  currentMode (booted ee) = PUZZLE /\
  currentIndex (booted ee) = 0 /\
  enteredValues (booted ee) = enteredValues (initial ee) /\
  cardCurrentlyPresent (booted ee) = false /\
  lastUIDSize (booted ee) = 0 /\
  length (correctCode (booted ee)) = 10%nat /\
  (record_valid ee ->
     codeLength (booted ee) = to_byte (ee EEPROM_LENGTH_ADDR) /\
     forall k : nat,
       correctCode (booted ee) !! k =
         if Z.of_nat k <? to_byte (ee EEPROM_LENGTH_ADDR)
         then Some (to_byte (ee (EEPROM_CODE_ADDR + Z.of_nat k)))
         else correctCode (initial ee) !! k) /\
  (~ record_valid ee ->
     codeLength (booted ee) = 4 /\ correctCode (booted ee) = correctCode (initial ee)).
Proof.
  unfold booted.
  destruct (record_valid_dec ee) as [Hv|Hv].
  - destruct (load_valid (initial ee) eq_refl Hv) as (cc & t & Hrun & Hl & Hcc & _ & _).
    unfold setup. munfold. rewrite Hrun. simpl.
    repeat (split; [first [reflexivity | assumption]|]).
    split; [intros _; split; [reflexivity|exact Hcc]|intros Hn; contradiction].
  - assert (Hn : ~ record_valid (eeprom (initial ee))).
    { unfold record_valid. simpl. pose proof (to_byte_range (ee EEPROM_LENGTH_ADDR)).
      unfold MAX_CARDS in *. intros [? ?]. destruct Hv as [?|[?|?]]; [auto|lia|lia]. }
    unfold setup. munfold. rewrite (load_invalid _ Hn). simpl.
    repeat (split; [reflexivity|]).
    split; [intros Hv'; contradiction|intros _; split; reflexivity].
Qed.

(** C5: on the startup load, an invalid record (bad magic, length 0 or
    length above 10) leaves the globals exactly as compiled in, so the
    Combination is the default 1,2,3,4 of length 4; a valid record is taken
    over (its length and its value bytes); in both cases the load issues no
    EEPROM write and leaves the EEPROM contents as they were. *)
Theorem C5_load_validates (ee : Z -> Z) :
  (~ record_valid ee <->
     to_byte (ee EEPROM_MAGIC_ADDR) <> EEPROM_MAGIC_VALUE \/
     to_byte (ee EEPROM_LENGTH_ADDR) = 0 \/
     MAX_CARDS < to_byte (ee EEPROM_LENGTH_ADDR)) /\
  (~ record_valid ee ->
     loadComboFromEEPROM (initial ee) = Some (tt, initial ee, []) /\
     codeLength (initial ee) = 4 /\
     combination (initial ee) = [1; 2; 3; 4]) /\
  (record_valid ee ->
     exists s t,
       loadComboFromEEPROM (initial ee) = Some (tt, s, t) /\
       codeLength s = to_byte (ee EEPROM_LENGTH_ADDR) /\
       forall i, 0 <= i < codeLength s ->
         arr_get (correctCode s) i = Some (to_byte (ee (EEPROM_CODE_ADDR + i)))) /\
  (exists s t,
     loadComboFromEEPROM (initial ee) = Some (tt, s, t) /\
     eeprom s = ee /\ count is_EEPROM_write t = O).
Proof.
  split; [|split; [|split]].
  - split.
    + intros Hn. destruct (record_valid_dec ee) as [Hv|Hv]; [contradiction|exact Hv].
    + intros Hb [Hm Hl]. unfold MAX_CARDS in *.
      destruct Hb as [?|[?|?]]; [auto|lia|lia].
  - intros Hn. split; [|split; reflexivity].
    apply (load_invalid (initial ee)). exact Hn.
  - intros Hv.
    destruct (load_valid (initial ee) eq_refl Hv) as (cc & t & Hrun & Hl & Hcc & _ & _).
    eexists _, t. split; [exact Hrun|]. split; [reflexivity|].
    simpl. intros i Hi.
    replace i with (Z.of_nat (Z.to_nat i)) by lia.
    rewrite arr_get_nat, Hcc. simpl. zcases. reflexivity.
  - destruct (record_valid_dec ee) as [Hv|Hv].
    + destruct (load_valid (initial ee) eq_refl Hv) as (cc & t & Hrun & _ & _ & _ & Hw).
      eexists _, t. split; [exact Hrun|]. split; [reflexivity|exact Hw].
    + exists (initial ee), []. split; [|split; reflexivity].
      apply (load_invalid (initial ee)).
      unfold record_valid. simpl. pose proof (to_byte_range (ee EEPROM_LENGTH_ADDR)).
      unfold MAX_CARDS in *. intros [? ?]. destruct Hv as [?|[?|?]]; [auto|lia|lia].
Qed.

(** ** The comparison loop of [puzzleLoop] *)

Lemma puzzleLoop_body_run s i acc :
  0 <= i < Z.of_nat (length (enteredValues s)) ->
  0 <= i < Z.of_nat (length (correctCode s)) ->
  exists e c,
    arr_get (enteredValues s) i = Some e /\
    arr_get (correctCode s) i = Some c /\
    puzzleLoop_body i acc s = Some (if negb (e =? c) then false else acc, s, []).
Proof.
  intros He Hc.
  destruct (arr_get_Some _ _ He) as (e & Hge & _).
  destruct (arr_get_Some _ _ Hc) as (c & Hgc & _).
  exists e, c. split; [exact Hge|]. split; [exact Hgc|].
  unfold puzzleLoop_body, read_enteredValues, read_correctCode. munfold.
  rewrite Hge, Hgc. reflexivity.
Qed.

Lemma compare_loop n : forall i s acc,
  0 <= i ->
  i + Z.of_nat n <= Z.of_nat (length (enteredValues s)) ->
  i + Z.of_nat n <= Z.of_nat (length (correctCode s)) ->
  exists b,
    for_loop n i puzzleLoop_body acc s = Some (b, s, []) /\
    (b = true <->
       acc = true /\
       forall k, i <= k < i + Z.of_nat n ->
         arr_get (enteredValues s) k = arr_get (correctCode s) k).
Proof.
  induction n as [|n IH]; intros i s acc Hi He Hc.
  - exists acc. split; [reflexivity|]. split; [intros ->; split; [auto|intros; lia]|tauto].
  - destruct (puzzleLoop_body_run s i acc) as (e & c & Hge & Hgc & Hrun); [lia|lia|].
    destruct (IH (i + 1) s (if negb (e =? c) then false else acc)) as (b & Hloop & Hb);
      [lia|lia|lia|].
    exists b. split.
    + simpl for_loop. munfold. rewrite Hrun, Hloop. reflexivity.
    + rewrite Hb. split.
      * intros [Hacc Hall]. destruct (Z.eqb_spec e c) as [->|Hne]; simpl in Hacc; [|discriminate].
        split; [exact Hacc|]. intros k Hk.
        destruct (Z.eq_dec k i) as [->|Hki]; [congruence|]. apply Hall. lia.
      * intros [Hacc Hall]. split.
        -- pose proof (Hall i ltac:(lia)) as Hii. rewrite Hge, Hgc in Hii.
           injection Hii as ->. rewrite Z.eqb_refl. exact Hacc.
        -- intros k Hk. apply Hall. lia.
Qed.

(** ** Saving the combination *)

Lemma saveCombo_body_run s i :
  0 <= i < Z.of_nat (length (correctCode s)) ->
  exists v,
    correctCode s !! Z.to_nat i = Some v /\
    saveCombo_body i tt s =
      Some (tt, set_eeprom (EEPROM_update (eeprom s) (EEPROM_CODE_ADDR + i) v) s,
            [E_EEPROM_write (EEPROM_CODE_ADDR + i) (to_byte v)]).
Proof.
  intros H. destruct (arr_get_Some _ _ H) as (v & Hg & Hl).
  exists v. split; [exact Hl|].
  unfold saveCombo_body, read_correctCode. munfold. rewrite Hg. reflexivity.
Qed.

Lemma save_loop n : forall i s,
  0 <= i -> i + Z.of_nat n <= Z.of_nat (length (correctCode s)) ->
  exists ee t,
    for_loop n i saveCombo_body tt s = Some (tt, set_eeprom ee s, t) /\
    (forall a,
       ee a = if (EEPROM_CODE_ADDR + i <=? a) && (a <? EEPROM_CODE_ADDR + i + Z.of_nat n)
              then to_byte (default 0 (correctCode s !! Z.to_nat (a - EEPROM_CODE_ADDR)))
              else eeprom s a) /\
    Forall (fun e => is_EEPROM_write e = true) t.
Proof.
  induction n as [|n IH]; intros i s Hi Hb.
  - exists (eeprom s), []. simpl. munfold. rewrite set_eeprom_id.
    split; [reflexivity|]. split; [|constructor].
    intros a. zcases; reflexivity.
  - destruct (saveCombo_body_run s i) as (v & Hv & Hrun); [lia|].
    destruct (IH (i + 1) (set_eeprom (EEPROM_update (eeprom s) (EEPROM_CODE_ADDR + i) v) s))
      as (ee & t & Hloop & Hee & Ht); [lia|simpl; lia|].
    exists ee, (E_EEPROM_write (EEPROM_CODE_ADDR + i) (to_byte v) :: t).
    split; [|split].
    + simpl for_loop. munfold. rewrite Hrun, Hloop. reflexivity.
    + intros a. rewrite Hee. simpl. unfold EEPROM_update, EEPROM_CODE_ADDR.
      destruct (Z.eq_dec a (2 + i)) as [->|Hne].
      * replace (Z.to_nat (2 + i - 2)) with (Z.to_nat i) by lia.
        rewrite Hv. simpl. zcases; reflexivity.
      * zcases; reflexivity.
    + constructor; [reflexivity|exact Ht].
Qed.

Lemma saveComboToEEPROM_run s :
  length (correctCode s) = 10%nat ->
  0 <= codeLength s <= MAX_CARDS ->
  exists ee t,
    saveComboToEEPROM s = Some (tt, set_eeprom ee s, t) /\
    ee EEPROM_MAGIC_ADDR = EEPROM_MAGIC_VALUE /\
    ee EEPROM_LENGTH_ADDR = to_byte (codeLength s) /\
    (forall k : nat, Z.of_nat k < codeLength s ->
       ee (EEPROM_CODE_ADDR + Z.of_nat k) = to_byte (default 0 (correctCode s !! k))) /\
    Forall (fun e => is_EEPROM_write e = true) t.
Proof.
  intros Hlen Hcl. unfold MAX_CARDS in Hcl.
  unfold saveComboToEEPROM. munfold.
  match goal with
  | |- context [for_loop ?n 0 saveCombo_body tt ?st] =>
      destruct (save_loop n 0 st) as (ee & t & Hloop & Hee & Ht);
        [lia|simpl; lia|]
  end.
  rewrite Hloop. simpl in Hee.
  exists ee, (E_EEPROM_write EEPROM_MAGIC_ADDR (to_byte EEPROM_MAGIC_VALUE)
              :: E_EEPROM_write EEPROM_LENGTH_ADDR (to_byte (codeLength s)) :: t).
  split; [|split; [|split; [|split]]].
  - reflexivity.
  - rewrite Hee. unfold EEPROM_CODE_ADDR, EEPROM_MAGIC_ADDR. simpl.
    unfold EEPROM_update. reflexivity.
  - rewrite Hee. unfold EEPROM_CODE_ADDR, EEPROM_LENGTH_ADDR. simpl.
    unfold EEPROM_update. reflexivity.
  - intros k Hk. rewrite Hee. unfold EEPROM_CODE_ADDR.
    zcases. simpl. replace (Z.to_nat (2 + Z.of_nat k - 2)) with k by lia. reflexivity.
  - repeat (constructor; [reflexivity|]). exact Ht.
Qed.

(** ** The card reader handler *)

Lemma readCard_loop_value n : forall attempt obs ok v,
  readCard_loop n attempt obs = (ok, v) ->
  0 <= v < 256 /\ (ok = false -> v = 0xFF).
Proof.
  induction n as [|n IH]; intros attempt obs ok v; simpl.
  - intros [= <- <-]. split; [lia|auto].
  - repeat match goal with
           | |- context [if ?c then _ else _] => destruct c
           end;
      try (intros [= <- <-]; split; [lia|auto]);
      try (apply IH).
    intros [= <- <-]. split; [apply to_byte_range|discriminate].
Qed.

Lemma readCard_value obs ok v :
  readCard obs = (ok, v) -> 0 <= v < 256 /\ (ok = false -> v = 0xFF).
Proof. apply readCard_loop_value. Qed.

Lemma handleReader_Inv r s :
  InvTop s ->
  exists s' t,
    handleReader r s = Some (tt, s', t) /\
    Inv s' /\
    currentMode s' = currentMode s /\
    codeLength s' = codeLength s /\
    eeprom s' = eeprom s /\
    (currentMode s = PROGRAM -> currentIndex s' = currentIndex s) /\
    Forall (store_in 0 (codeLength s)) t /\
    count is_EEPROM_write t = O.
Proof.
  intros [HI Hlt]. destruct HI as [Hcl Hel Hlen Hidx Hbytes Huid Hlp Hcp].
  unfold MAX_CARDS in *.
  hr_split s r; simpl.
  all: try rewrite store_enteredValues_run by (simpl; lia).
  all: try rewrite store_correctCode_run by (simpl; lia).
  all: simpl.
  all: eexists _, _; (split; [reflexivity|]).
  all: pose proof (readCard_value (rd_attempts r)) as Hval.
  all: (split; [constructor|repeat apply conj]); simpl;
       rewrite ?length_insert; auto; try lia; try discriminate;
       try (intros; discriminate);
       try (repeat constructor; simpl; lia).
  all: try (intros; congruence).
  all: try (apply Forall_insert; [assumption|apply (Hval _ _ Hread)]).
  all: intros k Hk.
  all: try (rewrite list_lookup_insert_ne by (specialize (Hk Hmode); lia)).
  all: apply Hcp; intros Hm;
       first [congruence | specialize (Hk Hm); lia | specialize (Hk Hmode); lia].
Qed.

(** ** Quiet traces *)

Lemma quiet_count t :
  Forall quiet t ->
  count is_store t = O /\ count is_EEPROM_write t = O /\
  count is_poll t = O /\ count is_dispatch t = O.
Proof.
  induction 1 as [|e t (Hs & Hw & Hp & Hd) _ IH]; simpl; [auto|].
  rewrite Hs, Hw, Hp, Hd. exact IH.
Qed.

Lemma quiet_store_in lo hi t : Forall quiet t -> Forall (store_in lo hi) t.
Proof.
  intros H. eapply Forall_impl; [exact H|].
  intros [] (Hs & _); simpl in *; auto; discriminate.
Qed.

Lemma writes_count t :
  Forall (fun e => is_EEPROM_write e = true) t ->
  count is_dispatch t = O /\ count is_poll t = O /\ Forall (store_in 0 0) t.
Proof.
  induction 1 as [|e t He _ (IH1 & IH2 & IH3)]; simpl; [auto|].
  destruct e; try discriminate. simpl. repeat split; auto.
  constructor; [exact I|exact IH3].
Qed.

(** ** The button handler preserves the invariant *)

Lemma checkButtonPress_Inv low now s :
  InvTop s ->
  exists s' t,
    checkButtonPress low now s = Some (tt, s', t) /\
    InvTop s' /\
    codeLength s' = codeLength s /\
    eeprom s' = eeprom s /\
    cardCurrentlyPresent s' = cardCurrentlyPresent s /\
    lastUIDSize s' = lastUIDSize s /\
    lastCardCheckTime s' = lastCardCheckTime s /\
    Forall quiet t.
Proof.
  intros [HI Hlt]. destruct HI as [Hcl Hel Hlen Hidx Hbytes Huid Hlp Hcp].
  unfold checkButtonPress. munfold.
  destruct low, (wasPressed s); simpl.
  all: repeat match goal with
       | |- context [if ?c then _ else _] => destruct c eqn:?
       end; simpl.
  all: eexists _, _; (split; [reflexivity|]).
  all: (split; [split; [constructor|]|]); simpl; auto; try lia.
  all: try (repeat split; auto; quiet_trace).
  all: intros k Hk; apply Hcp; intros Hm.
  all: repeat match goal with
       | H : context [Mode_eqb _ _] |- _ => rewrite Hm in H; simpl in H
       end; discriminate.
Qed.

(** ** The mode loops *)

Lemma puzzleLoop_run r s s1 t1 :
  Inv s1 ->
  handleReader r s = Some (tt, s1, t1) ->
  (currentIndex s1 < codeLength s1 -> puzzleLoop r s = Some (tt, s1, t1)) /\
  (codeLength s1 <= currentIndex s1 ->
     exists b : bool,
       (b = true <-> entered_matches s1) /\
       puzzleLoop r s =
         Some (tt, set_currentIndex 0 s1,
               t1 ++ (if b then E_animateSuccess :: relay_pulse else [E_animateFailure])
                  ++ [E_clearStrip])).
Proof.
  intros HI Hrun. destruct HI as [Hcl Hel Hlen Hidx _ _ _ _]. unfold MAX_CARDS in *.
  split; intros Hc.
  - unfold puzzleLoop. munfold. rewrite Hrun.
    destruct (Z.leb_spec (codeLength s1) (currentIndex s1)); [lia|].
    rewrite !app_nil_r. reflexivity.
  - destruct (compare_loop (Z.to_nat (codeLength s1)) 0 s1 true) as (b & Hloop & Hb);
      [lia|lia|lia|].
    exists b. split.
    + rewrite Hb. unfold entered_matches. rewrite Z2Nat.id by lia. simpl. tauto.
    + unfold puzzleLoop. munfold. rewrite Hrun.
      destruct (Z.leb_spec (codeLength s1) (currentIndex s1)); [|lia].
      rewrite Hloop. destruct b; reflexivity.
Qed.

Lemma setComboLoop_run r s s1 t1 :
  Inv s1 ->
  handleReader r s = Some (tt, s1, t1) ->
  (currentIndex s1 < codeLength s1 -> setComboLoop r s = Some (tt, s1, t1)) /\
  (codeLength s1 <= currentIndex s1 ->
     exists ee tw,
       saveComboToEEPROM s1 = Some (tt, set_eeprom ee s1, tw) /\
       setComboLoop r s =
         Some (tt, set_currentMode PUZZLE (set_currentIndex 0 (set_eeprom ee s1)),
               t1 ++ tw ++ [E_saveMelody; E_clearStrip; E_animateModeChange PUZZLE])).
Proof.
  intros HI Hrun. destruct HI as [Hcl Hel Hlen Hidx _ _ _ _].
  split; intros Hc.
  - unfold setComboLoop. munfold. rewrite Hrun.
    destruct (Z.leb_spec (codeLength s1) (currentIndex s1)); [lia|].
    rewrite !app_nil_r. reflexivity.
  - destruct (saveComboToEEPROM_run s1 Hcl) as (ee & tw & Hsave & _); [lia|].
    exists ee, tw. split; [exact Hsave|].
    unfold setComboLoop. munfold. rewrite Hrun.
    destruct (Z.leb_spec (codeLength s1) (currentIndex s1)); [|lia].
    rewrite Hsave. reflexivity.
Qed.

Lemma booted_tail ee (k : nat) :
  codeLength (booted ee) <= Z.of_nat k ->
  correctCode (booted ee) !! k = correctCode (initial ee) !! k.
Proof.
  intros Hk. destruct (booted_spec ee) as (_ & _ & _ & _ & _ & _ & _ & Hv & Hn).
  destruct (record_valid_dec ee) as [Hva|Hiv].
  - destruct (Hv Hva) as [Hl Hcc]. rewrite Hcc. rewrite Hl in Hk. zcases. reflexivity.
  - assert (Hnv : ~ record_valid ee).
    { unfold record_valid. pose proof (to_byte_range (ee EEPROM_LENGTH_ADDR)).
      unfold MAX_CARDS in *. intros [? ?]. destruct Hiv as [?|[?|?]]; [auto|lia|lia]. }
    destruct (Hn Hnv) as [_ ->]. reflexivity.
Qed.

(** After [saveComboToEEPROM], a restart would load exactly the
    combination now in memory. *)
Lemma save_persists s ee :
  Inv s ->
  currentIndex s = codeLength s ->
  ee EEPROM_MAGIC_ADDR = EEPROM_MAGIC_VALUE ->
  ee EEPROM_LENGTH_ADDR = to_byte (codeLength s) ->
  (forall k : nat, Z.of_nat k < codeLength s ->
     ee (EEPROM_CODE_ADDR + Z.of_nat k) = to_byte (default 0 (correctCode s !! k))) ->
  record_valid ee /\
  codeLength s = codeLength (booted ee) /\
  forall k : nat, correctCode s !! k = correctCode (booted ee) !! k.
Proof.
  intros [Hcl Hel Hlen Hidx Hbytes Huid Hlp Hcp] Hfull Hm Hl Hv.
  unfold MAX_CARDS in *.
  assert (Hlb : to_byte (ee EEPROM_LENGTH_ADDR) = codeLength s).
  { rewrite Hl. rewrite !to_byte_small; [reflexivity|lia|].
    rewrite to_byte_small; lia. }
  assert (Hval : record_valid ee).
  { split; [rewrite Hm; reflexivity|]. rewrite Hlb. exact Hlen. }
  destruct (booted_spec ee) as (_ & _ & _ & _ & _ & _ & _ & Hbv & _).
  destruct (Hbv Hval) as [Hbl Hbc].
  split; [exact Hval|]. split; [congruence|].
  intros k. rewrite Hbc, Hlb.
  destruct (Z.ltb_spec (Z.of_nat k) (codeLength s)) as [Hk|Hk].
  - rewrite (Hv k Hk).
    destruct (lookup_lt_is_Some_2 (correctCode s) k) as [v Hkv]; [lia|].
    rewrite Hkv. simpl.
    pose proof (proj1 (Forall_lookup _ _) Hbytes k v Hkv) as Hrange. simpl in Hrange.
    rewrite !to_byte_small; [reflexivity|lia|]. rewrite to_byte_small; lia.
  - rewrite Hcp by (intros _; lia).
    rewrite booted_tail by lia. reflexivity.
Qed.

Lemma save_record s ee :
  Inv s ->
  ee EEPROM_MAGIC_ADDR = EEPROM_MAGIC_VALUE ->
  ee EEPROM_LENGTH_ADDR = to_byte (codeLength s) ->
  (forall k : nat, Z.of_nat k < codeLength s ->
     ee (EEPROM_CODE_ADDR + Z.of_nat k) = to_byte (default 0 (correctCode s !! k))) ->
  persistedRecord ee = EEPROM_MAGIC_VALUE :: codeLength s :: combination s.
Proof.
  intros [Hcl Hel Hlen Hidx Hbytes Huid Hlp Hcp] Hm Hl Hv.
  unfold MAX_CARDS in *.
  assert (Hlb : to_byte (ee EEPROM_LENGTH_ADDR) = codeLength s).
  { rewrite Hl. rewrite !to_byte_small; [reflexivity|lia|].
    rewrite to_byte_small; lia. }
  unfold persistedRecord, combination. rewrite Hm, Hlb.
  f_equal. f_equal. apply list_eq. intros k.
  rewrite list_lookup_fmap.
  destruct (Z.ltb_spec (Z.of_nat k) (codeLength s)) as [Hk|Hk].
  - rewrite lookup_seqZ_lt by lia. rewrite Z.add_0_l.
    rewrite lookup_take_lt by lia.
    change (Some (to_byte (ee (EEPROM_CODE_ADDR + Z.of_nat k))) = correctCode s !! k).
    rewrite (Hv k Hk).
    destruct (lookup_lt_is_Some_2 (correctCode s) k) as [v Hkv]; [lia|].
    rewrite Hkv. simpl.
    pose proof (proj1 (Forall_lookup _ _) Hbytes k v Hkv) as Hrange. simpl in Hrange.
    rewrite !to_byte_small; [reflexivity|lia|]. rewrite to_byte_small; lia.
  - rewrite lookup_seqZ_ge by lia. rewrite lookup_take_ge by lia. reflexivity.
Qed.

Lemma puzzleLoop_Inv r s :
  InvTop s -> currentMode s = PUZZLE ->
  exists s' t,
    puzzleLoop r s = Some (tt, s', t) /\
    InvTop s' /\
    currentMode s' = PUZZLE /\
    codeLength s' = codeLength s /\
    eeprom s' = eeprom s /\
    Forall (store_in 0 (codeLength s)) t /\
    count is_EEPROM_write t = O.
Proof.
  intros HT Hmode.
  destruct (handleReader_Inv r s HT) as (s1 & t1 & Hrun & HI & Hm & Hl & He & _ & Hst & Hw).
  destruct (puzzleLoop_run r s s1 t1 HI Hrun) as [Hlt Hge].
  destruct (Z_lt_le_dec (currentIndex s1) (codeLength s1)) as [Hc|Hc].
  - exists s1, t1. rewrite (Hlt Hc). split; [reflexivity|].
    split; [split; [exact HI|exact Hc]|]. repeat apply conj; auto. congruence.
  - destruct (Hge Hc) as (b & _ & Hp). rewrite Hp. eexists _, _. split; [reflexivity|].
    destruct HI as [Hcl Hel Hlen Hidx Hbytes Huid Hlp Hcp].
    split; [split; [constructor|]|]; simpl; auto; try lia.
    + intros k _. apply Hcp. intros Hs. congruence.
    + repeat apply conj; auto; [congruence| |].
      * apply Forall_app. split; [exact Hst|].
        destruct b; unfold relay_pulse; repeat constructor.
      * rewrite count_app, Hw. destruct b; reflexivity.
Qed.

Lemma setComboLoop_Inv r s :
  InvTop s ->
  exists s' t,
    setComboLoop r s = Some (tt, s', t) /\
    InvTop s' /\
    codeLength s' = codeLength s /\
    Forall (store_in 0 (codeLength s)) t /\
    ((currentMode s' = currentMode s /\ eeprom s' = eeprom s /\
      count is_EEPROM_write t = O) \/
     (currentMode s' = PUZZLE /\
      persistedRecord (eeprom s') =
        EEPROM_MAGIC_VALUE :: codeLength s' :: combination s')).
Proof.
  intros HT.
  destruct (handleReader_Inv r s HT) as (s1 & t1 & Hrun & HI & Hm & Hl & He & _ & Hst & Hw).
  destruct (setComboLoop_run r s s1 t1 HI Hrun) as [Hlt Hge].
  destruct (Z_lt_le_dec (currentIndex s1) (codeLength s1)) as [Hc|Hc].
  - exists s1, t1. rewrite (Hlt Hc). split; [reflexivity|].
    split; [split; [exact HI|exact Hc]|]. repeat apply conj; auto.
  - destruct (Hge Hc) as (ee & tw & Hsave & Hp). rewrite Hp.
    eexists _, _. split; [reflexivity|].
    pose proof HI as [Hcl Hel Hlen Hidx Hbytes Huid Hlp Hcp].
    destruct (saveComboToEEPROM_run s1 Hcl) as (ee' & tw' & Hsave' & Hee0 & Hee1 & Heev & Htw);
      [unfold MAX_CARDS in *; lia|].
    rewrite Hsave in Hsave'. injection Hsave' as Hse <-.
    assert (ee' = ee) as -> by congruence.
    destruct (save_persists s1 ee HI ltac:(lia) Hee0 Hee1 Heev) as (_ & Hpl & Hpc).
    destruct (writes_count tw Htw) as (_ & _ & Hws).
    split; [split; [constructor|]|]; simpl; auto; try lia.
    split; [exact Hl|]. split.
    + apply Forall_app. split; [exact Hst|].
      apply Forall_app. split; [|repeat constructor].
      eapply Forall_impl; [exact Hws|].
      intros [] Hx; simpl in *; auto. unfold MAX_CARDS in *. lia.
    + right. split; [reflexivity|].
      apply (save_record s1 ee HI Hee0 Hee1 Heev).
Qed.

Lemma programmingLoop_Inv low r s :
  InvTop s -> currentMode s = PROGRAM ->
  exists s' t,
    programmingLoop low r s = Some (tt, s', t) /\
    InvTop s' /\
    currentMode s' = PROGRAM /\
    codeLength s' = codeLength s /\
    eeprom s' = eeprom s /\
    Forall (store_in 0 (codeLength s)) t /\
    count is_EEPROM_write t = O.
Proof.
  intros HT Hmode. unfold programmingLoop. munfold.
  assert (Hpre : forall s0, s0 = s \/ s0 = set_buttonWasPressed false s \/
                   s0 = set_selectedValue
                          (if 9 <? selectedValue s + 1 then 0 else selectedValue s + 1)
                          (set_buttonWasPressed true s) ->
                 InvTop s0 /\ currentMode s0 = PROGRAM /\
                 codeLength s0 = codeLength s /\ eeprom s0 = eeprom s).
  { destruct HT as [[Hcl Hel Hlen Hidx Hbytes Huid Hlp Hcp] Hlt].
    intros s0 [ -> | [ -> | -> ] ];
      (split; [split; [constructor|]|]); simpl; auto. }
  destruct low; [destruct (buttonWasPressed s)|]; cbv beta iota delta [negb].
  all: match goal with
       | |- context [handleReader ?r0 ?s0] =>
           destruct (Hpre s0) as (HT0 & Hm0 & Hl0 & He0); [auto|];
           destruct (handleReader_Inv r0 s0 HT0)
             as (s1 & t1 & Hrun & HI & Hm & Hl & He & Hidx1 & Hst & Hw);
           rewrite Hrun
       end.
  all: eexists _, _; (split; [reflexivity|]).
  all: (split; [split; [exact HI|]|]);
       [rewrite (Hidx1 Hm0), Hl; apply HT0|].
  all: repeat apply conj; try congruence.
  all: simpl; try exact Hst; try exact Hw.
  all: repeat (constructor; [exact I|]); exact Hst.
Qed.

(** ** The invariant holds in every reachable state *)

Lemma loop_Inv i s :
  InvTop s ->
  exists s' t,
    loop i s = Some (tt, s', t) /\
    InvTop s' /\
    codeLength s' = codeLength s /\
    Forall (store_in 0 (codeLength s)) t /\
    ((eeprom s' = eeprom s /\ count is_EEPROM_write t = O) \/
     (currentMode s' = PUZZLE /\
      persistedRecord (eeprom s') =
        EEPROM_MAGIC_VALUE :: codeLength s' :: combination s')).
Proof.
  intros HT.
  destruct (checkButtonPress_Inv (in_button i) (in_millis i) s HT)
    as (s0 & t0 & Hrun0 & HT0 & Hl0 & He0 & _ & _ & _ & Hq).
  destruct (quiet_count t0 Hq) as (_ & Hw0 & _ & _).
  pose proof (quiet_store_in 0 (codeLength s) t0 Hq) as Hst0.
  unfold loop. munfold. rewrite Hrun0.
  destruct (currentMode s0) eqn:Hmode.
  - destruct (puzzleLoop_Inv (in_reader i) s0 HT0 Hmode)
      as (s1 & t1 & Hrun & HT1 & _ & Hl & He & Hst & Hw).
    rewrite Hrun. eexists _, _. split; [reflexivity|].
    split; [exact HT1|]. split; [congruence|]. simpl. split.
    + apply Forall_app. split; [exact Hst0|].
      apply Forall_app. split; [rewrite <- Hl0; exact Hst|repeat constructor].
    + left. split; [congruence|]. rewrite !count_app, Hw0, Hw. reflexivity.
  - destruct (programmingLoop_Inv (in_button2 i) (in_reader i) s0 HT0 Hmode)
      as (s1 & t1 & Hrun & HT1 & _ & Hl & He & Hst & Hw).
    rewrite Hrun. eexists _, _. split; [reflexivity|].
    split; [exact HT1|]. split; [congruence|]. simpl. split.
    + apply Forall_app. split; [exact Hst0|].
      apply Forall_app. split; [rewrite <- Hl0; exact Hst|repeat constructor].
    + left. split; [congruence|]. rewrite !count_app, Hw0, Hw. reflexivity.
  - destruct (setComboLoop_Inv (in_reader i) s0 HT0)
      as (s1 & t1 & Hrun & HT1 & Hl & Hst & Hor).
    rewrite Hrun. eexists _, _. split; [reflexivity|].
    split; [exact HT1|]. split; [congruence|]. simpl. split.
    + apply Forall_app. split; [exact Hst0|].
      apply Forall_app. split; [rewrite <- Hl0; exact Hst|repeat constructor].
    + destruct Hor as [(_ & He & Hw)|Hdone]; [left|right; exact Hdone].
      split; [congruence|]. rewrite !count_app, Hw0, Hw. reflexivity.
Qed.

Lemma booted_Inv ee : InvTop (booted ee).
Proof.
  destruct (booted_spec ee) as (He & Hm & Hi & Hen & Hp & Hu & Hlen & Hv & Hn).
  assert (Hcl : 1 <= codeLength (booted ee) <= MAX_CARDS).
  { destruct (record_valid_dec ee) as [Hva|Hiv].
    - destruct (Hv Hva) as [-> _]. apply Hva.
    - assert (Hnv : ~ record_valid ee).
      { unfold record_valid. pose proof (to_byte_range (ee EEPROM_LENGTH_ADDR)).
        unfold MAX_CARDS in *. intros [? ?]. destruct Hiv as [?|[?|?]]; [auto|lia|lia]. }
      destruct (Hn Hnv) as [-> _]. unfold MAX_CARDS. lia. }
  split; [constructor|]; rewrite ?He, ?Hi, ?Hen; auto; try lia.
  apply Forall_lookup. intros k v Hk.
  destruct (record_valid_dec ee) as [Hva|Hiv].
  - destruct (Hv Hva) as [_ Hcc]. rewrite Hcc in Hk.
    destruct (Z.of_nat k <? to_byte (ee EEPROM_LENGTH_ADDR)).
    + injection Hk as <-. apply to_byte_range.
    + assert (Hd : Forall (fun v => 0 <= v < 256) (correctCode (initial ee)))
        by (repeat constructor; lia).
      exact (proj1 (Forall_lookup _ _) Hd k v Hk).
  - assert (Hnv : ~ record_valid ee).
    { unfold record_valid. pose proof (to_byte_range (ee EEPROM_LENGTH_ADDR)).
      unfold MAX_CARDS in *. intros [? ?]. destruct Hiv as [?|[?|?]]; [auto|lia|lia]. }
    destruct (Hn Hnv) as [_ Hcc]. rewrite Hcc in Hk.
    assert (Hd : Forall (fun v => 0 <= v < 256) (correctCode (initial ee)))
      by (repeat constructor; lia).
    exact (proj1 (Forall_lookup _ _) Hd k v Hk).
Qed.

Lemma reachable_Inv s : reachable s -> InvTop s.
Proof.
  induction 1 as [ee s t Hs|s i s' t _ IH Hl].
  - destruct (setup_run ee) as (t' & Hrun & _). rewrite Hrun in Hs.
    injection Hs as <- _. apply booted_Inv.
  - destruct (loop_Inv i s IH) as (s1 & t1 & Hrun & HT & _).
    rewrite Hrun in Hl. injection Hl as <- _. exact HT.
Qed.

(** ** Puzzle evaluation *)

(** C1: in Puzzle mode, when after the reader handler the accumulator index
    has reached [codeLength], [puzzleLoop] evaluates: it plays the success
    presentation and pulses the relay exactly when every position of the
    entered sequence equals the combination's, the failure presentation
    otherwise; in both cases the index is reset to 0 and nothing else
    changes, so the mode stays Puzzle.  Below [codeLength] nothing is
    evaluated. *)
Theorem C1_puzzle_evaluation (r : ReaderInput) (s : State) :
  InvTop s ->
  currentMode s = PUZZLE ->
  exists s1 t1,
    handleReader r s = Some (tt, s1, t1) /\
    (currentIndex s1 < codeLength s1 -> puzzleLoop r s = Some (tt, s1, t1)) /\
    (codeLength s1 <= currentIndex s1 ->
       exists t2,
         puzzleLoop r s = Some (tt, set_currentIndex 0 s1, t1 ++ t2) /\
         (entered_matches s1 ->
            t2 = E_animateSuccess :: relay_pulse ++ [E_clearStrip]) /\
         (~ entered_matches s1 -> t2 = [E_animateFailure; E_clearStrip]) /\
         currentIndex (set_currentIndex 0 s1) = 0 /\
         currentMode (set_currentIndex 0 s1) = PUZZLE).
Proof.
  intros HT Hmode.
  destruct (handleReader_Inv r s HT) as (s1 & t1 & Hrun & HI & Hm & _).
  destruct (puzzleLoop_run r s s1 t1 HI Hrun) as [Hlt Hge].
  exists s1, t1. split; [exact Hrun|]. split; [exact Hlt|].
  intros Hc. destruct (Hge Hc) as (b & Hb & Hp).
  exists ((if b then E_animateSuccess :: relay_pulse else [E_animateFailure]) ++ [E_clearStrip]).
  split; [exact Hp|]. split; [|split; [|split]].
  - intros He. apply Hb in He. subst b. reflexivity.
  - intros He. destruct b; [|reflexivity]. exfalso. apply He, Hb. reflexivity.
  - reflexivity.
  - simpl. congruence.
Qed.

(** ** What one call of the reader handler dispatches *)

Lemma compareUID_empty uid1 size1 uid2 :
  size1 <> 0 -> compareUID uid1 size1 uid2 0 = false.
Proof. intros H. unfold compareUID. zcases. reflexivity. Qed.

Lemma handleReader_events r s s' t :
  handleReader r s = Some (tt, s', t) ->
  (count is_dispatch t <= count is_poll t)%nat /\
  (count is_poll t <= 1)%nat /\
  (count is_poll t = O -> s' = s) /\
  (count is_poll t = 1%nat ->
     20 <= u32 (u32 (rd_millis r) - lastCardCheckTime s) /\
     lastCardCheckTime s' = u32 (rd_millis r)) /\
  (count is_dispatch t = 1%nat ->
     exists u, rd_card r = Some u /\
       cardCurrentlyPresent s = false /\ cardCurrentlyPresent s' = true /\
       compareUID (uidByte u) (size u) (lastUID s) (lastUIDSize s) = false) /\
  (is_Some (rd_card r) -> cardCurrentlyPresent s = true ->
     cardCurrentlyPresent s' = true /\ count is_dispatch t = O) /\
  (forall u, rd_card r = Some u -> cardCurrentlyPresent s = false ->
     compareUID (uidByte u) (size u) (lastUID s) (lastUIDSize s) = false ->
     count is_poll t = 1%nat ->
     count is_dispatch t = 1%nat /\ cardCurrentlyPresent s' = true) /\
  (rd_card r = None -> count is_poll t = 1%nat ->
     cardCurrentlyPresent s' = false /\
     (cardCurrentlyPresent s = true -> lastUIDSize s' = 0) /\
     (cardCurrentlyPresent s = false -> lastUIDSize s' = lastUIDSize s)) /\
  (polled r s -> count is_poll t = 1%nat).
Proof.
  revert s' t. intros s' t. hr_split s r; simpl.
  all: unfold store_enteredValues, store_correctCode.
  all: repeat match goal with
       | |- context [arr_set ?a ?i ?v] => destruct (arr_set a i v)
       end; simpl.
  all: try discriminate.
  all: intros [= <- <-]; simpl.
  all: repeat apply conj; try lia; try discriminate; try reflexivity; auto.
  all: try (intros; discriminate).
  all: try (intros; split; [reflexivity|lia]).
  all: try (intros _; split; [|reflexivity]; destruct (Z.ltb_spec
              (u32 (u32 (rd_millis r) - lastCardCheckTime s)) 20); [discriminate|lia]).
  all: try (intros _; exists uid; repeat split; assumption).
  all: try (intros [? ?]; discriminate).
  all: try (intros; split; discriminate).
  all: try (intros u [= <-]; congruence).
  all: try (unfold polled; intros Hp;
            destruct (Z.ltb_spec (u32 (u32 (rd_millis r) - lastCardCheckTime s)) 20);
            [lia|discriminate]).
  intros _ _. repeat split; [assumption|discriminate].
Qed.

Lemma programmingLoop_run low r s :
  exists sp t0,
    programmingLoop low r s =
      match handleReader r sp with
      | Some (_, s1, t1) => Some (tt, s1, t0 ++ t1)
      | None => None
      end /\
    Forall quiet t0 /\
    (InvTop s -> InvTop sp) /\
    cardCurrentlyPresent sp = cardCurrentlyPresent s /\
    lastUIDSize sp = lastUIDSize s /\
    lastCardCheckTime sp = lastCardCheckTime s /\
    currentMode sp = currentMode s.
Proof.
  unfold programmingLoop. munfold.
  destruct low; [destruct (buttonWasPressed s)|]; cbv beta iota delta [negb].
  1: exists s, [].
  2: exists (set_selectedValue
               (if 9 <? selectedValue s + 1 then 0 else selectedValue s + 1)
               (set_buttonWasPressed true s)),
            [E_showNumber (if 9 <? selectedValue s + 1 then 0 else selectedValue s + 1);
             E_tone BUZZER_PIN 1000 50; E_delay 200].
  3: exists (set_buttonWasPressed false s), [].
  all: split;
       [match goal with
        | |- context [handleReader ?r0 ?s0] => destruct (handleReader r0 s0) as [[[[] s1] t1]|]
        end; reflexivity|].
  all: split; [quiet_trace|].
  all: split; [|repeat split].
  all: intros [[Hcl Hel Hlen Hidx Hbytes Huid Hlp Hcp] Hlt];
       (split; [constructor|]); simpl; auto.
Qed.

(** One pass of [loop] polls the reader and dispatches a card only through
    its single call of [handleReader]; around that call the card tracking
    variables are not touched. *)
Lemma loop_reader i s :
  InvTop s ->
  exists sp s1 t1 s' t,
    InvTop sp /\
    cardCurrentlyPresent sp = cardCurrentlyPresent s /\
    lastUIDSize sp = lastUIDSize s /\
    lastCardCheckTime sp = lastCardCheckTime s /\
    handleReader (in_reader i) sp = Some (tt, s1, t1) /\
    loop i s = Some (tt, s', t) /\
    InvTop s' /\
    cardCurrentlyPresent s' = cardCurrentlyPresent s1 /\
    lastUIDSize s' = lastUIDSize s1 /\
    lastCardCheckTime s' = lastCardCheckTime s1 /\
    count is_dispatch t = count is_dispatch t1 /\
    count is_poll t = count is_poll t1.
Proof.
  intros HT.
  destruct (loop_Inv i s HT) as (s' & t & Hloop & HT' & _).
  destruct (checkButtonPress_Inv (in_button i) (in_millis i) s HT)
    as (s0 & t0 & Hrun0 & HT0 & _ & _ & Hp0 & Hu0 & Hc0 & Hq).
  destruct (quiet_count t0 Hq) as (_ & _ & Hqp & Hqd).
  revert Hloop. unfold loop. munfold. rewrite Hrun0.
  destruct (currentMode s0) eqn:Hmode.
  - destruct (handleReader_Inv (in_reader i) s0 HT0) as (s1 & t1 & Hrun & HI & _).
    destruct (puzzleLoop_run (in_reader i) s0 s1 t1 HI Hrun) as [Hlt Hge].
    destruct (Z_lt_le_dec (currentIndex s1) (codeLength s1)) as [Hc|Hc].
    + rewrite (Hlt Hc). intros [= <- <-].
      exists s0, s1, t1, s1. eexists.
      repeat apply conj; try reflexivity; auto; try apply HT0; try apply HT';
        try (simpl; rewrite !count_app, ?Hqp, ?Hqd; simpl; lia).
    + destruct (Hge Hc) as (b & _ & Hp). rewrite Hp. intros [= <- <-].
      exists s0, s1, t1. eexists _, _.
      repeat apply conj; try reflexivity; auto; try apply HT0; try apply HT';
        try (simpl; rewrite !count_app, ?Hqp, ?Hqd; destruct b; simpl; lia).
  - destruct (programmingLoop_run (in_button2 i) (in_reader i) s0)
      as (sp & tp & Hprog & Hqq & HTp & Hpp & Hup & Hcp & _).
    destruct (quiet_count tp Hqq) as (_ & _ & Hpq & Hdq).
    pose proof (HTp HT0) as HTsp.
    destruct (handleReader_Inv (in_reader i) sp HTsp) as (s1 & t1 & Hrun & HI & _).
    rewrite Hprog, Hrun. intros [= <- <-].
    exists sp, s1, t1. eexists _, _.
    repeat apply conj; try reflexivity; auto; try apply HTsp; try apply HT';
      try congruence;
      try (simpl; rewrite !count_app, ?Hqp, ?Hqd, ?Hpq, ?Hdq; simpl; lia).
  - destruct (handleReader_Inv (in_reader i) s0 HT0) as (s1 & t1 & Hrun & HI & _).
    destruct (setComboLoop_run (in_reader i) s0 s1 t1 HI Hrun) as [Hlt Hge].
    destruct (Z_lt_le_dec (currentIndex s1) (codeLength s1)) as [Hc|Hc].
    + rewrite (Hlt Hc). intros [= <- <-].
      exists s0, s1, t1, s1. eexists.
      repeat apply conj; try reflexivity; auto; try apply HT0; try apply HT';
        try (simpl; rewrite !count_app, ?Hqp, ?Hqd; simpl; lia).
    + destruct (Hge Hc) as (ee & tw & Hsave & Hp). rewrite Hp. intros [= <- <-].
      destruct HI as [Hcl Hel Hlen Hidx _ _ _ _].
      destruct (saveComboToEEPROM_run s1 Hcl) as (ee' & tw' & Hsave' & _ & _ & _ & Htw);
        [unfold MAX_CARDS in *; lia|].
      rewrite Hsave in Hsave'. injection Hsave' as _ <-.
      destruct (writes_count tw Htw) as (Hwd & Hwp & _).
      exists s0, s1, t1. eexists _, _.
      repeat apply conj; try reflexivity; auto; try apply HT0; try apply HT';
        try (simpl; rewrite !count_app, ?Hqp, ?Hqd, ?Hwd, ?Hwp; simpl; lia).
Qed.

(** ** Runs of the loop *)

Lemma run_cons i ins s :
  run (i :: ins) s =
    match loop i s with
    | Some (_, s1, t1) =>
        match run ins s1 with
        | Some (_, s2, t2) => Some (tt, s2, t1 ++ t2)
        | None => None
        end
    | None => None
    end.
Proof.
  simpl run. unfold mbind, M_bind.
  destruct (loop i s) as [[[[] s1] t1]|]; [|reflexivity].
  destruct (run ins s1) as [[[[] s2] t2]|]; reflexivity.
Qed.

Lemma run_Inv ins : forall s,
  InvTop s -> exists s' t, run ins s = Some (tt, s', t) /\ InvTop s'.
Proof.
  induction ins as [|i ins IH]; intros s HT.
  - exists s, []. split; [reflexivity|exact HT].
  - destruct (loop_Inv i s HT) as (s1 & t1 & Hl & HT1 & _).
    destruct (IH s1 HT1) as (s2 & t2 & Hr & HT2).
    rewrite run_cons, Hl, Hr. eauto.
Qed.

(** While the card stays on the reader nothing more is dispatched. *)
Lemma run_present ins : forall s,
  InvTop s -> cardCurrentlyPresent s = true -> card_stays ins ->
  exists s' t,
    run ins s = Some (tt, s', t) /\ InvTop s' /\
    cardCurrentlyPresent s' = true /\ count is_dispatch t = O.
Proof.
  induction ins as [|i ins IH]; intros s HT Hp Hall.
  - exists s, []. repeat split; auto; apply HT.
  - apply Forall_cons in Hall as [Hi Hall].
    destruct (loop_reader i s HT)
      as (sp & s1 & t1 & s' & t & HTp & Hpp & _ & _ & Hh & Hl & HT' & Hp' & _ & _ & Hd & _).
    destruct (handleReader_events _ _ _ _ Hh) as (_ & _ & _ & _ & _ & Hstay & _).
    destruct (Hstay Hi ltac:(congruence)) as [Hp1 Hd1].
    destruct (IH s' HT' ltac:(congruence) Hall) as (s2 & t2 & Hr & HT2 & Hp2 & Hd2).
    rewrite run_cons, Hl, Hr. eexists _, _. split; [reflexivity|].
    repeat split; try apply HT2; auto.
    rewrite count_app. lia.
Qed.

(** From the absent state, a run of passes that all see the same card
    dispatches it once, at the first pass that polls the reader. *)
Lemma run_placement u ins : forall s,
  InvTop s -> cardCurrentlyPresent s = false -> size u <> 0 ->
  Forall (fun i => rd_card (in_reader i) = Some u) ins ->
  exists s' t,
    run ins s = Some (tt, s', t) /\ InvTop s' /\
    count is_dispatch t = Nat.min 1 (count is_poll t).
Proof.
  induction ins as [|i ins IH]; intros s HT Hp Hsz Hall.
  - exists s, []. repeat split; auto; apply HT.
  - apply Forall_cons in Hall as [Hi Hall].
    destruct (loop_reader i s HT)
      as (sp & s1 & t1 & s' & t & HTp & Hpp & Hup & _ & Hh & Hl & HT' & Hp' & Hu' & _ & Hd & Hq).
    destruct (handleReader_events _ _ _ _ Hh) as (Hle & Hp1 & Hnone & _ & _ & _ & Hfire & _).
    assert (Hcmp : compareUID (uidByte u) (size u) (lastUID sp) (lastUIDSize sp) = false).
    { rewrite Hup. destruct HT as [[_ _ _ _ _ Huid _ _] _]. rewrite (Huid Hp).
      apply compareUID_empty. exact Hsz. }
    destruct (count is_poll t1) as [|[|n]] eqn:Hcnt; [| |lia].
    + pose proof (Hnone eq_refl) as ->.
      destruct (IH s' HT' ltac:(congruence) Hsz Hall) as (s2 & t2 & Hr & HT2 & Hd2).
      rewrite run_cons, Hl, Hr. eexists _, _. split; [reflexivity|].
      split; [exact HT2|]. rewrite !count_app, Hd, Hq, Hd2.
      assert (count is_dispatch t1 = O) by lia. lia.
    + destruct (Hfire u Hi ltac:(congruence) Hcmp eq_refl) as [Hd1 Hpr].
      assert (Hstay : card_stays ins).
      { eapply Forall_impl; [exact Hall|]. intros j Hj. simpl in Hj. rewrite Hj. eauto. }
      destruct (run_present ins s' HT' ltac:(congruence) Hstay) as (s2 & t2 & Hr & HT2 & _ & Hd2).
      rewrite run_cons, Hl, Hr. eexists _, _. split; [reflexivity|].
      split; [exact HT2|]. rewrite !count_app, Hd, Hq, Hd1, Hd2. lia.
Qed.

(** The same run, counted from the inputs: the card is dispatched exactly
    once as soon as the [millis()] of some pass is at least 20 ms after the
    last poll before the run, and not at all when no pass is. *)
Lemma run_placement_exact u ins : forall s,
  InvTop s -> cardCurrentlyPresent s = false -> size u <> 0 ->
  Forall (fun i => rd_card (in_reader i) = Some u) ins ->
  exists s' t,
    run ins s = Some (tt, s', t) /\
    (Exists (fun i => polled (in_reader i) s) ins ->
       count is_dispatch t = 1%nat /\ cardCurrentlyPresent s' = true) /\
    (Forall (fun i => ~ polled (in_reader i) s) ins ->
       count is_dispatch t = O /\ cardCurrentlyPresent s' = false).
Proof.
  induction ins as [|i ins IH]; intros s HT Hp Hsz Hall.
  - exists s, []. split; [reflexivity|]. split.
    + intros He. apply Exists_nil in He. contradiction.
    + intros _. split; [reflexivity|exact Hp].
  - apply Forall_cons in Hall as [Hi Hall].
    destruct (loop_reader i s HT)
      as (sp & s1 & t1 & s' & t & HTp & Hpp & Hup & Hcp & Hh & Hl & HT' & Hp' & Hu' & Hc'
          & Hd & Hq).
    destruct (handleReader_events _ _ _ _ Hh)
      as (Hle & Hp1 & Hnone & Hlast & _ & _ & Hfire & _ & Hpolled).
    assert (Hcmp : compareUID (uidByte u) (size u) (lastUID sp) (lastUIDSize sp) = false).
    { rewrite Hup. destruct HT as [[_ _ _ _ _ Huid _ _] _]. rewrite (Huid Hp).
      apply compareUID_empty. exact Hsz. }
    destruct (Z_le_dec 20 (u32 (u32 (rd_millis (in_reader i)) - lastCardCheckTime s)))
      as [Hyes|Hno].
    + assert (Hcnt : count is_poll t1 = 1%nat).
      { apply Hpolled. unfold polled. rewrite Hcp. exact Hyes. }
      destruct (Hfire u Hi ltac:(congruence) Hcmp Hcnt) as [Hd1 Hpr].
      assert (Hstay : card_stays ins).
      { eapply Forall_impl; [exact Hall|]. intros j Hj. simpl in Hj. rewrite Hj. eauto. }
      destruct (run_present ins s' HT' ltac:(congruence) Hstay)
        as (s2 & t2 & Hr & HT2 & Hp2 & Hd2).
      rewrite run_cons, Hl, Hr. eexists _, _. split; [reflexivity|]. split.
      * intros _. split; [|exact Hp2]. rewrite !count_app, Hd, Hd1, Hd2. reflexivity.
      * intros Hf. apply Forall_cons in Hf as [Hf _]. exfalso. apply Hf. exact Hyes.
    + assert (Hcnt : count is_poll t1 = O).
      { destruct (count is_poll t1) as [|[|n]] eqn:Hcnt; [reflexivity| |lia].
        destruct (Hlast eq_refl) as [Hge _]. rewrite Hcp in Hge. contradiction. }
      pose proof (Hnone Hcnt) as ->.
      assert (Hd1 : count is_dispatch t1 = O) by lia.
      assert (Hsame : lastCardCheckTime s' = lastCardCheckTime s) by congruence.
      destruct (IH s' HT' ltac:(congruence) Hsz Hall) as (s2 & t2 & Hr & Hex & Hfa).
      rewrite run_cons, Hl, Hr. eexists _, _. split; [reflexivity|]. split.
      * intros He. apply Exists_cons in He as [He|He]; [contradiction|].
        destruct Hex as [Hd2 Hp2].
        { eapply Exists_impl; [exact He|]. intros j Hj. unfold polled in *.
          rewrite Hsame. exact Hj. }
        split; [|exact Hp2]. rewrite !count_app, Hd, Hd1, Hd2. reflexivity.
      * intros Hf. apply Forall_cons in Hf as [_ Hf].
        destruct Hfa as [Hd2 Hp2].
        { eapply Forall_impl; [exact Hf|]. intros j Hj. unfold polled in *.
          rewrite Hsame. exact Hj. }
        split; [|exact Hp2]. rewrite !count_app, Hd, Hd1, Hd2. reflexivity.
Qed.

(** Once the registered card has been seen gone, the next placement is
    dispatched again. *)
Lemma run_replaced u j ins s :
  InvTop s -> cardCurrentlyPresent s = true ->
  lifts j -> polled (in_reader j) s -> size u <> 0 ->
  Forall (fun i => rd_card (in_reader i) = Some u) ins ->
  exists s' t,
    run (j :: ins) s = Some (tt, s', t) /\ InvTop s' /\
    count is_dispatch t = Nat.min 1 (count is_poll t - 1).
Proof.
  intros HT Hp Hj Hpoll Hsz Hall. unfold lifts in Hj.
  destruct (loop_reader j s HT)
    as (sp & s1 & t1 & s' & t & HTp & Hpp & _ & Hcp & Hh & Hl & HT' & Hp' & _ & _ & Hd & Hq).
  destruct (handleReader_events _ _ _ _ Hh)
    as (Hle & Hp1 & _ & _ & Hfire & _ & _ & Hgone & Hpolled).
  assert (Hcnt : count is_poll t1 = 1%nat).
  { apply Hpolled. unfold polled in *. rewrite Hcp. exact Hpoll. }
  destruct (Hgone Hj Hcnt) as (Hp1' & _).
  assert (Hd1 : count is_dispatch t1 = O).
  { destruct (count is_dispatch t1) as [|[|n]] eqn:E; [reflexivity| |lia].
    destruct (Hfire eq_refl) as (c & Hc & _). congruence. }
  destruct (run_placement u ins s' HT' ltac:(congruence) Hsz Hall)
    as (s2 & t2 & Hr & HT2 & Hd2).
  rewrite run_cons, Hl, Hr. eexists _, _. split; [reflexivity|].
  split; [exact HT2|]. rewrite !count_app, Hd, Hq, Hcnt, Hd1, Hd2.
  simpl. rewrite Nat.sub_0_r. reflexivity.
Qed.

(** ** Card identities *)

Lemma compareUID_loop_true n : forall i uid1 uid2,
  compareUID_loop n i uid1 uid2 = true <->
  forall k, i <= k < i + Z.of_nat n -> byte_at uid1 k = byte_at uid2 k.
Proof.
  induction n as [|n IH]; intros i uid1 uid2.
  - simpl. split; [intros _ k Hk; lia|reflexivity].
  - simpl compareUID_loop.
    destruct (Z.eqb_spec (byte_at uid1 i) (byte_at uid2 i)) as [He|Hne]; simpl.
    + rewrite IH. split; intros H k Hk.
      * destruct (Z.eq_dec k i) as [->|Hki]; [exact He|]. apply H. lia.
      * apply H. lia.
    + split; [discriminate|]. intros H. exfalso. apply Hne, H. lia.
Qed.

Lemma compareUID_true uid1 size1 uid2 size2 :
  compareUID uid1 size1 uid2 size2 = true <->
  size1 = size2 /\ forall k, 0 <= k < size1 -> byte_at uid1 k = byte_at uid2 k.
Proof.
  unfold compareUID. destruct (Z.eqb_spec size1 size2) as [He|Hne]; simpl.
  - rewrite compareUID_loop_true. split.
    + intros H. split; [exact He|]. intros k Hk. apply H. lia.
    + intros [_ H] k Hk. apply H. lia.
  - split; [discriminate|]. intros [He _]. contradiction.
Qed.

Lemma handleReader_absent r s :
  polled r s -> rd_card r = None -> cardCurrentlyPresent s = true ->
  handleReader r s =
    Some (tt, set_lastUIDSize 0
                (set_cardCurrentlyPresent false
                   (set_lastCardCheckTime (u32 (rd_millis r)) s)),
          [E_poll false]).
Proof.
  unfold polled. intros Hp Hc Hpr. unfold handleReader. munfold.
  rewrite Hc, Hpr. zcases. reflexivity.
Qed.

(** C8: starting with no card registered, a run of passes of the loop that
    all see the same card (a real identity, of non-zero size) dispatches it
    to the mode handler exactly once as soon as one pass comes at least
    20 ms after the last poll of the reader, so that the reader is polled,
    and the card is then registered; when no pass does, the reader is never
    polled and nothing is dispatched.  In terms of the polls made: exactly
    once if the reader is polled at all, and never twice.  One call of the
    reader handler dispatches at most one card, and only when a card is
    seen, none was registered before and [compareUID] tells its identity
    from the tracked one; on a poll that sees such a card it does dispatch
    it.  When a poll finds the reader empty after a card was registered,
    the registration and the tracked identity are cleared.  [compareUID]
    holds exactly for equal sizes and equal bytes. *)
Theorem C8_one_event_per_placement (u : Uid) (ins : list LoopInput) (s : State) :
  (InvTop s ->
   cardCurrentlyPresent s = false ->
   size u <> 0 ->
   Forall (fun i => rd_card (in_reader i) = Some u) ins ->
   exists s' t,
     run ins s = Some (tt, s', t) /\
     (Exists (fun i => polled (in_reader i) s) ins ->
        count is_dispatch t = 1%nat /\ cardCurrentlyPresent s' = true) /\
     (Forall (fun i => ~ polled (in_reader i) s) ins ->
        count is_dispatch t = O /\ cardCurrentlyPresent s' = false) /\
     count is_dispatch t = Nat.min 1 (count is_poll t)) /\
  (forall r s0 s' t,
     handleReader r s0 = Some (tt, s', t) ->
     (count is_dispatch t <= 1)%nat /\
     (count is_dispatch t = 1%nat ->
        exists c, rd_card r = Some c /\
          cardCurrentlyPresent s0 = false /\ cardCurrentlyPresent s' = true /\
          compareUID (uidByte c) (size c) (lastUID s0) (lastUIDSize s0) = false) /\
     (forall c, polled r s0 -> rd_card r = Some c ->
        cardCurrentlyPresent s0 = false ->
        compareUID (uidByte c) (size c) (lastUID s0) (lastUIDSize s0) = false ->
        count is_dispatch t = 1%nat /\ cardCurrentlyPresent s' = true)) /\
  (forall r s0,
     polled r s0 -> rd_card r = None -> cardCurrentlyPresent s0 = true ->
     handleReader r s0 =
       Some (tt, set_lastUIDSize 0
                   (set_cardCurrentlyPresent false
                      (set_lastCardCheckTime (u32 (rd_millis r)) s0)),
             [E_poll false])) /\
  (forall uid1 size1 uid2 size2,
     compareUID uid1 size1 uid2 size2 = true <->
     size1 = size2 /\
     forall k, 0 <= k < size1 -> byte_at uid1 k = byte_at uid2 k).
Proof.
  split; [|split; [|split]].
  - intros HT Hp Hsz Hall.
    destruct (run_placement u ins s HT Hp Hsz Hall) as (s' & t & Hr & _ & Hd).
    destruct (run_placement_exact u ins s HT Hp Hsz Hall) as (s2 & t2 & Hr2 & Hex & Hfa).
    rewrite Hr in Hr2. injection Hr2 as <- <-.
    exists s', t. auto.
  - intros r s0 s' t Hh.
    destruct (handleReader_events _ _ _ _ Hh)
      as (Hle & Hp1 & _ & _ & Hfire & _ & Hplace & _ & Hpolled).
    split; [lia|]. split; [exact Hfire|].
    intros c Hpo Hc Hpr Hcmp. exact (Hplace c Hc Hpr Hcmp (Hpolled Hpo)).
  - apply handleReader_absent.
  - apply compareUID_true.
Qed.

(** ** A failed read *)

Lemma handleReader_read_fails r s uid :
  polled r s -> rd_card r = Some uid -> cardCurrentlyPresent s = false ->
  compareUID (uidByte uid) (size uid) (lastUID s) (lastUIDSize s) = false ->
  currentMode s = PUZZLE ->
  fst (readCard (rd_attempts r)) = false ->
  handleReader r s =
    Some (tt, card_tracked r uid s,
          [E_poll true; E_readCard false 0xFF; E_tone BUZZER_PIN 200 100;
           E_animateWriteFailure;
           E_showProgressBar (currentIndex s) (codeLength s);
           E_PICC_HaltA; E_PCD_StopCrypto1]).
Proof.
  unfold polled. intros Hp Hc Hpr Hcmp Hm Hrd.
  destruct (readCard (rd_attempts r)) as [ok v] eqn:Hread. simpl in Hrd. subst ok.
  destruct (readCard_value _ _ _ Hread) as [_ Hv]. rewrite (Hv eq_refl) in Hread.
  unfold handleReader, card_tracked. munfold.
  rewrite Hc, Hpr, Hcmp, Hm, Hread. zcases; reflexivity.
Qed.

(** C9: in Puzzle mode, when the card just placed cannot be read,
    [puzzleLoop] plays the failure presentation and changes nothing but
    the card tracking variables: the accumulator index, the entered
    values, the combination, the mode and the EEPROM are as before.  As
    long as the card stays on the reader, no later pass calls the card
    transport again; once a poll has seen the reader empty, placing the
    card again is dispatched again. *)
Theorem C9_read_failure (r : ReaderInput) (s : State) (uid : Uid) :
  InvTop s ->
  currentMode s = PUZZLE ->
  polled r s ->
  rd_card r = Some uid ->
  size uid <> 0 ->
  cardCurrentlyPresent s = false ->
  fst (readCard (rd_attempts r)) = false ->
  puzzleLoop r s =
    Some (tt, card_tracked r uid s,
          [E_poll true; E_readCard false 0xFF; E_tone BUZZER_PIN 200 100;
           E_animateWriteFailure;
           E_showProgressBar (currentIndex s) (codeLength s);
           E_PICC_HaltA; E_PCD_StopCrypto1]) /\
  (currentIndex (card_tracked r uid s) = currentIndex s /\
   enteredValues (card_tracked r uid s) = enteredValues s /\
   correctCode (card_tracked r uid s) = correctCode s /\
   codeLength (card_tracked r uid s) = codeLength s /\
   currentMode (card_tracked r uid s) = PUZZLE /\
   selectedValue (card_tracked r uid s) = selectedValue s /\
   eeprom (card_tracked r uid s) = eeprom s) /\
  (forall ins, card_stays ins ->
     exists s' t,
       run ins (card_tracked r uid s) = Some (tt, s', t) /\
       count is_dispatch t = O) /\
  (forall j ins,
     lifts j -> polled (in_reader j) (card_tracked r uid s) ->
     Forall (fun i => rd_card (in_reader i) = Some uid) ins ->
     exists s' t,
       run (j :: ins) (card_tracked r uid s) = Some (tt, s', t) /\
       count is_dispatch t = Nat.min 1 (count is_poll t - 1)).
Proof.
  intros HT Hm Hp Hc Hsz Hpr Hrd.
  assert (Hcmp : compareUID (uidByte uid) (size uid) (lastUID s) (lastUIDSize s) = false).
  { destruct HT as [[_ _ _ _ _ Huid _ _] _]. rewrite (Huid Hpr).
    apply compareUID_empty. exact Hsz. }
  pose proof (handleReader_read_fails r s uid Hp Hc Hpr Hcmp Hm Hrd) as Hh.
  assert (Hfields :
    currentIndex (card_tracked r uid s) = currentIndex s /\
    enteredValues (card_tracked r uid s) = enteredValues s /\
    correctCode (card_tracked r uid s) = correctCode s /\
    codeLength (card_tracked r uid s) = codeLength s /\
    currentMode (card_tracked r uid s) = PUZZLE /\
    selectedValue (card_tracked r uid s) = selectedValue s /\
    eeprom (card_tracked r uid s) = eeprom s).
  { unfold card_tracked. destruct (size uid <=? 10); simpl; repeat split; auto. }
  destruct (handleReader_Inv r s HT) as (s1 & t1 & Hrun & HI & _).
  rewrite Hh in Hrun. injection Hrun as <- <-.
  destruct (puzzleLoop_run r s _ _ HI Hh) as [Hlt _].
  assert (Hidx : currentIndex (card_tracked r uid s) < codeLength (card_tracked r uid s)).
  { destruct Hfields as (-> & _ & _ & -> & _). apply HT. }
  assert (Hpres : cardCurrentlyPresent (card_tracked r uid s) = true).
  { unfold card_tracked. destruct (size uid <=? 10); reflexivity. }
  split; [exact (Hlt Hidx)|]. split; [exact Hfields|]. split.
  - intros ins Hstay.
    destruct (run_present ins (card_tracked r uid s) (conj HI Hidx) Hpres Hstay)
      as (s' & t & Hr & _ & _ & Hd).
    eauto.
  - intros j ins Hj Hpoll Hall.
    destruct (run_replaced uid j ins (card_tracked r uid s) (conj HI Hidx) Hpres
                Hj Hpoll Hsz Hall) as (s' & t & Hr & _ & Hd).
    eauto.
Qed.

(** ** Passes in SetCombo mode *)

Lemma checkButtonPress_SET_COMBO low now s :
  currentMode s = SET_COMBO ->
  exists w p,
    checkButtonPress low now s =
      Some (tt, set_wasPressed w (set_pressStartTime p s), []).
Proof.
  intros Hm. unfold checkButtonPress. munfold. rewrite Hm.
  destruct low, (wasPressed s) eqn:Hw; simpl.
  - exists true, (pressStartTime s). destruct s; simpl in *; subst; reflexivity.
  - exists true, (u32 now). reflexivity.
  - exists false, (pressStartTime s).
    repeat match goal with
           | |- context [if ?c then _ else _] => destruct c
           end; destruct s; reflexivity.
  - exists false, (pressStartTime s). destruct s; simpl in *; subst; reflexivity.
Qed.

Lemma loop_SET_COMBO i s :
  currentMode s = SET_COMBO ->
  exists w p,
    loop i s =
      match setComboLoop (in_reader i) (set_wasPressed w (set_pressStartTime p s)) with
      | Some (_, s', t) => Some (tt, s', t ++ [E_delay 10])
      | None => None
      end.
Proof.
  intros Hm.
  destruct (checkButtonPress_SET_COMBO (in_button i) (in_millis i) s Hm) as (w & p & Hb).
  exists w, p. unfold loop. munfold. rewrite Hb. simpl. rewrite Hm.
  destruct (setComboLoop _ _) as [[[[] s'] t]|]; reflexivity.
Qed.

Lemma handleReader_combo_read r s u v :
  polled r s -> rd_card r = Some u -> cardCurrentlyPresent s = false ->
  compareUID (uidByte u) (size u) (lastUID s) (lastUIDSize s) = false ->
  currentMode s = SET_COMBO ->
  readCard (rd_attempts r) = (true, v) ->
  0 <= currentIndex s < Z.of_nat (length (correctCode s)) ->
  handleReader r s =
    Some (tt, set_currentIndex (currentIndex s + 1)
                (set_correctCode (<[Z.to_nat (currentIndex s) := v]> (correctCode s))
                   (card_tracked r u s)),
          [E_poll true; E_readCard true v; E_store A_correctCode (currentIndex s) v;
           E_tone BUZZER_PIN 1500 100;
           E_animateProgress (currentIndex s + 1) (codeLength s);
           E_PICC_HaltA; E_PCD_StopCrypto1]).
Proof.
  unfold polled. intros Hp Hc Hpr Hcmp Hm Hread Hidx.
  unfold handleReader, card_tracked. munfold.
  rewrite Hc, Hpr, Hcmp, Hm, Hread. zcases; simpl.
  all: rewrite store_correctCode_run by (simpl; lia); reflexivity.
Qed.

(** A pass in SetCombo mode that sees a newly placed card and reads it. *)
Lemma combo_place i s v :
  InvTop s -> currentMode s = SET_COMBO -> cardCurrentlyPresent s = false ->
  polled (in_reader i) s -> places i v ->
  exists s' t,
    loop i s = Some (tt, s', t) /\ InvTop s' /\
    codeLength s' = codeLength s /\
    correctCode s' = <[Z.to_nat (currentIndex s) := v]> (correctCode s) /\
    lastCardCheckTime s' = u32 (rd_millis (in_reader i)) /\
    (currentIndex s + 1 < codeLength s ->
       currentMode s' = SET_COMBO /\ currentIndex s' = currentIndex s + 1 /\
       cardCurrentlyPresent s' = true) /\
    (currentIndex s + 1 = codeLength s ->
       currentMode s' = PUZZLE /\ currentIndex s' = 0 /\
       persistedRecord (eeprom s') =
         EEPROM_MAGIC_VALUE :: codeLength s' :: combination s').
Proof.
  intros HT Hm Hpr Hp (u & Hc & Hsz & Hread).
  destruct (loop_Inv i s HT) as (s' & t & Hloop & HT' & Hl' & _).
  exists s', t. split; [exact Hloop|]. split; [exact HT'|]. split; [exact Hl'|].
  destruct (loop_SET_COMBO i s Hm) as (w & p & Hl). rewrite Hl in Hloop. clear Hl.
  set (s0 := set_wasPressed w (set_pressStartTime p s)) in *.
  assert (HT0 : InvTop s0).
  { destruct HT as [[Hcl Hel Hlen Hidx Hbytes Huid Hlp Hcp] Hlt].
    split; [constructor|]; simpl; auto. }
  assert (Hcmp : compareUID (uidByte u) (size u) (lastUID s0) (lastUIDSize s0) = false).
  { simpl. destruct HT as [[_ _ _ _ _ Huid _ _] _]. rewrite (Huid Hpr).
    apply compareUID_empty. exact Hsz. }
  assert (Hidx0 : 0 <= currentIndex s0 < Z.of_nat (length (correctCode s0))).
  { simpl. destruct HT as [[Hcl _ Hlen Hidx _ _ _ _] Hlt].
    unfold MAX_CARDS in *. rewrite Hcl. lia. }
  pose proof (handleReader_combo_read (in_reader i) s0 u v Hp Hc Hpr Hcmp Hm Hread Hidx0) as Hh.
  destruct (handleReader_Inv (in_reader i) s0 HT0) as (s1 & t1 & Hrun & HI & _).
  rewrite Hh in Hrun. injection Hrun as <- <-.
  destruct (setComboLoop_run (in_reader i) s0 _ _ HI Hh) as [Hlt Hge].
  assert (Hcl1 : codeLength (card_tracked (in_reader i) u s0) = codeLength s)
    by (unfold card_tracked; destruct (size u <=? 10); reflexivity).
  assert (Hlc1 : lastCardCheckTime (card_tracked (in_reader i) u s0)
                 = u32 (rd_millis (in_reader i)))
    by (unfold card_tracked; destruct (size u <=? 10); reflexivity).
  assert (Hcc1 : correctCode (card_tracked (in_reader i) u s0) = correctCode s)
    by (unfold card_tracked; destruct (size u <=? 10); reflexivity).
  assert (Hm1 : currentMode (card_tracked (in_reader i) u s0) = SET_COMBO)
    by (unfold card_tracked; destruct (size u <=? 10); simpl; exact Hm).
  assert (Hp1 : cardCurrentlyPresent (card_tracked (in_reader i) u s0) = true)
    by (unfold card_tracked; destruct (size u <=? 10); reflexivity).
  destruct (Z_lt_le_dec (currentIndex s + 1) (codeLength s)) as [Hc1|Hc1].
  - rewrite Hlt in Hloop by (simpl; rewrite Hcl1; exact Hc1).
    injection Hloop as <- <-. simpl.
    repeat apply conj; auto; try lia.
  - destruct Hge as (ee & tw & Hsave & Hp2); [simpl; rewrite Hcl1; exact Hc1|].
    rewrite Hp2 in Hloop. injection Hloop as <- <-. simpl.
    repeat apply conj; auto; try lia.
    intros _.
    pose proof HI as [Hcl _ Hlen _ _ _ _ _].
    destruct (saveComboToEEPROM_run _ Hcl) as (ee' & tw' & Hsave' & Hee0 & Hee1 & Heev & _);
      [unfold MAX_CARDS in *; lia|].
    rewrite Hsave in Hsave'. injection Hsave' as <- _.
    split; [reflexivity|]. split; [reflexivity|].
    exact (save_record _ ee HI Hee0 Hee1 Heev).
Qed.

(** A pass in SetCombo mode that sees the registered card gone. *)
Lemma combo_lift i s :
  InvTop s -> currentMode s = SET_COMBO -> cardCurrentlyPresent s = true ->
  polled (in_reader i) s -> lifts i ->
  exists s' t,
    loop i s = Some (tt, s', t) /\ InvTop s' /\
    codeLength s' = codeLength s /\
    correctCode s' = correctCode s /\
    lastCardCheckTime s' = u32 (rd_millis (in_reader i)) /\
    currentMode s' = SET_COMBO /\ currentIndex s' = currentIndex s /\
    cardCurrentlyPresent s' = false.
Proof.
  intros HT Hm Hpr Hp Hc. unfold lifts in Hc.
  destruct (loop_Inv i s HT) as (s' & t & Hloop & HT' & Hl' & _).
  exists s', t. split; [exact Hloop|]. split; [exact HT'|]. split; [exact Hl'|].
  destruct (loop_SET_COMBO i s Hm) as (w & p & Hl). rewrite Hl in Hloop. clear Hl.
  set (s0 := set_wasPressed w (set_pressStartTime p s)) in *.
  assert (HT0 : InvTop s0).
  { destruct HT as [[Hcl Hel Hlen Hidx Hbytes Huid Hlp Hcp] Hlt].
    split; [constructor|]; simpl; auto. }
  pose proof (handleReader_absent (in_reader i) s0 Hp Hc Hpr) as Hh.
  destruct (handleReader_Inv (in_reader i) s0 HT0) as (s1 & t1 & Hrun & HI & _).
  rewrite Hh in Hrun. injection Hrun as <- <-.
  destruct (setComboLoop_run (in_reader i) s0 _ _ HI Hh) as [Hlt _].
  rewrite Hlt in Hloop by (simpl; apply HT).
  injection Hloop as <- <-. simpl. repeat apply conj; auto.
Qed.

(** Entering the remaining cards of a new combination, one placement per
    card, completes SetCombo: the cards' values fill the combination from
    the accumulator index on, the record is saved, and the mode is Puzzle
    again. *)
Lemma entering_run vs : forall ins s,
  InvTop s -> currentMode s = SET_COMBO -> cardCurrentlyPresent s = false ->
  vs <> [] -> entering vs ins -> paced (lastCardCheckTime s) ins ->
  currentIndex s + Z.of_nat (length vs) = codeLength s ->
  exists s' t,
    run ins s = Some (tt, s', t) /\ InvTop s' /\
    currentMode s' = PUZZLE /\ currentIndex s' = 0 /\
    codeLength s' = codeLength s /\
    (forall k : nat,
       correctCode s' !! k =
         if Z.of_nat k <? currentIndex s then correctCode s !! k
         else if Z.of_nat k <? codeLength s
              then vs !! (k - Z.to_nat (currentIndex s))%nat
              else correctCode s !! k) /\
    persistedRecord (eeprom s') =
      EEPROM_MAGIC_VALUE :: codeLength s' :: combination s'.
Proof.
  induction vs as [|v vs IH]; intros ins s HT Hm Hpr Hne Hent Hpace Hlen; [contradiction|].
  destruct ins as [|i more]; [contradiction|].
  destruct Hent as [Hpl Hrest]. destruct Hpace as [Hpoll Hpace].
  destruct (combo_place i s v HT Hm Hpr Hpoll Hpl)
    as (s1 & t1 & Hl1 & HT1 & Hcl1 & Hcc1 & Hlc1 & Hmid & Hlast).
  pose proof HT as [[Hcl _ Hclen Hidx _ _ _ _] Hlt]. unfold MAX_CARDS in *.
  destruct vs as [|v' vs']; simpl in Hrest.
  - subst more. simpl in Hlen.
    destruct (Hlast ltac:(lia)) as (Hm1 & Hi1 & Hrec).
    exists s1, (t1 ++ []). rewrite run_cons, Hl1. simpl.
    repeat apply conj; auto; try apply HT1.
    intros k. rewrite Hcc1.
    destruct (Nat.eq_dec k (Z.to_nat (currentIndex s))) as [->|Hk].
    + rewrite list_lookup_insert_eq by lia. zcases.
      rewrite Nat.sub_diag. reflexivity.
    + rewrite list_lookup_insert_ne by lia. zcases; reflexivity.
  - destruct more as [|j more']; [contradiction|].
    destruct Hrest as [Hlift Hent']. destruct Hpace as [Hpoll2 Hpace'].
    simpl length in Hlen.
    destruct (Hmid ltac:(lia)) as (Hm1 & Hi1 & Hp1).
    assert (Hpolled2 : polled (in_reader j) s1) by (unfold polled; rewrite Hlc1; exact Hpoll2).
    destruct (combo_lift j s1 HT1 Hm1 Hp1 Hpolled2 Hlift)
      as (s2 & t2 & Hl2 & HT2 & Hcl2 & Hcc2 & Hlc2 & Hm2 & Hi2 & Hp2).
    destruct (IH more' s2 HT2 Hm2 Hp2 ltac:(discriminate) Hent')
      as (s3 & t3 & Hr3 & HT3 & Hm3 & Hi3 & Hcl3 & Hcc3 & Hrec3).
    { rewrite Hlc2. exact Hpace'. }
    { simpl length. lia. }
    exists s3, (t1 ++ t2 ++ t3). rewrite run_cons, Hl1, run_cons, Hl2, Hr3.
    split; [reflexivity|]. repeat apply conj; auto; try congruence; try apply HT3.
    intros k. rewrite Hcc3, Hcc2, Hcc1, Hi2, Hi1, Hcl2, Hcl1.
    destruct (Nat.eq_dec k (Z.to_nat (currentIndex s))) as [->|Hk].
    + rewrite list_lookup_insert_eq by lia. zcases.
      rewrite Nat.sub_diag. reflexivity.
    + rewrite list_lookup_insert_ne by lia. zcases; try reflexivity.
      replace (k - Z.to_nat (currentIndex s))%nat
        with (S (k - Z.to_nat (currentIndex s + 1)))%nat by lia.
      reflexivity.
Qed.

Lemma loop_codeLength i s s' t :
  InvTop s -> loop i s = Some (tt, s', t) -> codeLength s' = codeLength s.
Proof.
  intros HT Hl. destruct (loop_Inv i s HT) as (s1 & t1 & Hl1 & _ & Hc & _).
  rewrite Hl1 in Hl. injection Hl as <- _. exact Hc.
Qed.

(** C4: completing SetCombo replaces the values of the Combination and
    never its length.  From a state in SetCombo mode with an empty
    accumulator, presenting as many cards as the Combination is long
    leaves the Combination equal to the values read, the persisted record
    equal to magic byte, length, values, the accumulator index 0 and the
    mode Puzzle; with length 4 and cards reading 5,6,7,8 the record is
    0x42, 4, 5, 6, 7, 8.  No pass of the loop changes [codeLength]. *)
Theorem C4_setcombo_completion (s : State) (vs : list Z) (ins : list LoopInput) :
  InvTop s ->
  currentMode s = SET_COMBO ->
  currentIndex s = 0 ->
  cardCurrentlyPresent s = false ->
  Z.of_nat (length vs) = codeLength s ->
  entering vs ins ->
  paced (lastCardCheckTime s) ins ->
  (exists s' t,
     run ins s = Some (tt, s', t) /\
     codeLength s' = codeLength s /\
     combination s' = vs /\
     persistedRecord (eeprom s') = EEPROM_MAGIC_VALUE :: codeLength s :: vs /\
     currentIndex s' = 0 /\
     currentMode s' = PUZZLE /\
     (vs = [5; 6; 7; 8] ->
        persistedRecord (eeprom s') = [0x42; 4; 5; 6; 7; 8])) /\
  (forall i s0 s1 t1,
     InvTop s0 -> loop i s0 = Some (tt, s1, t1) -> codeLength s1 = codeLength s0).
Proof.
  intros HT Hm Hi Hpr Hlen Hent Hpace.
  split; [|intros i s0 s1 t1; apply loop_codeLength].
  pose proof HT as [[Hcl _ Hclen _ _ _ _ _] _]. unfold MAX_CARDS in *.
  assert (Hne : vs <> []) by (intros ->; simpl in Hlen; lia).
  destruct (entering_run vs ins s HT Hm Hpr Hne Hent Hpace ltac:(lia))
    as (s' & t & Hr & HT' & Hm' & Hi' & Hcl' & Hcc & Hrec).
  assert (Hcomb : combination s' = vs).
  { unfold combination. apply list_eq. intros k. rewrite Hcl'.
    destruct (Z.ltb_spec (Z.of_nat k) (codeLength s)) as [Hk|Hk].
    - rewrite lookup_take_lt by lia. rewrite Hcc, Hi. zcases.
      rewrite Nat.sub_0_r. reflexivity.
    - rewrite lookup_take_ge by lia. symmetry. apply lookup_ge_None. lia. }
  exists s', t. rewrite Hrec, Hcomb, Hcl'.
  repeat apply conj; auto.
  intros ->. simpl in Hlen. rewrite <- Hlen. reflexivity.
Qed.

(** ** Bounds of the accumulator index *)

Lemma run_reachable ins : forall s s' t,
  reachable s -> run ins s = Some (tt, s', t) -> reachable s'.
Proof.
  induction ins as [|i ins IH]; intros s s' t Hr Hrun.
  - injection Hrun as <- _. exact Hr.
  - rewrite run_cons in Hrun.
    destruct (loop i s) as [[[[] s1] t1]|] eqn:Hl; [|discriminate].
    destruct (run ins s1) as [[[[] s2] t2]|] eqn:Hr2; [|discriminate].
    injection Hrun as <- _.
    eapply IH; [|exact Hr2]. eapply reachable_loop; [exact Hr|exact Hl].
Qed.

Lemma booted_reachable ee : reachable (booted ee).
Proof.
  destruct (setup_run ee) as (t & Hs & _). eapply reachable_setup. exact Hs.
Qed.

(** C10: in every reachable state [codeLength] is between 1 and 10 and the
    accumulator index is at least 0 and below [codeLength]; from such a
    state one pass of the loop never leaves the arrays (it does not fault),
    every store it makes into [enteredValues] or [correctCode] is at an
    index from 0 up to but excluding [codeLength], and it ends in a
    reachable state.  Inside the pass, after the button handler the same
    bounds hold, and after the reader handler (alone or at the end of
    [programmingLoop]) the index is at most [codeLength].  The stores made
    by [setup] are below [codeLength] as well. *)
Theorem C10_index_bounds (s : State) (i : LoopInput) :
  reachable s ->
  (1 <= codeLength s <= MAX_CARDS /\
   0 <= currentIndex s < codeLength s /\
   Z.of_nat (length (correctCode s)) = MAX_CARDS /\
   Z.of_nat (length (enteredValues s)) = MAX_CARDS) /\
  (exists s' t,
     loop i s = Some (tt, s', t) /\ reachable s' /\
     Forall (store_in 0 (codeLength s)) t) /\
  (exists s0 t0,
     checkButtonPress (in_button i) (in_millis i) s = Some (tt, s0, t0) /\
     1 <= codeLength s0 <= MAX_CARDS /\
     0 <= currentIndex s0 < codeLength s0 /\
     (exists s1 t1,
        handleReader (in_reader i) s0 = Some (tt, s1, t1) /\
        0 <= currentIndex s1 <= codeLength s1 /\
        1 <= codeLength s1 <= MAX_CARDS /\
        Forall (store_in 0 (codeLength s0)) t1) /\
     (currentMode s0 = PROGRAM ->
      exists s1 t1,
        programmingLoop (in_button2 i) (in_reader i) s0 = Some (tt, s1, t1) /\
        0 <= currentIndex s1 < codeLength s1 /\
        1 <= codeLength s1 <= MAX_CARDS /\
        Forall (store_in 0 (codeLength s0)) t1)) /\
  (forall ee, exists t,
     setup (initial ee) = Some (tt, booted ee, t) /\
     Forall (store_in 0 (codeLength (booted ee))) t).
Proof.
  intros Hr. pose proof (reachable_Inv s Hr) as HT.
  split; [|split; [|split]].
  - destruct HT as [[Hcl Hel Hlen Hidx _ _ _ _] Hlt]. unfold MAX_CARDS in *.
    rewrite Hcl, Hel. repeat split; lia.
  - destruct (loop_Inv i s HT) as (s' & t & Hl & _ & _ & Hst & _).
    exists s', t. split; [exact Hl|]. split; [|exact Hst].
    eapply reachable_loop; [exact Hr|exact Hl].
  - destruct (checkButtonPress_Inv (in_button i) (in_millis i) s HT)
      as (s0 & t0 & Hb & HT0 & _).
    exists s0, t0. split; [exact Hb|].
    split; [apply HT0|]. split; [split; apply HT0|]. split.
    + destruct (handleReader_Inv (in_reader i) s0 HT0)
        as (s1 & t1 & Hh & HI & _ & _ & _ & _ & Hst & _).
      exists s1, t1. split; [exact Hh|]. split; [apply HI|]. split; [apply HI|exact Hst].
    + intros Hm.
      destruct (programmingLoop_Inv (in_button2 i) (in_reader i) s0 HT0 Hm)
        as (s1 & t1 & Hp & HT1 & _ & _ & _ & Hst & _).
      exists s1, t1. split; [exact Hp|].
      split; [split; apply HT1|]. split; [apply HT1|exact Hst].
  - intros ee. destruct (setup_run ee) as (t & Hs & Hst & _). eauto.
Qed.

(** ** The combination and its persisted record *)

(** C2, as the sketch implements it: the length of the Combination never changes after the
    startup load.  In every reachable state whose mode is not SetCombo the
    combination in memory is the one a restart would load from the EEPROM
    (the record's values if it is valid, the default otherwise); in
    SetCombo mode this holds for the length and for the positions from the
    accumulator index on, the positions below it already holding the cards
    read so far.  A pass of the loop either leaves the EEPROM untouched or
    completes SetCombo, ending in Puzzle mode with the record equal to
    magic byte, length and the combination in memory. *)
Theorem C2_combination_persisted (s : State) (i : LoopInput) :
  reachable s ->
  codeLength s = codeLength (booted (eeprom s)) /\
  (currentMode s <> SET_COMBO ->
     correctCode s = correctCode (booted (eeprom s))) /\
  (currentMode s = SET_COMBO ->
     forall k, currentIndex s <= k ->
       arr_get (correctCode s) k = arr_get (correctCode (booted (eeprom s))) k) /\
  (exists s' t,
     loop i s = Some (tt, s', t) /\
     codeLength s' = codeLength s /\
     ((eeprom s' = eeprom s /\ count is_EEPROM_write t = O) \/
      (currentMode s' = PUZZLE /\
       persistedRecord (eeprom s') =
         EEPROM_MAGIC_VALUE :: codeLength s' :: combination s'))).
Proof.
  intros Hr. pose proof (reachable_Inv s Hr) as HT.
  pose proof HT as [[Hcl Hel Hlen Hidx _ _ Hlp Hcp] Hlt].
  split; [exact Hlp|]. split; [|split].
  - intros Hm. apply list_eq. intros k. apply Hcp. intros Hs. contradiction.
  - intros Hm k Hk.
    replace k with (Z.of_nat (Z.to_nat k)) by lia.
    rewrite !arr_get_nat. apply Hcp. intros _. lia.
  - destruct (loop_Inv i s HT) as (s' & t & Hl & _ & Hc & _ & Hor).
    exists s', t. auto.
Qed.

(** ** Concrete runs *)

(** C2 does not hold as written: on a board whose record is 0x42, 4, 1, 2, 3, 4,
    after a long hold and one card reading 5 the state is reachable, the
    mode is SetCombo with one of four cards entered, no EEPROM write has
    been issued, and the Combination in memory is 5, 2, 3, 4 while the
    persisted record still holds 1, 2, 3, 4. *)
Lemma C2_counterexample :
  exists s t,
    run (long_hold ++ [pass false 5100 (Some card_A) (reads 5)]) (booted saved_1234)
      = Some (tt, s, t) /\
    reachable s /\
    currentMode s = SET_COMBO /\
    currentIndex s = 1 /\
    codeLength s = 4 /\
    count is_EEPROM_write t = O /\
    combination s = [5; 2; 3; 4] /\
    persistedRecord (eeprom s) = [0x42; 4; 1; 2; 3; 4] /\
    combination s <> combination (booted (eeprom s)).
Proof.
  eexists _, _. split; [vm_compute; reflexivity|].
  split.
  { eapply (run_reachable (long_hold ++ [pass false 5100 (Some card_A) (reads 5)])
              (booted saved_1234));
      [apply booted_reachable|]. vm_compute. reflexivity. }
  repeat split; try (vm_compute; reflexivity).
  vm_compute. discriminate.
Qed.

(** C1 on a fresh board where cards reading 1, 2, 3 have been entered and a
    fourth card, reading 4, is placed. *)
Lemma C1_witness :
  InvTop fresh_after_123 /\
  currentMode fresh_after_123 = PUZZLE /\
  exists s1 t1,
    handleReader poll_4 fresh_after_123 = Some (tt, s1, t1) /\
    (currentIndex s1 < codeLength s1 ->
       puzzleLoop poll_4 fresh_after_123 = Some (tt, s1, t1)) /\
    (codeLength s1 <= currentIndex s1 ->
       exists t2,
         puzzleLoop poll_4 fresh_after_123 = Some (tt, set_currentIndex 0 s1, t1 ++ t2) /\
         (entered_matches s1 ->
            t2 = E_animateSuccess :: relay_pulse ++ [E_clearStrip]) /\
         (~ entered_matches s1 -> t2 = [E_animateFailure; E_clearStrip]) /\
         currentIndex (set_currentIndex 0 s1) = 0 /\
         currentMode (set_currentIndex 0 s1) = PUZZLE).
Proof.
  split; [concrete_InvTop|]. split; [reflexivity|].
  apply (C1_puzzle_evaluation poll_4 fresh_after_123); [concrete_InvTop|reflexivity].
Defined.

(** C2 on a fresh board that a long hold has put into SetCombo mode. *)
Lemma C2_witness :
  reachable fresh_in_setcombo /\
  codeLength fresh_in_setcombo = codeLength (booted (eeprom fresh_in_setcombo)) /\
  (currentMode fresh_in_setcombo <> SET_COMBO ->
     correctCode fresh_in_setcombo = correctCode (booted (eeprom fresh_in_setcombo))) /\
  (currentMode fresh_in_setcombo = SET_COMBO ->
     forall k, currentIndex fresh_in_setcombo <= k ->
       arr_get (correctCode fresh_in_setcombo) k =
         arr_get (correctCode (booted (eeprom fresh_in_setcombo))) k) /\
  (exists s' t,
     loop (pass false 5100 (Some card_A) (reads 5)) fresh_in_setcombo = Some (tt, s', t) /\
     codeLength s' = codeLength fresh_in_setcombo /\
     ((eeprom s' = eeprom fresh_in_setcombo /\ count is_EEPROM_write t = O) \/
      (currentMode s' = PUZZLE /\
       persistedRecord (eeprom s') =
         EEPROM_MAGIC_VALUE :: codeLength s' :: combination s'))).
Proof.
  assert (Hr : reachable fresh_in_setcombo).
  { eapply (run_reachable long_hold (booted (eeprom_of [])));
      [apply booted_reachable|]. vm_compute. reflexivity. }
  split; [exact Hr|].
  apply (C2_combination_persisted fresh_in_setcombo
           (pass false 5100 (Some card_A) (reads 5)) Hr).
Defined.

(** C3 on a fresh board: a press latched at 100 ms and released at
    5000 ms is a long hold and leads from Puzzle to SetCombo. *)
Lemma C3_witness :
  wasPressed fresh_pressed = true /\
  currentMode fresh_pressed = PUZZLE /\
  exists s' t,
    checkButtonPress false 5000 fresh_pressed = Some (tt, s', t) /\
    currentMode s' = SET_COMBO.
Proof.
  split; [reflexivity|]. split; [reflexivity|].
  exact (proj2 (proj2 (proj1 (proj2 (C3_gesture_classification fresh_pressed 5000))
                         eq_refl)) eq_refl).
Defined.

(** C4 on a fresh board in SetCombo mode (length 4) with four cards
    reading 5, 6, 7, 8. *)
Lemma C4_witness :
  InvTop fresh_in_setcombo /\
  currentMode fresh_in_setcombo = SET_COMBO /\
  currentIndex fresh_in_setcombo = 0 /\
  cardCurrentlyPresent fresh_in_setcombo = false /\
  Z.of_nat (length [5; 6; 7; 8]) = codeLength fresh_in_setcombo /\
  entering [5; 6; 7; 8] cards_5678 /\
  paced (lastCardCheckTime fresh_in_setcombo) cards_5678 /\
  exists s' t,
    run cards_5678 fresh_in_setcombo = Some (tt, s', t) /\
    codeLength s' = codeLength fresh_in_setcombo /\
    combination s' = [5; 6; 7; 8] /\
    persistedRecord (eeprom s') =
      EEPROM_MAGIC_VALUE :: codeLength fresh_in_setcombo :: [5; 6; 7; 8] /\
    currentIndex s' = 0 /\
    currentMode s' = PUZZLE /\
    ([5; 6; 7; 8] = [5; 6; 7; 8] ->
       persistedRecord (eeprom s') = [0x42; 4; 5; 6; 7; 8]).
Proof.
  assert (He : entering [5; 6; 7; 8] cards_5678).
  { simpl. repeat split;
      try (exists card_A; split; [reflexivity|]; split; [discriminate|reflexivity]). }
  assert (Hp : paced (lastCardCheckTime fresh_in_setcombo) cards_5678).
  { simpl. repeat split; vm_compute; discriminate. }
  repeat (split; [first [concrete_InvTop | reflexivity | exact He | exact Hp]|]).
  apply (proj1 (C4_setcombo_completion fresh_in_setcombo [5; 6; 7; 8] cards_5678
                  ltac:(concrete_InvTop) eq_refl eq_refl eq_refl eq_refl He Hp)).
Defined.

(** C5 on an erased EEPROM: the record is invalid and the default stays. *)
Lemma C5_witness :
  ~ record_valid (eeprom_of []) /\
  loadComboFromEEPROM (initial (eeprom_of [])) = Some (tt, initial (eeprom_of []), []) /\
  codeLength (initial (eeprom_of [])) = 4 /\
  combination (initial (eeprom_of [])) = [1; 2; 3; 4].
Proof.
  assert (H : ~ record_valid (eeprom_of [])).
  { intros [Hm _]. vm_compute in Hm. discriminate. }
  split; [exact H|].
  exact (proj1 (proj2 (C5_load_validates (eeprom_of []))) H).
Defined.

(** C6 on a fresh board: a press latched at 100 ms and released at 500 ms. *)
Lemma C6_witness :
  wasPressed fresh_pressed = true /\
  100 <= pressDuration fresh_pressed 500 < 4000 /\
  (currentMode fresh_pressed = PUZZLE ->
     checkButtonPress false 500 fresh_pressed =
       Some (tt, set_wasPressed false
                   (set_selectedValue 0 (set_currentMode PROGRAM fresh_pressed)),
             [E_animateModeChange PROGRAM; E_beepModeChange; E_showNumber 0]
               ++ relay_pulse)) /\
  (currentMode fresh_pressed <> PUZZLE ->
     checkButtonPress false 500 fresh_pressed =
       Some (tt, set_wasPressed false fresh_pressed, [])) /\
  (forall s0, triggerRelay s0 = Some (tt, s0, relay_pulse)).
Proof.
  assert (Hd : 100 <= pressDuration fresh_pressed 500 < 4000).
  { split; vm_compute; [discriminate|reflexivity]. }
  split; [reflexivity|]. split; [exact Hd|].
  apply (C6_short_press fresh_pressed 500 eq_refl Hd).
Defined.

(** C7 on a fresh board: a press latched at 100 ms and released at
    5000 ms. *)
Lemma C7_witness :
  wasPressed fresh_pressed = true /\
  4000 <= pressDuration fresh_pressed 5000 /\
  (currentMode fresh_pressed <> SET_COMBO ->
     checkButtonPress false 5000 fresh_pressed =
       Some (tt, set_wasPressed false
                   (set_currentIndex 0 (set_currentMode SET_COMBO fresh_pressed)),
             [E_animateModeChange SET_COMBO; E_beepModeChange; E_clearStrip])) /\
  (currentMode fresh_pressed = SET_COMBO ->
     checkButtonPress false 5000 fresh_pressed =
       Some (tt, set_wasPressed false fresh_pressed, [])).
Proof.
  assert (Hd : 4000 <= pressDuration fresh_pressed 5000).
  { vm_compute. discriminate. }
  split; [reflexivity|]. split; [exact Hd|].
  apply (C7_long_hold fresh_pressed 5000 eq_refl Hd).
Defined.

(** C8 on a fresh board with card A resting on the reader for three
    passes, the first of them 100 ms after start: one dispatch. *)
Lemma C8_witness :
  InvTop (booted (eeprom_of [])) /\
  cardCurrentlyPresent (booted (eeprom_of [])) = false /\
  size card_A <> 0 /\
  Forall (fun i => rd_card (in_reader i) = Some card_A) card_rests /\
  Exists (fun i => polled (in_reader i) (booted (eeprom_of []))) card_rests /\
  exists s' t,
    run card_rests (booted (eeprom_of [])) = Some (tt, s', t) /\
    count is_dispatch t = 1%nat /\ cardCurrentlyPresent s' = true.
Proof.
  assert (Hs : size card_A <> 0) by discriminate.
  assert (Hf : Forall (fun i => rd_card (in_reader i) = Some card_A) card_rests)
    by (repeat constructor).
  assert (He : Exists (fun i => polled (in_reader i) (booted (eeprom_of []))) card_rests).
  { apply Exists_cons_hd. vm_compute. discriminate. }
  split; [concrete_InvTop|]. split; [reflexivity|]. split; [exact Hs|].
  split; [exact Hf|]. split; [exact He|].
  destruct (proj1 (C8_one_event_per_placement card_A card_rests (booted (eeprom_of [])))
              ltac:(concrete_InvTop) eq_refl Hs Hf) as (s' & t & Hr & Hex & _).
  exists s', t. split; [exact Hr|]. exact (Hex He).
Defined.

(** C9 on a fresh board with a card whose authentication times out. *)
Lemma C9_witness :
  InvTop (booted (eeprom_of [])) /\
  currentMode (booted (eeprom_of [])) = PUZZLE /\
  polled poll_unreadable (booted (eeprom_of [])) /\
  rd_card poll_unreadable = Some card_A /\
  size card_A <> 0 /\
  cardCurrentlyPresent (booted (eeprom_of [])) = false /\
  fst (readCard (rd_attempts poll_unreadable)) = false /\
  puzzleLoop poll_unreadable (booted (eeprom_of [])) =
    Some (tt, card_tracked poll_unreadable card_A (booted (eeprom_of [])),
          [E_poll true; E_readCard false 0xFF; E_tone BUZZER_PIN 200 100;
           E_animateWriteFailure;
           E_showProgressBar (currentIndex (booted (eeprom_of [])))
             (codeLength (booted (eeprom_of [])));
           E_PICC_HaltA; E_PCD_StopCrypto1]).
Proof.
  assert (Hs : size card_A <> 0) by discriminate.
  assert (Hp : polled poll_unreadable (booted (eeprom_of [])))
    by (vm_compute; discriminate).
  split; [concrete_InvTop|]. split; [reflexivity|]. split; [exact Hp|].
  split; [reflexivity|]. split; [exact Hs|]. split; [reflexivity|].
  split; [reflexivity|].
  apply (proj1 (C9_read_failure poll_unreadable (booted (eeprom_of [])) card_A
                  ltac:(concrete_InvTop) eq_refl Hp eq_refl Hs eq_refl eq_refl)).
Defined.

(** C10 on a fresh board where cards reading 1, 2, 3 have been entered. *)
Lemma C10_witness :
  reachable fresh_after_123 /\
  (1 <= codeLength fresh_after_123 <= MAX_CARDS /\
   0 <= currentIndex fresh_after_123 < codeLength fresh_after_123 /\
   Z.of_nat (length (correctCode fresh_after_123)) = MAX_CARDS /\
   Z.of_nat (length (enteredValues fresh_after_123)) = MAX_CARDS) /\
  (exists s' t,
     loop (pass false 700 (Some card_A) (reads 4)) fresh_after_123 = Some (tt, s', t) /\
     reachable s' /\
     Forall (store_in 0 (codeLength fresh_after_123)) t).
Proof.
  assert (Hr : reachable fresh_after_123).
  { eapply (run_reachable
              [pass false 100 (Some card_A) (reads 1); pass false 200 None (reads 0);
               pass false 300 (Some card_A) (reads 2); pass false 400 None (reads 0);
               pass false 500 (Some card_A) (reads 3); pass false 600 None (reads 0)]
              (booted (eeprom_of [])));
      [apply booted_reachable|]. vm_compute. reflexivity. }
  split; [exact Hr|].
  pose proof (C10_index_bounds fresh_after_123 (pass false 700 (Some card_A) (reads 4)) Hr)
    as (H1 & H2 & _).
  split; [exact H1|exact H2].
Defined.

(** * Further properties of the sketch *)

(** ** The LED strip *)

Lemma leds_paint_spec n : forall i colour (leds : list CRGB),
  0 <= i -> i + Z.of_nat n <= Z.of_nat (length leds) ->
  exists leds',
    leds_paint n i colour leds = Some leds' /\
    length leds' = length leds /\
    forall k : nat,
      leds' !! k = if (i <=? Z.of_nat k) && (Z.of_nat k <? i + Z.of_nat n)
                   then Some (colour (Z.of_nat k))
                   else leds !! k.
Proof.
  induction n as [|n IH]; intros i colour leds Hi Hb.
  - exists leds. split; [reflexivity|]. split; [reflexivity|].
    intros k. zcases; reflexivity.
  - simpl leds_paint. unfold leds_set.
    destruct (Z.leb_spec 0 i); [|lia].
    destruct (Z.ltb_spec i (Z.of_nat (length leds))); [|lia]. simpl.
    destruct (IH (i + 1) colour (<[Z.to_nat i := colour i]> leds)) as (l' & Hp & Hl & Hk);
      [lia|rewrite length_insert; lia|].
    exists l'. split; [exact Hp|]. split; [rewrite Hl; apply length_insert|].
    intros k. rewrite Hk.
    destruct (Z.eq_dec i (Z.of_nat k)) as [->|Hne].
    + zcases. simpl. rewrite Nat2Z.id.
      rewrite list_lookup_insert_eq by lia. reflexivity.
    + rewrite list_lookup_insert_ne by lia. zcases; reflexivity.
Qed.

Lemma clearStrip_spec (leds : list CRGB) :
  Z.of_nat (length leds) = NUM_LEDS ->
  exists leds',
    clearStrip leds = Some leds' /\ length leds' = length leds /\
    forall k : nat, Z.of_nat k < NUM_LEDS -> leds' !! k = Some CRGB_Black.
Proof.
  intros Hl. unfold clearStrip, fill_solid.
  destruct (leds_paint_spec (Z.to_nat NUM_LEDS) 0 (fun _ => CRGB_Black) leds)
    as (l' & Hp & Hlen & Hk); [lia|unfold NUM_LEDS in *; lia|].
  exists l'. split; [exact Hp|]. split; [exact Hlen|].
  intros k Hlt. rewrite Hk. unfold NUM_LEDS in *. zcases. reflexivity.
Qed.

Lemma showNumber_spec (number : Z) (leds : list CRGB) :
  Z.of_nat (length leds) = NUM_LEDS ->
  exists leds',
    showNumber number leds = Some leds' /\
    Z.of_nat (length leds') = NUM_LEDS /\
    forall k : nat, Z.of_nat k < NUM_LEDS ->
      leds' !! k =
        Some (if Z.of_nat k <? Z.max 0 (Z.min 9 number)
              then CHSV (160 - 10 * Z.of_nat k) 255 255
              else CRGB_Black).
Proof.
  intros Hl. destruct (clearStrip_spec leds Hl) as (l0 & Hc & Hl0 & Hk0).
  unfold showNumber. rewrite Hc. simpl.
  set (n := if 9 <? (if number <? 0 then 0 else number) then 9
            else (if number <? 0 then 0 else number)).
  assert (Hn : n = Z.max 0 (Z.min 9 number))
    by (subst n; destruct (Z.ltb_spec number 0); zcases; lia).
  destruct (leds_paint_spec (Z.to_nat n) 0
              (fun i => CHSV (to_byte (160 - i * 10)) 255 255) l0)
    as (l' & Hp & Hlen & Hk); [lia|unfold NUM_LEDS in *; lia|].
  exists l'. split; [exact Hp|]. split; [congruence|].
  intros k Hlt. rewrite Hk, <- Hn. unfold NUM_LEDS in *.
  destruct (Z.ltb_spec (Z.of_nat k) n).
  - zcases. simpl. rewrite to_byte_small by lia. do 2 f_equal. lia.
  - zcases; simpl; apply Hk0; unfold NUM_LEDS; lia.
Qed.

Lemma showProgressBar_spec (current total : Z) (leds : list CRGB) :
  Z.of_nat (length leds) = NUM_LEDS ->
  INT_MIN <= 2 * current <= INT_MAX ->
  exists leds',
    showProgressBar current total leds = Some leds' /\
    Z.of_nat (length leds') = NUM_LEDS /\
    (forall k : nat, Z.of_nat k < NUM_LEDS ->
       leds' !! k =
         Some (if Z.of_nat k <? Z.min NUM_LEDS (2 * current)
               then CRGB_Green else CRGB_Black)) /\
    (5 <= current ->
       forall k : nat, Z.of_nat k < NUM_LEDS -> leds' !! k = Some CRGB_Green).
Proof.
  intros Hl Hint. destruct (clearStrip_spec leds Hl) as (l0 & Hc & Hl0 & Hk0).
  unfold showProgressBar. rewrite Hc. simpl.
  assert (Hfit : fits_int (current * 2) = true).
  { unfold fits_int. apply andb_true_iff. split; [apply Z.leb_le|apply Z.leb_le]; lia. }
  rewrite Hfit. cbv beta iota delta [negb].
  set (n := if NUM_LEDS <? current * 2 then NUM_LEDS else current * 2).
  assert (Hn : n = Z.min NUM_LEDS (2 * current)) by (subst n; zcases; lia).
  destruct (leds_paint_spec (Z.to_nat n) 0 (fun _ => CRGB_Green) l0)
    as (l' & Hp & Hlen & Hk); [lia|unfold NUM_LEDS in *; lia|].
  exists l'. split; [exact Hp|]. split; [congruence|].
  assert (Hall : forall k : nat, Z.of_nat k < NUM_LEDS ->
            l' !! k = Some (if Z.of_nat k <? Z.min NUM_LEDS (2 * current)
                            then CRGB_Green else CRGB_Black)).
  { intros k Hlt. rewrite Hk, <- Hn.
    destruct (Z.ltb_spec (Z.of_nat k) n).
    - zcases. reflexivity.
    - zcases; simpl; apply Hk0; exact Hlt. }
  split; [exact Hall|].
  intros H5 k Hlt. rewrite (Hall k Hlt). unfold NUM_LEDS in *. zcases. reflexivity.
Qed.

Lemma map_range_card (current total : Z) :
  0 <= current <= total -> 0 < total ->
  map_range current 0 total 0 NUM_LEDS = Some (current * NUM_LEDS / total) /\
  0 <= current * NUM_LEDS / total <= NUM_LEDS /\
  (current * NUM_LEDS / total = NUM_LEDS <-> current = total).
Proof.
  intros Hc Ht. unfold map_range, NUM_LEDS.
  rewrite !Z.sub_0_r, Z.add_0_r.
  destruct (Z.eqb_spec total 0); [lia|].
  rewrite Z.quot_div_nonneg by lia.
  split; [reflexivity|].
  assert (Hq : 0 <= current * 9 / total) by (apply Z.div_pos; lia).
  assert (Hle : current * 9 / total <= 9).
  { apply Z.div_le_upper_bound; lia. }
  split; [lia|]. split.
  - intros He.
    assert (9 * total <= current * 9).
    { rewrite <- He at 1. rewrite Z.mul_comm. apply Z.mul_div_le. lia. }
    lia.
  - intros ->. rewrite Z.mul_comm. apply Z.div_mul. lia.
Qed.

Lemma animateProgress_spec (current total : Z) (leds : list CRGB) :
  Z.of_nat (length leds) = NUM_LEDS ->
  (0 <= current <= total -> 0 < total <= INT_MAX ->
   exists leds',
     animateProgress current total leds = Some leds' /\
     Z.of_nat (length leds') = NUM_LEDS /\
     (forall k : nat, Z.of_nat k < NUM_LEDS ->
        leds' !! k =
          Some (if Z.of_nat k <? current * NUM_LEDS / total then CRGB_Orange
                else if Z.of_nat k =? current * NUM_LEDS / total then CRGB_Yellow
                else CRGB_Black)) /\
     ((forall k : nat, Z.of_nat k < NUM_LEDS -> leds' !! k = Some CRGB_Orange)
        <-> current = total)) /\
  animateProgress current 0 leds = None.
Proof.
  intros Hl. destruct (clearStrip_spec leds Hl) as (l0 & Hc & Hl0 & Hk0).
  split.
  - intros Hcur Htot.
    destruct (map_range_card current total Hcur (proj1 Htot)) as (Hm & Hf & Hfull).
    set (fill := current * NUM_LEDS / total) in *.
    unfold animateProgress. rewrite Hc. simpl. rewrite Hm. simpl.
    destruct (leds_paint_spec (Z.to_nat fill) 0 (fun _ => CRGB_Orange) l0)
      as (l1 & Hp & Hl1 & Hk1); [lia|unfold NUM_LEDS in *; lia|].
    rewrite Hp. simpl.
    assert (Hcells : forall l' : list CRGB,
              (if fill <? NUM_LEDS then leds_set l1 fill CRGB_Yellow else Some l1) = Some l' ->
              forall k : nat, Z.of_nat k < NUM_LEDS ->
                l' !! k = Some (if Z.of_nat k <? fill then CRGB_Orange
                                else if Z.of_nat k =? fill then CRGB_Yellow
                                else CRGB_Black)).
    { intros l' Hset k Hlt.
      destruct (Z.ltb_spec fill NUM_LEDS) as [Hlt9|Hge9].
      - unfold leds_set in Hset.
        destruct (Z.leb_spec 0 fill); [|lia].
        destruct (Z.ltb_spec fill (Z.of_nat (length l1))); [|unfold NUM_LEDS in *; lia].
        simpl in Hset. injection Hset as <-.
        destruct (Z.eq_dec (Z.of_nat k) fill) as [He|Hne].
        + rewrite <- He, Nat2Z.id. rewrite list_lookup_insert_eq by (unfold NUM_LEDS in *; lia).
          zcases. reflexivity.
        + rewrite list_lookup_insert_ne by lia. rewrite Hk1.
          zcases; simpl; try reflexivity; apply Hk0; exact Hlt.
      - injection Hset as <-. rewrite Hk1. zcases. reflexivity. }
    destruct (if fill <? NUM_LEDS then leds_set l1 fill CRGB_Yellow else Some l1)
      as [l'|] eqn:Hset.
    + exists l'. split; [reflexivity|]. split.
      { destruct (fill <? NUM_LEDS); [|congruence].
        unfold leds_set in Hset.
        destruct ((0 <=? fill) && (fill <? Z.of_nat (length l1))); [|discriminate].
        injection Hset as <-. rewrite length_insert. congruence. }
      split; [exact (Hcells l' eq_refl)|].
      rewrite <- Hfull. split.
      * intros Hall. destruct (Z_lt_le_dec fill NUM_LEDS) as [Hlt9|]; [|lia].
        pose proof (Hall (Z.to_nat fill) ltac:(lia)) as Ho.
        rewrite (Hcells l' eq_refl) in Ho by lia.
        rewrite Z2Nat.id in Ho by lia. rewrite Z.ltb_irrefl, Z.eqb_refl in Ho.
        discriminate.
      * intros He k Hlt. rewrite (Hcells l' eq_refl k Hlt). zcases. reflexivity.
    + exfalso. destruct (Z.ltb_spec fill NUM_LEDS); [|discriminate].
      unfold leds_set in Hset.
      destruct (Z.leb_spec 0 fill); [|lia].
      destruct (Z.ltb_spec fill (Z.of_nat (length l1))); [discriminate|].
      unfold NUM_LEDS in *. lia.
  - unfold animateProgress. rewrite Hc. reflexivity.
Qed.

(** X1: on a strip of nine LEDs [showNumber] never leaves the array,
    whatever number it is given: it lights the first [n] LEDs, where [n] is
    the number clamped to 0..9, in a hue falling by 10 per LED from 160, and
    leaves the others dark. *)
Theorem X1_showNumber_lights (number : Z) (leds : list CRGB) :
  Z.of_nat (length leds) = NUM_LEDS ->
  exists leds',
    showNumber number leds = Some leds' /\
    Z.of_nat (length leds') = NUM_LEDS /\
    forall k : nat, Z.of_nat k < NUM_LEDS ->
      leds' !! k =
        Some (if Z.of_nat k <? Z.max 0 (Z.min 9 number)
              then CHSV (160 - 10 * Z.of_nat k) 255 255
              else CRGB_Black).
Proof. exact (showNumber_spec number leds). Qed.

(** X2: on a strip of nine LEDs, for a card count whose double fits an
    [int], [showProgressBar] never leaves the array: it lights two green
    LEDs per entered card, capped at nine, and ignores its [total]
    argument; from five cards on the bar is full, so the progress of a
    combination of more than five cards is no longer told apart. *)
Theorem X2_showProgressBar_lights (current total : Z) (leds : list CRGB) :
  Z.of_nat (length leds) = NUM_LEDS ->
  INT_MIN <= 2 * current <= INT_MAX ->
  exists leds',
    showProgressBar current total leds = Some leds' /\
    Z.of_nat (length leds') = NUM_LEDS /\
    (forall k : nat, Z.of_nat k < NUM_LEDS ->
       leds' !! k =
         Some (if Z.of_nat k <? Z.min NUM_LEDS (2 * current)
               then CRGB_Green else CRGB_Black)) /\
    (5 <= current ->
       forall k : nat, Z.of_nat k < NUM_LEDS -> leds' !! k = Some CRGB_Green).
Proof. exact (showProgressBar_spec current total leds). Qed.

(** X3: with 0 <= current <= total and total an [int] above 0,
    [animateProgress] never leaves the nine-LED array nor divides by zero: it fills
    current * 9 / total LEDs in orange and, unless the bar is full, marks the
    next LED in yellow; the bar is full exactly when current = total.  With
    total = 0 the scaling divides by zero. *)
Theorem X3_animateProgress_lights (current total : Z) (leds : list CRGB) :
  Z.of_nat (length leds) = NUM_LEDS ->
  (0 <= current <= total -> 0 < total <= INT_MAX ->
   exists leds',
     animateProgress current total leds = Some leds' /\
     Z.of_nat (length leds') = NUM_LEDS /\
     (forall k : nat, Z.of_nat k < NUM_LEDS ->
        leds' !! k =
          Some (if Z.of_nat k <? current * NUM_LEDS / total then CRGB_Orange
                else if Z.of_nat k =? current * NUM_LEDS / total then CRGB_Yellow
                else CRGB_Black)) /\
     ((forall k : nat, Z.of_nat k < NUM_LEDS -> leds' !! k = Some CRGB_Orange)
        <-> current = total)) /\
  animateProgress current 0 leds = None.
Proof. exact (animateProgress_spec current total leds). Qed.

(** ** The card transport *)

Lemma is_OK_eq c : is_OK c = true <-> c = STATUS_OK.
Proof. destruct c; simpl; split; congruence. Qed.

Lemma attempt_cases (a : Attempt) :
  attempt_ok a \/ attempt_retried a \/ (~ attempt_ok a /\ ~ attempt_retried a).
Proof.
  unfold attempt_ok, attempt_retried.
  destruct (Z_le_gt_dec (authElapsed a) 500); [|right; right; split; intros H; lia].
  destruct (authStatus a) eqn:Ha;
    try (right; left; split; [lia|left; discriminate]).
  destruct (Z_le_gt_dec (dataElapsed a) 500).
  - destruct (dataStatus a) eqn:Hd;
      try (right; left; split; [lia|right; split; [lia|discriminate]]).
    left. auto.
  - right. right. split; [intros H; lia|].
    intros [_ [H|[H _]]]; [congruence|lia].
Qed.

Lemma attempt_ok_not_retried (a : Attempt) : attempt_ok a -> ~ attempt_retried a.
Proof.
  intros (_ & Ha & _ & Hd) [_ [H|[_ H]]]; contradiction.
Qed.

Lemma readCard_loop_ok n attempt obs :
  attempt_ok (obs attempt) ->
  readCard_loop (S n) attempt obs = (true, to_byte (buffer0 (obs attempt))).
Proof.
  intros (Ha & Hs & Hd & Hds). simpl. rewrite Hs, Hds. simpl.
  destruct (Z.ltb_spec 500 (authElapsed (obs attempt))); [lia|].
  destruct (Z.ltb_spec 500 (dataElapsed (obs attempt))); [lia|]. reflexivity.
Qed.

Lemma readCard_loop_retried n attempt obs :
  attempt_retried (obs attempt) ->
  readCard_loop (S n) attempt obs =
    if attempt <? 2 then readCard_loop n (attempt + 1) obs else (false, 0xFF).
Proof.
  intros (Ha & Hor). simpl.
  destruct (Z.ltb_spec 500 (authElapsed (obs attempt))); [lia|].
  destruct Hor as [Hs|[Hd Hds]].
  - destruct (authStatus (obs attempt)); try contradiction; reflexivity.
  - destruct (authStatus (obs attempt)); simpl; try reflexivity.
    destruct (Z.ltb_spec 500 (dataElapsed (obs attempt))); [lia|].
    destruct (dataStatus (obs attempt)); try contradiction; simpl;
      destruct (attempt <? 2); reflexivity.
Qed.

Lemma readCard_loop_abort n attempt obs :
  ~ attempt_ok (obs attempt) -> ~ attempt_retried (obs attempt) ->
  readCard_loop (S n) attempt obs = (false, 0xFF).
Proof.
  unfold attempt_ok, attempt_retried. intros Hok Hre. simpl.
  destruct (Z.ltb_spec 500 (authElapsed (obs attempt))); [reflexivity|].
  destruct (authStatus (obs attempt)) eqn:Hs; simpl;
    try (exfalso; apply Hre; split; [lia|left; discriminate]).
  destruct (Z.ltb_spec 500 (dataElapsed (obs attempt))); [reflexivity|].
  destruct (dataStatus (obs attempt)) eqn:Hd; simpl;
    try (exfalso; apply Hre; split; [lia|right; split; [lia|discriminate]]).
  exfalso. apply Hok. auto.
Qed.

Lemma readCard_loop_spec obs n : forall attempt v,
  0 <= attempt -> attempt + Z.of_nat n = 3 ->
  (readCard_loop n attempt obs = (true, v) <->
   exists k, attempt <= k < 3 /\
     (forall j, attempt <= j < k -> attempt_retried (obs j)) /\
     attempt_ok (obs k) /\ v = to_byte (buffer0 (obs k))).
Proof.
  induction n as [|n IH]; intros attempt v Ha Hsum.
  - simpl. split; [discriminate|]. intros (k & Hk & _). lia.
  - destruct (attempt_cases (obs attempt)) as [Hok|[Hre|[Hnok Hnre]]].
    + rewrite readCard_loop_ok by exact Hok. split.
      * intros [= <-]. exists attempt.
        split; [lia|]. split; [intros j Hj; lia|]. split; [exact Hok|reflexivity].
      * intros (k & Hk & Hall & Hokk & ->).
        destruct (Z.eq_dec k attempt) as [->|Hne]; [reflexivity|].
        exfalso. apply (attempt_ok_not_retried _ Hok). apply Hall. lia.
    + rewrite readCard_loop_retried by exact Hre.
      destruct (Z.ltb_spec attempt 2).
      * rewrite (IH (attempt + 1) v) by lia. split.
        -- intros (k & Hk & Hall & Hokk & Hv). exists k.
           split; [lia|]. split; [|split; assumption].
           intros j Hj. destruct (Z.eq_dec j attempt) as [->|]; [exact Hre|].
           apply Hall. lia.
        -- intros (k & Hk & Hall & Hokk & Hv).
           destruct (Z.eq_dec k attempt) as [->|Hne].
           { exfalso. exact (attempt_ok_not_retried _ Hokk Hre). }
           exists k. split; [lia|]. split; [|split; assumption].
           intros j Hj. apply Hall. lia.
      * split; [discriminate|]. intros (k & Hk & Hall & Hokk & Hv).
        assert (k = attempt) as -> by lia.
        exfalso. exact (attempt_ok_not_retried _ Hokk Hre).
    + rewrite readCard_loop_abort by assumption.
      split; [discriminate|]. intros (k & Hk & Hall & Hokk & Hv).
      exfalso. destruct (Z.eq_dec k attempt) as [->|Hne]; [contradiction|].
      apply Hnre, Hall. lia.
Qed.

(** X4: [readCard] succeeds exactly when one of at most three attempts
    answers with status OK in time at both steps and every attempt before it
    failed without a timeout; the value is then the first buffer byte of
    that attempt.  A timeout ends the call at once, and every failure leaves
    0xFF in the value. *)
Theorem X4_readCard_three_attempts (obs : Z -> Attempt) :
  (forall v,
     readCard obs = (true, v) <->
     exists k, 0 <= k < 3 /\
       (forall j, 0 <= j < k -> attempt_retried (obs j)) /\
       attempt_ok (obs k) /\ v = to_byte (buffer0 (obs k))) /\
  (fst (readCard obs) = false -> snd (readCard obs) = 0xFF) /\
  (500 < authElapsed (obs 0) -> readCard obs = (false, 0xFF)).
Proof.
  split; [|split].
  - intros v. apply (readCard_loop_spec obs 3 0 v); lia.
  - destruct (readCard obs) as [ok v] eqn:Hr. simpl. intros ->.
    apply (readCard_value _ _ _ Hr). reflexivity.
  - intros Ht. unfold readCard. simpl.
    destruct (Z.ltb_spec 500 (authElapsed (obs 0))); [reflexivity|lia].
Qed.

Lemma writeCard_loop_readCard n : forall attempt obs,
  writeCard_loop n attempt obs = fst (readCard_loop n attempt obs).
Proof.
  induction n as [|n IH]; intros attempt obs; simpl; [reflexivity|].
  repeat match goal with
         | |- context [if ?c then _ else _] => destruct c; simpl
         end; auto.
Qed.

(** X5: [writeCard] follows the same policy as [readCard]: on the same
    answers of the reader it succeeds exactly when [readCard] does, so it
    too makes at most three attempts, retries bad statuses and gives up at
    the first timeout. *)
Theorem X5_writeCard_same_policy (obs : Z -> Attempt) :
  writeCard obs = fst (readCard obs) /\
  (writeCard obs = true <->
   exists k, 0 <= k < 3 /\
     (forall j, 0 <= j < k -> attempt_retried (obs j)) /\
     attempt_ok (obs k)).
Proof.
  assert (He : writeCard obs = fst (readCard obs)) by apply writeCard_loop_readCard.
  split; [exact He|]. rewrite He.
  destruct (readCard obs) as [ok v] eqn:Hr. simpl. split.
  - intros ->. apply (readCard_loop_spec obs 3 0 v) in Hr; [|lia|lia].
    destruct Hr as (k & Hk & Hall & Hok & _). eauto.
  - intros (k & Hk & Hall & Hok).
    assert (Hs : readCard obs = (true, to_byte (buffer0 (obs k)))).
    { apply (readCard_loop_spec obs 3 0); [lia|lia|]. exists k. auto. }
    congruence.
Qed.

(** ** Anatomy of one pass of the loop *)

Lemma set_latch_id s : set_wasPressed (wasPressed s) (set_pressStartTime (pressStartTime s) s) = s.
Proof. destruct s; reflexivity. Qed.

Lemma checkButtonPress_outcome low now s :
  exists s0 t0,
    checkButtonPress low now s = Some (tt, s0, t0) /\ button_outcome low now s s0 t0.
Proof.
  unfold button_outcome. destruct low.
  - rewrite button_held. eexists _, _. split; [reflexivity|]. left.
    split; [|auto]. destruct (wasPressed s) eqn:Hw.
    + exists true, (pressStartTime s). rewrite <- Hw. symmetry. apply set_latch_id.
    + exists true, (u32 now). destruct s; reflexivity.
  - destruct (wasPressed s) eqn:Hw.
    + destruct (Z_lt_le_dec (pressDuration s now) 100) as [Hd|Hd].
      { rewrite release_noop by assumption. eexists _, _. split; [reflexivity|]. left.
        split; [|auto]. exists false, (pressStartTime s). destruct s; reflexivity. }
      destruct (Z_lt_le_dec (pressDuration s now) 4000) as [Hd4|Hd4].
      * rewrite release_short by (auto; lia).
        destruct (Mode_eqb (currentMode s) PUZZLE) eqn:Hm.
        -- apply Mode_eqb_eq in Hm. eexists _, _. split; [reflexivity|].
           right. left. repeat split; auto; lia.
        -- eexists _, _. split; [reflexivity|]. left.
           split; [exists false, (pressStartTime s); destruct s; reflexivity|].
           split; [reflexivity|]. right. right. right. left. split; [lia|].
           intros He. apply Mode_eqb_eq in He. congruence.
      * rewrite release_long by assumption.
        destruct (Mode_eqb (currentMode s) SET_COMBO) eqn:Hm.
        -- apply Mode_eqb_eq in Hm. eexists _, _. split; [reflexivity|]. left.
           split; [exists false, (pressStartTime s); destruct s; reflexivity|]. auto 10.
        -- eexists _, _. split; [reflexivity|]. right. right.
           repeat split; auto.
           intros He. apply Mode_eqb_eq in He. congruence.
    + rewrite button_idle by assumption. exists s, []. split; [reflexivity|]. left.
      split; [|auto]. exists false, (pressStartTime s). rewrite <- Hw. symmetry.
      apply set_latch_id.
Qed.

Lemma programmingLoop_outcome low r s :
  exists sp tp,
    selection_outcome low s sp tp /\
    programmingLoop low r s =
      match handleReader r sp with
      | Some (_, s1, t1) => Some (tt, s1, tp ++ t1)
      | None => None
      end.
Proof.
  unfold selection_outcome, programmingLoop. munfold.
  destruct low; [destruct (buttonWasPressed s) eqn:Hb|]; cbv beta iota delta [negb].
  - exists (set_buttonWasPressed true s), []. split; [right; auto|].
    rewrite <- Hb at 1.
    replace (set_buttonWasPressed (buttonWasPressed s) s) with s by (destruct s; reflexivity).
    destruct (handleReader r s) as [[[[] s1] t1]|]; reflexivity.
  - eexists _, _. split; [left; repeat split; reflexivity|].
    match goal with
    | |- context [handleReader ?r0 ?s0] => destruct (handleReader r0 s0) as [[[[] s1] t1]|]
    end; reflexivity.
  - exists (set_buttonWasPressed false s), []. split; [right; auto|].
    destruct (handleReader r _) as [[[[] s1] t1]|]; reflexivity.
Qed.

(** What [handleReader] leaves alone, and what its trace never contains. *)
Lemma handleReader_frame r s s1 t1 :
  handleReader r s = Some (tt, s1, t1) ->
  (currentMode s1 = currentMode s /\ codeLength s1 = codeLength s /\
   selectedValue s1 = selectedValue s /\ wasPressed s1 = wasPressed s /\
   pressStartTime s1 = pressStartTime s /\
   buttonWasPressed s1 = buttonWasPressed s /\ eeprom s1 = eeprom s) /\
  relay_writes t1 = [] /\
  count is_success t1 = O /\ count is_failure t1 = O /\
  count is_EEPROM_write t1 = O /\
  (0 <= currentIndex s < codeLength s -> sel_ok s ->
   Forall (fun e => present_ok (codeLength s) e /\ digit_written e) t1).
Proof.
  revert s1 t1. intros s1 t1. hr_split s r; simpl.
  all: unfold store_enteredValues, store_correctCode.
  all: repeat match goal with
       | |- context [arr_set ?a ?i ?v] => destruct (arr_set a i v)
       end; simpl.
  all: try discriminate.
  all: intros [= <- <-]; simpl.
  all: (split; [repeat split; auto|]).
  all: repeat (split; [reflexivity|]).
  all: unfold sel_ok; intros Hi Hs; repeat constructor; simpl;
    try rewrite to_byte_small by lia; lia.
Qed.

Lemma selection_outcome_InvTop low s sp tp :
  selection_outcome low s sp tp -> InvTop s ->
  InvTop sp /\ currentMode sp = currentMode s.
Proof.
  intros [(_ & _ & -> & _)|(_ & -> & _)] [[] Hi]; simpl.
  all: split; [split; [constructor|]; simpl; auto | reflexivity].
Qed.

(** One pass of [loop] from a state satisfying the invariant, cut into
    its four parts: button handler, selection step (Program only), reader
    handler, completion check. *)
Lemma loop_anatomy i s :
  InvTop s ->
  exists s0 t0 sp tp s1 t1 s' te,
    checkButtonPress (in_button i) (in_millis i) s = Some (tt, s0, t0) /\
    button_outcome (in_button i) (in_millis i) s s0 t0 /\
    InvTop s0 /\
    match currentMode s0 with
    | PROGRAM => selection_outcome (in_button2 i) s0 sp tp
    | _ => sp = s0 /\ tp = []
    end /\
    InvTop sp /\ currentMode sp = currentMode s0 /\
    handleReader (in_reader i) sp = Some (tt, s1, t1) /\
    Inv s1 /\
    completion_outcome (currentMode s0) s1 s' te /\
    loop i s = Some (tt, s', t0 ++ tp ++ t1 ++ te ++ [E_delay 10]).
Proof.
  intros HI.
  destruct (checkButtonPress_outcome (in_button i) (in_millis i) s) as (s0 & t0 & Hb & Hbo).
  destruct (checkButtonPress_Inv (in_button i) (in_millis i) s HI)
    as (s0' & t0' & Hb' & HI0 & _).
  rewrite Hb in Hb'. injection Hb' as <- <-.
  exists s0, t0.
  unfold loop. munfold. rewrite Hb.
  destruct (currentMode s0) eqn:Hm.
  - (* PUZZLE *)
    destruct (handleReader_Inv (in_reader i) s0 HI0) as (s1 & t1 & Hh & HI1 & _).
    destruct (puzzleLoop_run (in_reader i) s0 s1 t1 HI1 Hh) as [Hlt Hge].
    destruct (Z_lt_le_dec (currentIndex s1) (codeLength s1)) as [Hc|Hc].
    + exists s0, [], s1, t1, s1, []. rewrite (Hlt Hc). simpl.
      repeat apply conj; auto; try apply HI0.
    + destruct (Hge Hc) as (b & Hbm & Hp). rewrite Hp.
      eexists s0, [], s1, t1, _, _. simpl.
      repeat apply conj; auto; try apply HI0.
      * right. repeat apply conj; auto. exists b. split; [exact Hbm|reflexivity].
      * rewrite <- !app_assoc. reflexivity.
  - (* PROGRAM *)
    destruct (programmingLoop_outcome (in_button2 i) (in_reader i) s0) as (sp & tp & Hs & Hp).
    destruct (selection_outcome_InvTop _ _ _ _ Hs HI0) as [HIp Hmp].
    destruct (handleReader_Inv (in_reader i) sp HIp) as (s1 & t1 & Hh & HI1 & _).
    rewrite Hp, Hh.
    exists sp, tp, s1, t1, s1, []. simpl.
    repeat apply conj; auto; try congruence; try apply HI0; try apply HIp.
    rewrite <- !app_assoc. reflexivity.
  - (* SET_COMBO *)
    destruct (handleReader_Inv (in_reader i) s0 HI0) as (s1 & t1 & Hh & HI1 & _).
    destruct (setComboLoop_run (in_reader i) s0 s1 t1 HI1 Hh) as [Hlt Hge].
    destruct (Z_lt_le_dec (currentIndex s1) (codeLength s1)) as [Hc|Hc].
    + exists s0, [], s1, t1, s1, []. rewrite (Hlt Hc). simpl.
      repeat apply conj; auto; try apply HI0.
    + destruct (Hge Hc) as (ee & tw & Hsv & Hp). rewrite Hp.
      eexists s0, [], s1, t1, _, _. simpl.
      repeat apply conj; auto; try apply HI0.
      * right. split; [exact Hc|]. exists ee, tw. repeat apply conj; auto; try apply HI0.
      * rewrite <- !app_assoc. reflexivity.
Qed.

Lemma relay_writes_app t1 t2 :
  relay_writes (t1 ++ t2) = relay_writes t1 ++ relay_writes t2.
Proof.
  induction t1 as [|e t1 IH]; [reflexivity|].
  destruct e; simpl; auto.
  destruct (pin =? RELAY_PIN); simpl; congruence.
Qed.

Lemma writes_plain t :
  Forall (fun e => is_EEPROM_write e = true) t ->
  relay_writes t = [] /\ count is_success t = O /\ count is_failure t = O /\
  count is_dispatch t = O /\
  count is_EEPROM_write t = length t /\
  forall len, Forall (fun e => present_ok len e /\ digit_written e) t.
Proof.
  induction 1 as [|e t He _ IH]; [repeat split; constructor|].
  destruct IH as (Hr & Hs & Hf & Hd & Hc & Hp).
  destruct e; try discriminate. simpl.
  repeat split; auto.
  intros len. constructor; [split; exact I|apply Hp].
Qed.

Lemma button_outcome_frame low now s s0 t0 :
  button_outcome low now s s0 t0 ->
  codeLength s0 = codeLength s /\ eeprom s0 = eeprom s /\
  correctCode s0 = correctCode s /\ enteredValues s0 = enteredValues s /\
  buttonWasPressed s0 = buttonWasPressed s /\
  cardCurrentlyPresent s0 = cardCurrentlyPresent s /\
  lastCardCheckTime s0 = lastCardCheckTime s /\
  (sel_ok s -> sel_ok s0) /\
  count is_EEPROM_write t0 = O /\ count is_success t0 = O /\
  count is_failure t0 = O /\ count is_dispatch t0 = O /\
  forall len, Forall (fun e => present_ok len e /\ digit_written e) t0.
Proof.
  unfold sel_ok.
  intros [((w & p & ->) & -> & _)|[(_ & _ & _ & _ & -> & ->)|(_ & _ & _ & _ & -> & ->)]];
    simpl; repeat split; auto; try lia; repeat constructor; simpl; lia.
Qed.

(** X6: in Program mode, when a poll finds a card on a reader that had
    none, the reader handler writes the current selection to it, plays the
    write-success or write-failure presentation according to [writeCard],
    shows the selection again, and changes nothing but the card tracking
    variables: the selection stays, so the same value can be written to any
    number of cards, and the accumulator, the combination and the EEPROM
    are untouched.  Whatever the outcome, the card is not written again
    while it stays on the reader. *)
Theorem X6_program_write (r : ReaderInput) (s : State) (u : Uid) :
  InvTop s -> sel_ok s ->
  currentMode s = PROGRAM ->
  polled r s -> rd_card r = Some u -> size u <> 0 ->
  cardCurrentlyPresent s = false ->
  handleReader r s =
    Some (tt, card_tracked r u s,
          [E_poll true; E_writeCard (selectedValue s) (writeCard (rd_attempts r));
           E_tone BUZZER_PIN (if writeCard (rd_attempts r) then 800 else 200) 100;
           (if writeCard (rd_attempts r) then E_animateWriteSuccess
            else E_animateWriteFailure);
           E_showNumber (selectedValue s); E_PICC_HaltA; E_PCD_StopCrypto1]) /\
  (selectedValue (card_tracked r u s) = selectedValue s /\
   currentMode (card_tracked r u s) = PROGRAM /\
   currentIndex (card_tracked r u s) = currentIndex s /\
   enteredValues (card_tracked r u s) = enteredValues s /\
   correctCode (card_tracked r u s) = correctCode s /\
   eeprom (card_tracked r u s) = eeprom s) /\
  (forall ins, card_stays ins ->
     exists s' t,
       run ins (card_tracked r u s) = Some (tt, s', t) /\
       count is_dispatch t = O).
Proof.
  intros HT Hsel Hm Hp Hc Hsz Hpr.
  assert (Hcmp : compareUID (uidByte u) (size u) (lastUID s) (lastUIDSize s) = false).
  { destruct HT as [[_ _ _ _ _ Huid _ _] _]. rewrite (Huid Hpr).
    apply compareUID_empty. exact Hsz. }
  assert (Hh : handleReader r s =
    Some (tt, card_tracked r u s,
          [E_poll true; E_writeCard (selectedValue s) (writeCard (rd_attempts r));
           E_tone BUZZER_PIN (if writeCard (rd_attempts r) then 800 else 200) 100;
           (if writeCard (rd_attempts r) then E_animateWriteSuccess
            else E_animateWriteFailure);
           E_showNumber (selectedValue s); E_PICC_HaltA; E_PCD_StopCrypto1])).
  { unfold polled in Hp. unfold sel_ok in Hsel.
    unfold handleReader, card_tracked. munfold.
    rewrite Hc, Hpr, Hcmp, Hm. rewrite to_byte_small by lia.
    destruct (writeCard (rd_attempts r)); zcases; reflexivity. }
  assert (Hfields :
    selectedValue (card_tracked r u s) = selectedValue s /\
    currentMode (card_tracked r u s) = PROGRAM /\
    currentIndex (card_tracked r u s) = currentIndex s /\
    enteredValues (card_tracked r u s) = enteredValues s /\
    correctCode (card_tracked r u s) = correctCode s /\
    eeprom (card_tracked r u s) = eeprom s).
  { unfold card_tracked. destruct (size u <=? 10); simpl; repeat split; auto. }
  split; [exact Hh|]. split; [exact Hfields|].
  intros ins Hstay.
  destruct (handleReader_Inv r s HT) as (s1 & t1 & Hrun & HI & _ & Hcl & _ & Hidx & _).
  rewrite Hh in Hrun. injection Hrun as <- <-.
  assert (HT1 : InvTop (card_tracked r u s)).
  { split; [exact HI|]. rewrite (Hidx Hm), Hcl. apply HT. }
  assert (Hpres : cardCurrentlyPresent (card_tracked r u s) = true).
  { unfold card_tracked. destruct (size u <=? 10); reflexivity. }
  destruct (run_present ins (card_tracked r u s) HT1 Hpres Hstay)
    as (s' & t & Hr & _ & _ & Hd).
  eauto.
Qed.

Lemma loop_trace_ok i s s' t :
  InvTop s -> sel_ok s -> loop i s = Some (tt, s', t) ->
  sel_ok s' /\
  Forall (fun e => present_ok (codeLength s) e /\ digit_written e) t.
Proof.
  intros HT Hsel Hl.
  destruct (loop_anatomy i s HT)
    as (s0 & t0 & sp & tp & s1 & t1 & s'' & te & _ & Hbo & HT0 & Hso & HTp & Hmp & Hh & HI1 & Hco & Hl').
  rewrite Hl in Hl'. injection Hl' as <- ->.
  destruct (button_outcome_frame _ _ _ _ _ Hbo)
    as (Hcl0 & _ & _ & _ & _ & _ & _ & Hsel0 & _ & _ & _ & _ & Hp0).
  specialize (Hsel0 Hsel).
  assert (Hsp : sel_ok sp /\ codeLength sp = codeLength s0 /\
                Forall (fun e => present_ok (codeLength s) e /\ digit_written e) tp).
  { unfold sel_ok in *. destruct (currentMode s0).
    - destruct Hso as [-> ->]. auto.
    - destruct Hso as [(_ & _ & -> & ->)|(_ & -> & ->)]; simpl.
      + split; [zcases; lia|]. split; [reflexivity|].
        repeat constructor; simpl; zcases; lia.
      + auto.
    - destruct Hso as [-> ->]. auto. }
  destruct Hsp as (Hselp & Hclp & Hptp).
  destruct (handleReader_frame _ _ _ _ Hh) as ((_ & Hcl1 & Hsel1 & _) & _ & _ & _ & _ & Hpt1).
  assert (Hpt1' : Forall (fun e => present_ok (codeLength s) e /\ digit_written e) t1).
  { rewrite <- Hcl0, <- Hclp. apply Hpt1; [|exact Hselp].
    destruct HTp as [[] ?]. lia. }
  assert (Hend : selectedValue s' = selectedValue s1 /\
                 Forall (fun e => present_ok (codeLength s) e /\ digit_written e) te).
  { unfold completion_outcome in Hco. destruct (currentMode s0).
    - destruct Hco as [(_ & -> & ->)|(_ & -> & b & _ & ->)]; [auto|].
      split; [reflexivity|]. destruct b; repeat constructor.
    - destruct Hco as [-> ->]. auto.
    - destruct Hco as [(_ & -> & ->)|(_ & ee & tw & Hsv & -> & ->)]; [auto|].
      split; [reflexivity|].
      destruct (saveComboToEEPROM_run s1) as (ee' & tw' & Hsv' & _ & _ & _ & Hw);
        [apply HI1|destruct HI1; lia|].
      rewrite Hsv in Hsv'. injection Hsv' as _ ->.
      apply Forall_app. split; [apply writes_plain; exact Hw|repeat constructor]. }
  destruct Hend as [Hsel' Hpte].
  split.
  - unfold sel_ok in *. rewrite Hsel', Hsel1. exact Hselp.
  - repeat (apply Forall_app; split); auto. repeat constructor.
Qed.

(** ** The selection of Program mode *)

Lemma booted_sel ee : selectedValue (booted ee) = 0.
Proof.
  unfold booted.
  destruct (record_valid_dec ee) as [Hv|Hv].
  - destruct (load_valid (initial ee) eq_refl Hv) as (cc & t & Hrun & _).
    unfold setup. munfold. rewrite Hrun. reflexivity.
  - assert (Hn : ~ record_valid (eeprom (initial ee))).
    { unfold record_valid. simpl. pose proof (to_byte_range (ee EEPROM_LENGTH_ADDR)).
      unfold MAX_CARDS in *. intros [? ?]. destruct Hv as [?|[?|?]]; [auto|lia|lia]. }
    unfold setup. munfold. rewrite (load_invalid _ Hn). reflexivity.
Qed.

Lemma reachable_sel s : reachable s -> sel_ok s.
Proof.
  induction 1 as [ee s t Hs|s i s' t Hr IH Hl].
  - destruct (setup_run ee) as (t' & Hrun & _). rewrite Hrun in Hs.
    injection Hs as <- _. unfold sel_ok. rewrite booted_sel. lia.
  - exact (proj1 (loop_trace_ok i s s' t (reachable_Inv s Hr) IH Hl)).
Qed.

Lemma loop_runs i s :
  InvTop s -> exists s' t, loop i s = Some (tt, s', t).
Proof.
  intros HT. destruct (loop_Inv i s HT) as (s' & t & Hl & _). eauto.
Qed.

(** X7: in every reachable state the selection of Program mode is a digit
    from 0 to 9, and every value a pass of the loop writes to a card is
    such a digit. *)
Theorem X7_selection_is_digit (s : State) (i : LoopInput) :
  reachable s ->
  0 <= selectedValue s <= 9 /\
  exists s' t, loop i s = Some (tt, s', t) /\ Forall digit_written t.
Proof.
  intros Hr. pose proof (reachable_Inv s Hr) as HT.
  pose proof (reachable_sel s Hr) as Hsel.
  split; [exact Hsel|].
  destruct (loop_runs i s HT) as (s' & t & Hl).
  exists s', t. split; [exact Hl|].
  destruct (loop_trace_ok i s s' t HT Hsel Hl) as [_ Hf].
  eapply Forall_impl; [exact Hf|]. intros e [_ He]. exact He.
Qed.

(** X8: a pass of the loop that starts and ends in Program mode records
    the button level it read and advances the selection by one, wrapping
    from 9 to 0, exactly when that level is a press not yet recorded; a
    button that stays held advances the selection once. *)
Theorem X8_selection_step (s : State) (i : LoopInput) :
  reachable s ->
  currentMode s = PROGRAM ->
  exists s' t,
    loop i s = Some (tt, s', t) /\
    (currentMode s' = PROGRAM ->
       buttonWasPressed s' = in_button2 i /\
       selectedValue s' =
         if in_button2 i && negb (buttonWasPressed s)
         then (selectedValue s + 1) mod 10
         else selectedValue s).
Proof.
  intros Hr Hm. pose proof (reachable_Inv s Hr) as HT.
  pose proof (reachable_sel s Hr) as Hsel. unfold sel_ok in Hsel.
  destruct (loop_anatomy i s HT)
    as (s0 & t0 & sp & tp & s1 & t1 & s' & te & _ & Hbo & HT0 & Hso & HTp & Hmp & Hh & HI1 & Hco & Hl).
  exists s', (t0 ++ tp ++ t1 ++ te ++ [E_delay 10]). split; [exact Hl|].
  intros Hm'.
  destruct (handleReader_frame _ _ _ _ Hh) as ((Hm1 & _ & Hsel1 & _ & _ & Hb1 & _) & _).
  destruct Hbo as [((w & p & ->) & -> & _)|[(_ & _ & _ & Hpz & _)|(_ & _ & _ & _ & -> & ->)]].
  - simpl in Hso, Hco, Hmp. rewrite Hm in Hso, Hco. simpl in Hco. destruct Hco as [-> _].
    rewrite Hb1, Hsel1.
    destruct Hso as [(-> & Hbw & -> & _)|([Hlow|Hbw] & -> & _)]; simpl in *.
    + rewrite Hbw. simpl. split; [reflexivity|].
      zcases.
      * replace (selectedValue s + 1) with 10 by lia. reflexivity.
      * symmetry. apply Z.mod_small. lia.
    + rewrite Hlow. auto.
    + rewrite Hbw, andb_false_r. auto.
  - congruence.
  - exfalso. simpl in Hso, Hco, Hmp. destruct Hso as [-> _]. simpl in Hm1.
    destruct Hco as [(_ & -> & _)|(_ & ee & tw & _ & -> & _)]; simpl in Hm'; congruence.
Qed.

(** ** Mode changes *)

Lemma handleReader_index r s s1 t1 :
  handleReader r s = Some (tt, s1, t1) ->
  (currentIndex s1 = currentIndex s /\ enteredValues s1 = enteredValues s /\
   correctCode s1 = correctCode s) \/
  (currentIndex s1 = currentIndex s + 1 /\ count is_dispatch t1 = 1%nat /\
   currentMode s <> PROGRAM /\ cardCurrentlyPresent s = false).
Proof.
  revert s1 t1. intros s1 t1. hr_split s r; simpl.
  all: unfold store_enteredValues, store_correctCode.
  all: repeat match goal with
       | |- context [arr_set ?a ?i ?v] => destruct (arr_set a i v)
       end; simpl.
  all: try discriminate.
  all: intros [= <- <-]; simpl.
  all: first [left; repeat split; reflexivity
             |right; repeat split; try reflexivity; congruence].
Qed.

(** X9: the mode changes of one pass of the loop.  Puzzle is left for
    Program only by the release of a short press, and any mode is left for
    SetCombo only by the release of a long hold.  SetCombo is never left
    for Program, and it is left for Puzzle only in the pass that reads the
    last card of the new combination: no gesture cancels it.  Program is
    never left for Puzzle, except through SetCombo within one pass, when a
    long hold is released, the combination has a single card and that card
    is read in the same pass. *)
Theorem X9_mode_transitions (s : State) (i : LoopInput) :
  reachable s ->
  exists s' t,
    loop i s = Some (tt, s', t) /\
    match currentMode s, currentMode s' with
    | PUZZLE, PROGRAM => short_release i s
    | PUZZLE, SET_COMBO | PROGRAM, SET_COMBO => long_release i s
    | SET_COMBO, PUZZLE =>
        currentIndex s + 1 = codeLength s /\ count is_dispatch t = 1%nat
    | PROGRAM, PUZZLE =>
        long_release i s /\ codeLength s = 1 /\ count is_dispatch t = 1%nat
    | SET_COMBO, PROGRAM => False
    | _, _ => True
    end.
Proof.
  intros Hr. pose proof (reachable_Inv s Hr) as HT.
  destruct (loop_anatomy i s HT)
    as (s0 & t0 & sp & tp & s1 & t1 & s' & te & _ & Hbo & HT0 & Hso & HTp & Hmp & Hh & HI1 & Hco & Hl).
  exists s', (t0 ++ tp ++ t1 ++ te ++ [E_delay 10]). split; [exact Hl|].
  destruct (handleReader_frame _ _ _ _ Hh) as ((Hm1 & Hcl1 & _) & _).
  destruct (button_outcome_frame _ _ _ _ _ Hbo) as (Hcl0 & _ & _ & _ & _ & _ & _ & _ & _ & _ & _ & Hd0 & _).
  assert (Hend :
    (currentMode s' = currentMode s0) \/
    (currentMode s0 = SET_COMBO /\ currentMode s' = PUZZLE /\
     currentIndex s0 + 1 = codeLength s0 /\
     count is_dispatch (t0 ++ tp ++ t1 ++ te ++ [E_delay 10]) = 1%nat)).
  { unfold completion_outcome in Hco. destruct (currentMode s0) eqn:Hm0.
    - left. destruct Hco as [(_ & -> & _)|(_ & -> & _)]; simpl; congruence.
    - left. destruct Hco as [-> _]. congruence.
    - destruct Hso as [-> ->].
      destruct Hco as [(_ & -> & _)|(Hge & ee & tw & Hsv & -> & ->)]; [left; congruence|].
      right. split; [reflexivity|]. split; [reflexivity|].
      destruct (saveComboToEEPROM_run s1) as (ee' & tw' & Hsv' & _ & _ & _ & Hw);
        [apply HI1|destruct HI1; lia|].
      rewrite Hsv in Hsv'. injection Hsv' as _ ->.
      destruct (writes_plain _ Hw) as (_ & _ & _ & Hdw & _).
      destruct (handleReader_index _ _ _ _ Hh) as [(Hi1 & _)|(Hi1 & Hd1 & _)].
      + exfalso. destruct HT0 as [_ ?]. lia.
      + split; [destruct HT0 as [_ ?]; destruct HI1; lia|].
        rewrite !count_app, Hd0, Hd1, Hdw. reflexivity. }
  unfold short_release, long_release.
  destruct Hbo as [((w & p & ->) & -> & _)|[(Hlow & Hw & Hd & Hpz & -> & ->)|(Hlow & Hw & Hd & Hns & -> & ->)]];
    simpl in Hend, Hcl0.
  - destruct Hend as [->|(-> & -> & Hi & Hc)]; [destruct (currentMode s); exact I|].
    split; [exact Hi|exact Hc].
  - rewrite Hpz. destruct Hend as [->|(? & _)]; [|discriminate]. auto.
  - destruct Hend as [->|(_ & -> & Hi & Hc)].
    + destruct (currentMode s); [auto|auto|congruence].
    + destruct (currentMode s); [exact I| |congruence].
      split; [auto|]. split; [lia|exact Hc].
Qed.

(** ** The relay *)

Lemma pre_outcome_plain low s0 sp tp :
  match currentMode s0 with
  | PROGRAM => selection_outcome low s0 sp tp
  | _ => sp = s0 /\ tp = []
  end ->
  relay_writes tp = [] /\ count is_success tp = O /\ count is_failure tp = O /\
  count is_EEPROM_write tp = O /\ count is_dispatch tp = O /\
  eeprom sp = eeprom s0 /\ codeLength sp = codeLength s0 /\
  correctCode sp = correctCode s0 /\ enteredValues sp = enteredValues s0 /\
  currentIndex sp = currentIndex s0 /\
  cardCurrentlyPresent sp = cardCurrentlyPresent s0.
Proof.
  destruct (currentMode s0).
  - intros [-> ->]. repeat split.
  - intros [(_ & _ & -> & ->)|(_ & -> & ->)]; repeat split.
  - intros [-> ->]. repeat split.
Qed.

(** X10: a pass of the loop from a reachable state either leaves the relay
    alone or energises it once and releases it again; it energises it
    exactly when the pass dispatches a short press in Puzzle mode or plays
    the success presentation, and never both in one pass. *)
Theorem X10_relay_pulse_causes (s : State) (i : LoopInput) :
  reachable s ->
  exists s' t,
    loop i s = Some (tt, s', t) /\
    (relay_writes t = [] \/ relay_writes t = [true; false]) /\
    (relay_writes t = [true; false] <->
       (currentMode s = PUZZLE /\ short_release i s) \/ count is_success t = 1%nat) /\
    ~ (currentMode s = PUZZLE /\ short_release i s /\ count is_success t = 1%nat) /\
    (count is_success t = 1%nat -> currentMode s = PUZZLE /\ currentMode s' = PUZZLE).
Proof.
  intros Hr. pose proof (reachable_Inv s Hr) as HT.
  destruct (loop_anatomy i s HT)
    as (s0 & t0 & sp & tp & s1 & t1 & s' & te & _ & Hbo & HT0 & Hso & HTp & Hmp & Hh & HI1 & Hco & Hl).
  exists s', (t0 ++ tp ++ t1 ++ te ++ [E_delay 10]). split; [exact Hl|].
  destruct (handleReader_frame _ _ _ _ Hh) as (_ & Hr1 & Hs1 & _).
  destruct (pre_outcome_plain _ _ _ _ Hso) as (Hrp & Hsp & _).
  rewrite !relay_writes_app, !count_app, Hrp, Hr1, Hsp, Hs1. simpl.
  rewrite !app_nil_r, !Nat.add_0_r.
  assert (Hend :
    (relay_writes te = [] /\ count is_success te = O) \/
    (currentMode s0 = PUZZLE /\ currentMode s' = PUZZLE /\
     relay_writes te = [true; false] /\ count is_success te = 1%nat)).
  { unfold completion_outcome in Hco. destruct (currentMode s0) eqn:Hm0.
    - destruct Hco as [(_ & -> & ->)|(_ & -> & b & _ & ->)]; [left; auto|].
      destruct b; [right|left]; repeat split.
      destruct (handleReader_frame _ _ _ _ Hh) as ((Hm1 & _) & _).
      simpl. destruct Hso as [-> _]. congruence.
    - destruct Hco as [-> ->]. left; auto.
    - destruct Hco as [(_ & -> & ->)|(_ & ee & tw & Hsv & -> & ->)]; [left; auto|].
      destruct (saveComboToEEPROM_run s1) as (ee' & tw' & Hsv' & _ & _ & _ & Hw);
        [apply HI1|destruct HI1; lia|].
      rewrite Hsv in Hsv'. injection Hsv' as _ ->.
      destruct (writes_plain _ Hw) as (Hrw & Hsw & _).
      left. rewrite relay_writes_app, count_app, Hrw, Hsw. auto. }
  unfold short_release.
  destruct Hbo as [((w & p & ->) & -> & Hwhy)|[(Hlow & Hw & Hd & Hpz & -> & ->)|(Hlow & Hw & Hd & Hns & -> & ->)]];
    simpl in Hend; simpl.
  - assert (Hno : ~ (currentMode s = PUZZLE /\
                     in_button i = false /\ wasPressed s = true /\
                     100 <= pressDuration s (in_millis i) < 4000)).
    { intros (Hm & Hlow & Hw & Hd).
      destruct Hwhy as [?|[?|[?|[[_ ?]|[? _]]]]]; try congruence; lia. }
    destruct Hend as [(-> & ->)|(Hm & Hm' & -> & ->)].
    + split; [auto|]. split; [|split].
      * split; [discriminate|]. intros [?|?]; [contradiction|discriminate].
      * tauto.
      * discriminate.
    + split; [auto|]. split; [|split].
      * split; auto.
      * tauto.
      * auto.
  - destruct Hend as [(-> & ->)|(? & _)]; [|discriminate].
    split; [auto|]. split; [|split].
    + split; auto.
    + intros (_ & _ & ?). discriminate.
    + discriminate.
  - destruct Hend as [(-> & ->)|(? & _)]; [|discriminate].
    split; [auto|]. split; [|split].
    + split; [discriminate|]. intros [(_ & _ & _ & ?)|?]; [lia|discriminate].
    + intros (_ & _ & ?). discriminate.
    + discriminate.
Qed.

(** ** The EEPROM *)

Lemma save_loop_trace n : forall i s,
  0 <= i -> i + Z.of_nat n <= Z.of_nat (length (correctCode s)) ->
  exists ee,
    for_loop n i saveCombo_body tt s =
      Some (tt, set_eeprom ee s,
            (fun k => E_EEPROM_write (EEPROM_CODE_ADDR + k)
                        (to_byte (default 0 (correctCode s !! Z.to_nat k))))
              <$> seqZ i (Z.of_nat n)) /\
    (forall a,
       ee a = if (EEPROM_CODE_ADDR + i <=? a) && (a <? EEPROM_CODE_ADDR + i + Z.of_nat n)
              then to_byte (default 0 (correctCode s !! Z.to_nat (a - EEPROM_CODE_ADDR)))
              else eeprom s a).
Proof.
  induction n as [|n IH]; intros i s Hi Hb.
  - exists (eeprom s). simpl. munfold. rewrite set_eeprom_id.
    split; [reflexivity|]. intros a. zcases; reflexivity.
  - destruct (saveCombo_body_run s i) as (v & Hv & Hrun); [lia|].
    destruct (IH (i + 1) (set_eeprom (EEPROM_update (eeprom s) (EEPROM_CODE_ADDR + i) v) s))
      as (ee & Hloop & Hee); [lia|simpl; lia|].
    exists ee. split.
    + simpl for_loop. munfold. rewrite Hrun, Hloop.
      rewrite (seqZ_cons i (Z.of_nat (S n))) by lia.
      replace (Z.pred (Z.of_nat (S n))) with (Z.of_nat n) by lia.
      rewrite fmap_cons. simpl. rewrite Hv. reflexivity.
    + intros a. rewrite Hee. simpl. unfold EEPROM_update, EEPROM_CODE_ADDR.
      destruct (Z.eq_dec a (2 + i)) as [->|Hne].
      * replace (Z.to_nat (2 + i - 2)) with (Z.to_nat i) by lia.
        rewrite Hv. simpl. zcases; reflexivity.
      * zcases; reflexivity.
Qed.

Lemma saveComboToEEPROM_trace s :
  length (correctCode s) = 10%nat ->
  0 <= codeLength s <= MAX_CARDS ->
  exists ee,
    saveComboToEEPROM s =
      Some (tt, set_eeprom ee s, save_trace (codeLength s) (correctCode s)) /\
    forall a,
      ee a = if a =? EEPROM_MAGIC_ADDR then EEPROM_MAGIC_VALUE
             else if a =? EEPROM_LENGTH_ADDR then to_byte (codeLength s)
             else if (EEPROM_CODE_ADDR <=? a) && (a <? EEPROM_CODE_ADDR + codeLength s)
             then to_byte (default 0 (correctCode s !! Z.to_nat (a - EEPROM_CODE_ADDR)))
             else eeprom s a.
Proof.
  intros Hlen Hcl. unfold MAX_CARDS in Hcl.
  unfold saveComboToEEPROM. munfold.
  match goal with
  | |- context [for_loop ?n 0 saveCombo_body tt ?st] =>
      destruct (save_loop_trace n 0 st) as (ee & Hloop & Hee);
        [lia|simpl; lia|]
  end.
  rewrite Hloop. simpl in Hee. exists ee. split.
  - unfold save_trace. simpl. rewrite Z2Nat.id by lia. reflexivity.
  - intros a. rewrite Hee. rewrite Z2Nat.id by lia.
    unfold EEPROM_update, EEPROM_CODE_ADDR, EEPROM_MAGIC_ADDR, EEPROM_LENGTH_ADDR.
    zcases; reflexivity.
Qed.

Lemma filter_writes t :
  Forall (fun e => is_EEPROM_write e = true) t -> List.filter is_EEPROM_write t = t.
Proof.
  induction 1 as [|e t He _ IH]; [reflexivity|]. simpl. rewrite He, IH. reflexivity.
Qed.

Lemma filter_no_writes t :
  count is_EEPROM_write t = O -> List.filter is_EEPROM_write t = [].
Proof.
  induction t as [|e t IH]; [reflexivity|]. simpl.
  destruct (is_EEPROM_write e); [discriminate|]. exact IH.
Qed.

Lemma save_trace_writes len cc :
  Forall (fun e => is_EEPROM_write e = true) (save_trace len cc).
Proof.
  unfold save_trace. repeat (constructor; [reflexivity|]).
  apply Forall_fmap, Forall_true. reflexivity.
Qed.

(** X11: the EEPROM writes of one pass of the loop from a reachable state.
    Either the pass writes nothing and leaves the EEPROM as it is, or it
    completes SetCombo and writes exactly the record, in order: the magic
    byte at address 0, the length at address 1, and the values of the
    combination now in memory from address 2 on; these are 2 + [codeLength]
    byte writes, and every cell outside the record keeps its contents. *)
Theorem X11_eeprom_writes_are_the_record (s : State) (i : LoopInput) :
  reachable s ->
  exists s' t,
    loop i s = Some (tt, s', t) /\
    ((List.filter is_EEPROM_write t = [] /\ eeprom s' = eeprom s) \/
     (List.filter is_EEPROM_write t = save_trace (codeLength s) (correctCode s') /\
      Z.of_nat (count is_EEPROM_write t) = 2 + codeLength s /\
      Forall (write_in 0 (2 + codeLength s)) t /\
      currentMode s' = PUZZLE /\
      forall a, a < 0 \/ 2 + codeLength s <= a -> eeprom s' a = eeprom s a)).
Proof.
  intros Hr. pose proof (reachable_Inv s Hr) as HT.
  destruct (loop_anatomy i s HT)
    as (s0 & t0 & sp & tp & s1 & t1 & s' & te & _ & Hbo & HT0 & Hso & HTp & Hmp & Hh & HI1 & Hco & Hl).
  exists s', (t0 ++ tp ++ t1 ++ te ++ [E_delay 10]). split; [exact Hl|].
  destruct (handleReader_frame _ _ _ _ Hh) as ((_ & Hcl1 & _ & _ & _ & _ & Hee1) & _ & _ & _ & Hw1 & _).
  destruct (pre_outcome_plain _ _ _ _ Hso) as (_ & _ & _ & Hwp & _ & Heep & Hclp & _).
  destruct (button_outcome_frame _ _ _ _ _ Hbo) as (Hcl0 & Hee0 & _ & _ & _ & _ & _ & _ & Hw0 & _).
  assert (Hcl : codeLength s1 = codeLength s) by congruence.
  assert (Hee : eeprom s1 = eeprom s) by congruence.
  rewrite !List.filter_app, !count_app, Hw0, Hwp, Hw1.
  rewrite (filter_no_writes _ Hw0), (filter_no_writes _ Hwp), (filter_no_writes _ Hw1).
  simpl. rewrite app_nil_r, Nat.add_0_r.
  assert (Hquiet : forall lo hi,
            Forall (write_in lo hi) t0 /\ Forall (write_in lo hi) tp /\
            Forall (write_in lo hi) t1).
  { intros lo hi.
    assert (Hq : forall t, count is_EEPROM_write t = O -> Forall (write_in lo hi) t).
    { induction t as [|e t IH]; [constructor|]. simpl.
      destruct e; simpl; try discriminate; intros Hc; constructor; auto; exact I. }
    auto. }
  unfold completion_outcome in Hco.
  assert (Hnone : forall s2 t2,
                  s2 = s1 /\ t2 = [] \/
                  (exists b : bool, s2 = set_currentIndex 0 s1 /\
                     t2 = (if b then E_animateSuccess :: relay_pulse else [E_animateFailure])
                            ++ [E_clearStrip]) ->
                  List.filter is_EEPROM_write t2 = [] /\ eeprom s2 = eeprom s).
  { intros s2 t2 [[-> ->]|(b & -> & ->)]; [auto|]. destruct b; auto. }
  destruct (currentMode s0).
  - left. apply Hnone.
    destruct Hco as [(_ & -> & ->)|(_ & -> & b & _ & ->)]; [auto|right; eauto].
  - left. apply Hnone. destruct Hco as [-> ->]. auto.
  - destruct Hco as [(_ & -> & ->)|(_ & ee & tw & Hsv & -> & ->)]; [left; auto|].
    right.
    destruct (saveComboToEEPROM_trace s1) as (ee' & Hsv' & Hcells);
      [apply HI1|destruct HI1; unfold MAX_CARDS in *; lia|].
    rewrite Hsv in Hsv'. injection Hsv' as Hse ->.
    assert (ee = ee') by congruence. subst ee'.
    pose proof (save_trace_writes (codeLength s1) (correctCode s1)) as Hall.
    destruct (writes_plain _ Hall) as (_ & _ & _ & _ & Hcount & _).
    rewrite List.filter_app, count_app, (filter_writes _ Hall), Hcount. simpl.
    rewrite app_nil_r, Nat.add_0_r, Hcl.
    assert (Hcs : 1 <= codeLength s <= 10).
    { destruct HT as [[] _]. unfold MAX_CARDS in *. lia. }
    split; [reflexivity|]. split; [|split; [|split]].
    + unfold save_trace. simpl. rewrite length_fmap, length_seqZ. lia.
    + destruct (Hquiet 0 (2 + codeLength s)) as (H0 & Hp & H1).
      repeat (apply Forall_app; split); auto.
      unfold save_trace. constructor; [simpl; unfold EEPROM_MAGIC_ADDR, EEPROM_MAGIC_VALUE; lia|].
      constructor; [simpl; pose proof (to_byte_range (codeLength s));
                    unfold EEPROM_LENGTH_ADDR; lia|].
      repeat (apply Forall_app; split); try (repeat constructor; fail).
      apply Forall_fmap, Forall_seqZ. intros k Hk. simpl.
      pose proof (to_byte_range (default 0 (correctCode s1 !! Z.to_nat k))).
      unfold EEPROM_CODE_ADDR. lia.
    + reflexivity.
    + intros a Ha. simpl. rewrite Hcells, Hcl, Hee.
      unfold EEPROM_MAGIC_ADDR, EEPROM_LENGTH_ADDR, EEPROM_CODE_ADDR.
      zcases; reflexivity.
Qed.

(** X12: saving and loading round-trip.  For a combination of 1 to 10
    byte values, what [saveComboToEEPROM] writes is a record that
    [loadComboFromEEPROM] accepts, on any state over that EEPROM, and loads
    back as the same length and the same combination, without writing to
    the EEPROM; the cells of [correctCode] past the length are not
    loaded. *)
Theorem X12_save_load_round_trip (s : State) :
  length (correctCode s) = 10%nat ->
  1 <= codeLength s <= MAX_CARDS ->
  Forall (fun v => 0 <= v < 256) (combination s) ->
  exists s1 t1,
    saveComboToEEPROM s = Some (tt, s1, t1) /\
    forall s2,
      eeprom s2 = eeprom s1 -> length (correctCode s2) = 10%nat ->
      exists s3 t3,
        loadComboFromEEPROM s2 = Some (tt, s3, t3) /\
        codeLength s3 = codeLength s /\
        combination s3 = combination s /\
        drop (Z.to_nat (codeLength s)) (correctCode s3) =
          drop (Z.to_nat (codeLength s)) (correctCode s2) /\
        eeprom s3 = eeprom s2 /\
        count is_EEPROM_write t3 = O.
Proof.
  intros Hlen Hcl Hbytes. unfold MAX_CARDS in Hcl.
  destruct (saveComboToEEPROM_trace s Hlen) as (ee & Hsv & Hcells);
    [unfold MAX_CARDS; lia|].
  eexists _, _. split; [exact Hsv|].
  intros s2 Hee2 Hlen2. simpl in Hee2.
  assert (Hmagic : to_byte (eeprom s2 EEPROM_MAGIC_ADDR) = EEPROM_MAGIC_VALUE).
  { rewrite Hee2, Hcells. reflexivity. }
  assert (Hlb : to_byte (eeprom s2 EEPROM_LENGTH_ADDR) = codeLength s).
  { rewrite Hee2, Hcells. simpl.
    rewrite (to_byte_small (codeLength s)) by lia. apply to_byte_small. lia. }
  assert (Hv : record_valid (eeprom s2)).
  { unfold record_valid, MAX_CARDS. rewrite Hlb. split; [exact Hmagic|lia]. }
  destruct (load_valid s2 Hlen2 Hv) as (cc & t3 & Hld & Hlcc & Hcc & _ & Hw).
  rewrite Hlb in Hld, Hcc.
  eexists _, t3. split; [exact Hld|]. simpl.
  split; [reflexivity|].
  split; [|split; [|split; [reflexivity|exact Hw]]].
  - unfold combination. simpl. apply list_eq. intros k.
    destruct (Nat.lt_ge_cases k (Z.to_nat (codeLength s))) as [Hk|Hk].
    + rewrite !lookup_take_lt by exact Hk. rewrite Hcc.
      destruct (Z.ltb_spec (Z.of_nat k) (codeLength s)); [|lia].
      rewrite Hee2, Hcells.
      unfold EEPROM_MAGIC_ADDR, EEPROM_LENGTH_ADDR, EEPROM_CODE_ADDR.
      zcases. simpl.
      replace (Z.to_nat (2 + Z.of_nat k - 2)) with k by lia.
      destruct (correctCode s !! k) as [v|] eqn:Hlk.
      * simpl. f_equal.
        assert (Hb : 0 <= v < 256).
        { eapply (proj1 (Forall_lookup _ _) Hbytes k).
          unfold combination. rewrite lookup_take_lt by exact Hk. exact Hlk. }
        rewrite !to_byte_small; [reflexivity|lia|].
        rewrite to_byte_small by lia. lia.
      * exfalso. apply lookup_ge_None in Hlk. lia.
    + rewrite !lookup_take_ge by exact Hk. reflexivity.
  - apply list_eq. intros k. rewrite !lookup_drop, Hcc.
    destruct (Z.ltb_spec (Z.of_nat (Z.to_nat (codeLength s) + k)) (codeLength s)); [lia|].
    reflexivity.
Qed.

(** ** Presentation calls *)

Lemma render_ok len e :
  1 <= len <= MAX_CARDS -> present_ok len e ->
  forall leds, Z.of_nat (length leds) = NUM_LEDS ->
    exists leds', render e leds = Some leds' /\ Z.of_nat (length leds') = NUM_LEDS.
Proof.
  unfold MAX_CARDS. intros Hlen Hp leds Hl. destruct e; simpl in *; eauto.
  - destruct (clearStrip_spec leds Hl) as (l' & Hc & Hl' & _).
    exists l'. split; [exact Hc|congruence].
  - destruct (showNumber_spec number leds Hl) as (l' & Hc & Hl' & _). eauto.
  - destruct (showProgressBar_spec current total leds Hl) as (l' & Hc & Hl' & _);
      [unfold INT_MIN, INT_MAX; lia|]. eauto.
  - destruct Hp as [Hc ->].
    destruct (proj1 (animateProgress_spec current len leds Hl) Hc) as (l' & Ha & Hl' & _);
      [unfold INT_MAX; lia|]. eauto.
Qed.

(** X13: the arguments of the presentation calls of one pass of the loop
    from a reachable state are in range: [showNumber] is given a digit, and
    the progress displays a card count from 0 to the combination's length
    out of that length.  Hence none of [clearStrip], [showNumber],
    [showProgressBar] and [animateProgress] leaves a nine-LED strip or
    divides by zero in such a pass. *)
Theorem X13_presentation_in_range (s : State) (i : LoopInput) :
  reachable s ->
  exists s' t,
    loop i s = Some (tt, s', t) /\
    Forall (present_ok (codeLength s)) t /\
    Forall (fun e => forall leds, Z.of_nat (length leds) = NUM_LEDS ->
              exists leds', render e leds = Some leds' /\
                            Z.of_nat (length leds') = NUM_LEDS) t.
Proof.
  intros Hr. pose proof (reachable_Inv s Hr) as HT.
  pose proof (reachable_sel s Hr) as Hsel.
  destruct (loop_runs i s HT) as (s' & t & Hl).
  exists s', t. split; [exact Hl|].
  destruct (loop_trace_ok i s s' t HT Hsel Hl) as [_ Hf].
  assert (Hp : Forall (present_ok (codeLength s)) t).
  { eapply Forall_impl; [exact Hf|]. intros e [He _]. exact He. }
  split; [exact Hp|].
  eapply Forall_impl; [exact Hp|]. intros e He.
  apply (render_ok (codeLength s)); [|exact He].
  destruct HT as [[] _]. assumption.
Qed.

(** ** Timing *)

Lemma u32_elapsed T d : 0 <= d < 2 ^ 32 -> u32 (u32 (T + d) - u32 T) = d.
Proof.
  intros Hd. unfold u32. rewrite <- Zminus_mod.
  replace (T + d - T) with d by lia. apply Z.mod_small. lia.
Qed.

(** X14: the hold time is measured from the press edge and survives the
    wrap-around of [millis()].  When the button is seen pressed at time [T]
    in a state where it was not, the press is latched; passes that see it
    still pressed change nothing, and at any time [T + d], with [d] below
    2^32 ms, the hold time a release would be classified by is [d], also
    when [T + d] has wrapped around. *)
Theorem X14_press_duration_elapsed (s : State) (T d : Z) :
  wasPressed s = false ->
  0 <= d < 2 ^ 32 ->
  exists s1,
    checkButtonPress true T s = Some (tt, s1, []) /\
    wasPressed s1 = true /\
    (forall T', checkButtonPress true T' s1 = Some (tt, s1, [])) /\
    pressDuration s1 (T + d) = d.
Proof.
  intros Hw Hd.
  exists (set_pressStartTime (u32 T) (set_wasPressed true s)).
  split; [|split; [reflexivity|split]].
  - unfold checkButtonPress. munfold. rewrite Hw. reflexivity.
  - intros T'. unfold checkButtonPress. munfold. reflexivity.
  - unfold pressDuration. simpl. apply u32_elapsed. exact Hd.
Qed.

(** X15: the reader is polled at most once per 20 ms, across the
    wrap-around of [millis()].  After a call of the reader handler that
    polled at time [T], a call at time [T + e], with [e] below 2^32 ms,
    does nothing at all if [e] is below 20, and polls again otherwise. *)
Theorem X15_poll_rate_limit (r : ReaderInput) (s : State) :
  InvTop s ->
  polled r s ->
  exists s1 t1,
    handleReader r s = Some (tt, s1, t1) /\
    count is_poll t1 = 1%nat /\
    forall r' e,
      0 <= e < 2 ^ 32 -> rd_millis r' = rd_millis r + e ->
      (e < 20 -> handleReader r' s1 = Some (tt, s1, [])) /\
      (20 <= e -> polled r' s1).
Proof.
  intros HT Hp.
  destruct (handleReader_Inv r s HT) as (s1 & t1 & Hh & _).
  destruct (handleReader_events _ _ _ _ Hh) as (_ & _ & _ & Hlast & _ & _ & _ & _ & Hpoll).
  specialize (Hpoll Hp). destruct (Hlast Hpoll) as [_ Ht].
  exists s1, t1. split; [exact Hh|]. split; [exact Hpoll|].
  intros r' e He Hr'.
  assert (Hel : u32 (u32 (rd_millis r') - lastCardCheckTime s1) = e).
  { rewrite Ht, Hr'. apply u32_elapsed. exact He. }
  split.
  - intros Hlt. unfold handleReader. munfold. rewrite Hel.
    destruct (Z.ltb_spec e 20); [reflexivity|lia].
  - intros Hge. unfold polled. rewrite Hel. exact Hge.
Qed.

(** ** Cards *)

Lemma loop_present i s :
  InvTop s -> cardCurrentlyPresent s = true -> is_Some (rd_card (in_reader i)) ->
  exists s' t,
    loop i s = Some (tt, s', t) /\ InvTop s' /\
    cardCurrentlyPresent s' = true /\ count is_dispatch t = O /\
    correctCode s' = correctCode s /\ enteredValues s' = enteredValues s /\
    eeprom s' = eeprom s /\
    count is_store t = O /\ count is_success t = O /\ count is_failure t = O.
Proof.
  intros HT Hp Hcard.
  destruct (loop_anatomy i s HT)
    as (s0 & t0 & sp & tp & s1 & t1 & s' & te & _ & Hbo & HT0 & Hso & HTp & Hmp & Hh & HI1 & Hco & Hl).
  destruct (loop_Inv i s HT) as (s'' & t'' & Hl' & HT' & _).
  rewrite Hl in Hl'. injection Hl' as <- <-.
  exists s', (t0 ++ tp ++ t1 ++ te ++ [E_delay 10]). split; [exact Hl|].
  split; [exact HT'|].
  destruct (button_outcome_frame _ _ _ _ _ Hbo)
    as (Hcl0 & Hee0 & Hcc0 & Hev0 & _ & Hp0 & _ & _ & _ & Hs0 & Hf0 & Hd0 & _).
  destruct (pre_outcome_plain _ _ _ _ Hso)
    as (_ & Hsp & Hfp & _ & Hdp & Heep & Hclp & Hccp & Hevp & Hip & Hpp).
  destruct (handleReader_frame _ _ _ _ Hh)
    as ((_ & Hcl1 & _ & _ & _ & _ & Hee1) & _ & Hs1 & Hf1 & _).
  destruct (handleReader_events _ _ _ _ Hh) as (_ & _ & _ & _ & _ & Hstay & _).
  destruct (Hstay Hcard ltac:(congruence)) as [Hp1 Hd1].
  destruct (handleReader_index _ _ _ _ Hh) as [(Hi1 & Hev1 & Hcc1)|(_ & Hd1' & _)];
    [|rewrite Hd1 in Hd1'; discriminate].
  assert (Hst0 : count is_store t0 = O).
  { destruct Hbo as [(_ & -> & _)|[(_ & _ & _ & _ & _ & ->)|(_ & _ & _ & _ & _ & ->)]];
      reflexivity. }
  assert (Hstp : count is_store tp = O).
  { destruct (currentMode s0).
    - destruct Hso as [_ ->]. reflexivity.
    - destruct Hso as [(_ & _ & _ & ->)|(_ & _ & ->)]; reflexivity.
    - destruct Hso as [_ ->]. reflexivity. }
  assert (Hst1 : count is_store t1 = O).
  { revert Hh Hd1. clear. revert s1 t1. intros s1 t1. hr_split sp (in_reader i); simpl.
    all: unfold store_enteredValues, store_correctCode.
    all: repeat match goal with
         | |- context [arr_set ?a ?k ?v] => destruct (arr_set a k v)
         end; simpl.
    all: try discriminate.
    all: intros [= <- <-]; simpl; intros; first [reflexivity|discriminate]. }
  assert (Hend : s' = s1 /\ te = []).
  { assert (Hlt : currentIndex s1 < codeLength s1).
    { rewrite Hi1, Hcl1. apply HTp. }
    unfold completion_outcome in Hco. destruct (currentMode s0).
    - destruct Hco as [(_ & -> & ->)|(? & _)]; [auto|lia].
    - exact Hco.
    - destruct Hco as [(_ & -> & ->)|(? & _)]; [auto|lia]. }
  destruct Hend as [-> ->].
  rewrite !count_app, Hs0, Hsp, Hs1, Hf0, Hfp, Hf1, Hd0, Hdp, Hd1, Hst0, Hstp, Hst1.
  simpl. repeat apply conj; auto; congruence.
Qed.

Lemma run_present_frame ins : forall s,
  InvTop s -> cardCurrentlyPresent s = true -> card_stays ins ->
  exists s' t,
    run ins s = Some (tt, s', t) /\ InvTop s' /\
    cardCurrentlyPresent s' = true /\ count is_dispatch t = O /\
    correctCode s' = correctCode s /\ enteredValues s' = enteredValues s /\
    eeprom s' = eeprom s /\
    count is_store t = O /\ count is_success t = O /\ count is_failure t = O.
Proof.
  induction ins as [|i ins IH]; intros s HT Hp Hstay.
  - exists s, []. repeat apply conj; auto; apply HT.
  - apply Forall_cons in Hstay. destruct Hstay as [Hi Hstay].
    destruct (loop_present i s HT Hp Hi)
      as (s1 & t1 & Hl1 & HT1 & Hp1 & Hd1 & Hcc1 & Hev1 & Hee1 & Hst1 & Hs1 & Hf1).
    destruct (IH s1 HT1 Hp1 Hstay)
      as (s2 & t2 & Hr2 & HT2 & Hp2 & Hd2 & Hcc2 & Hev2 & Hee2 & Hst2 & Hs2 & Hf2).
    exists s2, (t1 ++ t2). rewrite run_cons, Hl1, Hr2.
    rewrite !count_app, Hd1, Hd2, Hst1, Hst2, Hs1, Hs2, Hf1, Hf2.
    repeat apply conj; auto; try congruence; apply HT2.
Qed.

(** X16: while a card is registered, no card is dispatched.  As long as
    every pass sees a card on the reader, whatever its identity, neither
    [readCard] nor [writeCard] is called, so a card that replaces another
    without a poll seeing the reader empty in between is ignored: nothing
    is stored into the entered sequence or the combination, the EEPROM is
    not written, and nothing is evaluated. *)
Theorem X16_card_swap_ignored (s : State) (ins : list LoopInput) :
  reachable s ->
  cardCurrentlyPresent s = true ->
  card_stays ins ->
  exists s' t,
    run ins s = Some (tt, s', t) /\
    cardCurrentlyPresent s' = true /\
    count is_dispatch t = O /\
    count is_store t = O /\
    enteredValues s' = enteredValues s /\
    correctCode s' = correctCode s /\
    eeprom s' = eeprom s /\
    count is_success t = O /\ count is_failure t = O.
Proof.
  intros Hr Hp Hstay.
  destruct (run_present_frame ins s (reachable_Inv s Hr) Hp Hstay)
    as (s' & t & Hrun & _ & Hp' & Hd & Hcc & Hev & Hee & Hst & Hs & Hf).
  exists s', t. repeat apply conj; auto.
Qed.

(** ** Entering a sequence in Puzzle mode *)

Lemma handleReader_puzzle_read r s u v :
  polled r s -> rd_card r = Some u -> cardCurrentlyPresent s = false ->
  compareUID (uidByte u) (size u) (lastUID s) (lastUIDSize s) = false ->
  currentMode s = PUZZLE ->
  readCard (rd_attempts r) = (true, v) ->
  0 <= currentIndex s < Z.of_nat (length (enteredValues s)) ->
  handleReader r s =
    Some (tt, set_currentIndex (currentIndex s + 1)
                (set_enteredValues (<[Z.to_nat (currentIndex s) := v]> (enteredValues s))
                   (card_tracked r u s)),
          [E_poll true; E_readCard true v; E_store A_enteredValues (currentIndex s) v;
           E_tone BUZZER_PIN 1500 100;
           E_animateCardRead (currentIndex s + 1) (codeLength s);
           E_showProgressBar (currentIndex s + 1) (codeLength s);
           E_PICC_HaltA; E_PCD_StopCrypto1]).
Proof.
  unfold polled. intros Hp Hc Hpr Hcmp Hm Hread Hidx.
  unfold handleReader, card_tracked. munfold.
  rewrite Hc, Hpr, Hcmp, Hm, Hread. zcases; simpl.
  all: rewrite store_enteredValues_run by (simpl; lia); reflexivity.
Qed.

Lemma loop_PUZZLE_idle i s :
  currentMode s = PUZZLE -> wasPressed s = false -> in_button i = false ->
  loop i s =
    match puzzleLoop (in_reader i) s with
    | Some (_, s', t) => Some (tt, s', t ++ [E_delay 10])
    | None => None
    end.
Proof.
  intros Hm Hw Hb. unfold loop. munfold.
  rewrite Hb, (button_idle s (in_millis i) Hw). simpl. rewrite Hm.
  destruct (puzzleLoop _ _) as [[[[] s'] t]|]; reflexivity.
Qed.

(** A pass in Puzzle mode, the button untouched, that sees a newly placed
    card and reads it. *)
Lemma puzzle_place i s v :
  InvTop s -> currentMode s = PUZZLE -> cardCurrentlyPresent s = false ->
  wasPressed s = false -> in_button i = false ->
  polled (in_reader i) s -> places i v ->
  exists s' t,
    loop i s = Some (tt, s', t) /\ InvTop s' /\
    codeLength s' = codeLength s /\ correctCode s' = correctCode s /\
    eeprom s' = eeprom s /\
    enteredValues s' = <[Z.to_nat (currentIndex s) := v]> (enteredValues s) /\
    lastCardCheckTime s' = u32 (rd_millis (in_reader i)) /\
    currentMode s' = PUZZLE /\ wasPressed s' = false /\
    (currentIndex s + 1 < codeLength s ->
       currentIndex s' = currentIndex s + 1 /\ cardCurrentlyPresent s' = true /\
       relay_writes t = [] /\ count is_success t = O /\ count is_failure t = O) /\
    (currentIndex s + 1 = codeLength s ->
       currentIndex s' = 0 /\
       ((entered_matches s' /\ count is_success t = 1%nat /\
         count is_failure t = O /\ relay_writes t = [true; false]) \/
        (~ entered_matches s' /\ count is_success t = O /\
         count is_failure t = 1%nat /\ relay_writes t = []))).
Proof.
  intros HT Hm Hpr Hw Hb Hp (u & Hc & Hsz & Hread).
  destruct (loop_Inv i s HT) as (s' & t & Hloop & HT' & Hl' & _).
  exists s', t. split; [exact Hloop|]. split; [exact HT'|]. split; [exact Hl'|].
  rewrite (loop_PUZZLE_idle i s Hm Hw Hb) in Hloop.
  assert (Hcmp : compareUID (uidByte u) (size u) (lastUID s) (lastUIDSize s) = false).
  { destruct HT as [[_ _ _ _ _ Huid _ _] _]. rewrite (Huid Hpr).
    apply compareUID_empty. exact Hsz. }
  assert (Hidx0 : 0 <= currentIndex s < Z.of_nat (length (enteredValues s))).
  { destruct HT as [[_ Hel Hlen Hidx _ _ _ _] Hlt].
    unfold MAX_CARDS in *. rewrite Hel. lia. }
  pose proof (handleReader_puzzle_read (in_reader i) s u v Hp Hc Hpr Hcmp Hm Hread Hidx0) as Hh.
  destruct (handleReader_Inv (in_reader i) s HT) as (s1 & t1 & Hrun & HI & _).
  rewrite Hh in Hrun. injection Hrun as <- <-.
  destruct (puzzleLoop_run (in_reader i) s _ _ HI Hh) as [Hlt Hge].
  assert (Hcl1 : codeLength (card_tracked (in_reader i) u s) = codeLength s)
    by (unfold card_tracked; destruct (size u <=? 10); reflexivity).
  assert (Hlc1 : lastCardCheckTime (card_tracked (in_reader i) u s)
                 = u32 (rd_millis (in_reader i)))
    by (unfold card_tracked; destruct (size u <=? 10); reflexivity).
  assert (Hcc1 : correctCode (card_tracked (in_reader i) u s) = correctCode s)
    by (unfold card_tracked; destruct (size u <=? 10); reflexivity).
  assert (Hev1 : enteredValues (card_tracked (in_reader i) u s) = enteredValues s)
    by (unfold card_tracked; destruct (size u <=? 10); reflexivity).
  assert (Hee1 : eeprom (card_tracked (in_reader i) u s) = eeprom s)
    by (unfold card_tracked; destruct (size u <=? 10); reflexivity).
  assert (Hm1 : currentMode (card_tracked (in_reader i) u s) = PUZZLE)
    by (unfold card_tracked; destruct (size u <=? 10); simpl; exact Hm).
  assert (Hw1 : wasPressed (card_tracked (in_reader i) u s) = false)
    by (unfold card_tracked; destruct (size u <=? 10); simpl; exact Hw).
  assert (Hp1 : cardCurrentlyPresent (card_tracked (in_reader i) u s) = true)
    by (unfold card_tracked; destruct (size u <=? 10); reflexivity).
  destruct (Z_lt_le_dec (currentIndex s + 1) (codeLength s)) as [Hc1|Hc1].
  - rewrite Hlt in Hloop by (simpl; rewrite Hcl1; exact Hc1).
    injection Hloop as <- <-. simpl.
    repeat apply conj; auto; try lia.
  - destruct Hge as (b & Hbm & Hp2); [simpl; rewrite Hcl1; exact Hc1|].
    rewrite Hp2 in Hloop. injection Hloop as <- <-. simpl.
    repeat apply conj; auto; try lia.
    intros _. split; [reflexivity|].
    destruct b.
    + left. split; [apply Hbm; reflexivity|]. repeat split.
    + right. split; [intros He; apply Hbm in He; discriminate|]. repeat split.
Qed.

(** A pass in Puzzle mode, the button untouched, that sees the registered
    card gone. *)
Lemma puzzle_lift i s :
  InvTop s -> currentMode s = PUZZLE -> cardCurrentlyPresent s = true ->
  wasPressed s = false -> in_button i = false ->
  polled (in_reader i) s -> lifts i ->
  exists s' t,
    loop i s = Some (tt, s', t) /\ InvTop s' /\
    codeLength s' = codeLength s /\ correctCode s' = correctCode s /\
    eeprom s' = eeprom s /\ enteredValues s' = enteredValues s /\
    lastCardCheckTime s' = u32 (rd_millis (in_reader i)) /\
    currentMode s' = PUZZLE /\ wasPressed s' = false /\
    currentIndex s' = currentIndex s /\ cardCurrentlyPresent s' = false /\
    relay_writes t = [] /\ count is_success t = O /\ count is_failure t = O.
Proof.
  intros HT Hm Hpr Hw Hb Hp Hc. unfold lifts in Hc.
  destruct (loop_Inv i s HT) as (s' & t & Hloop & HT' & Hl' & _).
  exists s', t. split; [exact Hloop|]. split; [exact HT'|]. split; [exact Hl'|].
  rewrite (loop_PUZZLE_idle i s Hm Hw Hb) in Hloop.
  pose proof (handleReader_absent (in_reader i) s Hp Hc Hpr) as Hh.
  destruct (handleReader_Inv (in_reader i) s HT) as (s1 & t1 & Hrun & HI & _).
  rewrite Hh in Hrun. injection Hrun as <- <-.
  destruct (puzzleLoop_run (in_reader i) s _ _ HI Hh) as [Hlt _].
  rewrite Hlt in Hloop by (simpl; apply HT).
  injection Hloop as <- <-. simpl. repeat apply conj; auto.
Qed.

(** Entering the remaining cards of a sequence in Puzzle mode, one
    placement per card with the button untouched, ends in the
    evaluation. *)
Lemma puzzle_entering_run vs : forall ins s,
  InvTop s -> currentMode s = PUZZLE -> cardCurrentlyPresent s = false ->
  wasPressed s = false -> Forall (fun i => in_button i = false) ins ->
  vs <> [] -> entering vs ins -> paced (lastCardCheckTime s) ins ->
  currentIndex s + Z.of_nat (length vs) = codeLength s ->
  exists s' t,
    run ins s = Some (tt, s', t) /\ InvTop s' /\
    currentMode s' = PUZZLE /\ currentIndex s' = 0 /\
    codeLength s' = codeLength s /\ correctCode s' = correctCode s /\
    eeprom s' = eeprom s /\
    (forall k : nat,
       enteredValues s' !! k =
         if Z.of_nat k <? currentIndex s then enteredValues s !! k
         else if Z.of_nat k <? codeLength s
              then vs !! (k - Z.to_nat (currentIndex s))%nat
              else enteredValues s !! k) /\
    ((entered_matches s' /\ count is_success t = 1%nat /\
      count is_failure t = O /\ relay_writes t = [true; false]) \/
     (~ entered_matches s' /\ count is_success t = O /\
      count is_failure t = 1%nat /\ relay_writes t = [])).
Proof.
  induction vs as [|v vs IH]; intros ins s HT Hm Hpr Hw Hidle Hne Hent Hpace Hlen;
    [contradiction|].
  destruct ins as [|i more]; [contradiction|].
  destruct Hent as [Hpl Hrest]. destruct Hpace as [Hpoll Hpace].
  apply Forall_cons in Hidle. destruct Hidle as [Hb Hidle].
  destruct (puzzle_place i s v HT Hm Hpr Hw Hb Hpoll Hpl)
    as (s1 & t1 & Hl1 & HT1 & Hcl1 & Hcc1 & Hee1 & Hev1 & Hlc1 & Hm1 & Hw1 & Hmid & Hlast).
  pose proof HT as [[_ Hel Hclen Hidx _ _ _ _] Hlt]. unfold MAX_CARDS in *.
  destruct vs as [|v' vs']; simpl in Hrest.
  - subst more. simpl in Hlen.
    destruct (Hlast ltac:(lia)) as (Hi1 & Hres).
    exists s1, (t1 ++ []). rewrite run_cons, Hl1. simpl. rewrite app_nil_r.
    repeat apply conj; auto; try apply HT1.
    intros k. rewrite Hev1.
    destruct (Nat.eq_dec k (Z.to_nat (currentIndex s))) as [->|Hk].
    + rewrite list_lookup_insert_eq by lia. zcases.
      rewrite Nat.sub_diag. reflexivity.
    + rewrite list_lookup_insert_ne by lia. zcases; reflexivity.
  - destruct more as [|j more']; [contradiction|].
    destruct Hrest as [Hlift Hent']. destruct Hpace as [Hpoll2 Hpace'].
    apply Forall_cons in Hidle. destruct Hidle as [Hb2 Hidle'].
    simpl length in Hlen.
    destruct (Hmid ltac:(lia)) as (Hi1 & Hp1 & Hr1 & Hs1 & Hf1).
    assert (Hpolled2 : polled (in_reader j) s1) by (unfold polled; rewrite Hlc1; exact Hpoll2).
    destruct (puzzle_lift j s1 HT1 Hm1 Hp1 Hw1 Hb2 Hpolled2 Hlift)
      as (s2 & t2 & Hl2 & HT2 & Hcl2 & Hcc2 & Hee2 & Hev2 & Hlc2 & Hm2 & Hw2 & Hi2 & Hp2
          & Hr2 & Hs2 & Hf2).
    destruct (IH more' s2 HT2 Hm2 Hp2 Hw2 Hidle' ltac:(discriminate) Hent')
      as (s3 & t3 & Hr3 & HT3 & Hm3 & Hi3 & Hcl3 & Hcc3 & Hee3 & Hev3 & Hres3).
    { rewrite Hlc2. exact Hpace'. }
    { simpl length. lia. }
    exists s3, (t1 ++ t2 ++ t3). rewrite run_cons, Hl1, run_cons, Hl2, Hr3.
    split; [reflexivity|].
    rewrite !relay_writes_app, !count_app, Hr1, Hr2, Hs1, Hs2, Hf1, Hf2. simpl.
    repeat apply conj; auto; try congruence; try apply HT3.
    intros k. rewrite Hev3, Hev2, Hev1, Hi2, Hi1, Hcl2, Hcl1.
    destruct (Nat.eq_dec k (Z.to_nat (currentIndex s))) as [->|Hk].
    + rewrite list_lookup_insert_eq by lia. zcases.
      rewrite Nat.sub_diag. reflexivity.
    + rewrite list_lookup_insert_ne by lia. zcases; try reflexivity.
      replace (k - Z.to_nat (currentIndex s))%nat
        with (S (k - Z.to_nat (currentIndex s + 1)))%nat by lia.
      reflexivity.
Qed.

(** X17: an attempt at the lock, end to end.  From a reachable state in
    Puzzle mode with an empty accumulator and no card registered, with the
    button untouched, presenting as many cards as the combination is long,
    each polled and read, ends in Puzzle mode with the accumulator empty
    again and the combination and the EEPROM unchanged.  If the values
    read are the combination, in order, the success presentation plays
    once and the relay is pulsed once; otherwise the failure presentation
    plays once and the relay is never touched. *)
Theorem X17_puzzle_attempt (s : State) (vs : list Z) (ins : list LoopInput) :
  reachable s ->
  currentMode s = PUZZLE ->
  currentIndex s = 0 ->
  cardCurrentlyPresent s = false ->
  wasPressed s = false ->
  Forall (fun i => in_button i = false) ins ->
  Z.of_nat (length vs) = codeLength s ->
  entering vs ins ->
  paced (lastCardCheckTime s) ins ->
  exists s' t,
    run ins s = Some (tt, s', t) /\
    currentMode s' = PUZZLE /\ currentIndex s' = 0 /\
    combination s' = combination s /\ eeprom s' = eeprom s /\
    (vs = combination s ->
       count is_success t = 1%nat /\ count is_failure t = O /\
       relay_writes t = [true; false]) /\
    (vs <> combination s ->
       count is_success t = O /\ count is_failure t = 1%nat /\
       relay_writes t = []).
Proof.
  intros Hr Hm Hi Hpr Hw Hidle Hlen Hent Hpace.
  pose proof (reachable_Inv s Hr) as HT.
  pose proof HT as [[Hcl _ Hclen _ _ _ _ _] _]. unfold MAX_CARDS in *.
  assert (Hne : vs <> []) by (intros ->; simpl in Hlen; lia).
  destruct (puzzle_entering_run vs ins s HT Hm Hpr Hw Hidle Hne Hent Hpace ltac:(lia))
    as (s' & t & Hrun & HT' & Hm' & Hi' & Hcl' & Hcc' & Hee' & Hev' & Hres).
  assert (Hiff : entered_matches s' <-> vs = combination s).
  { unfold entered_matches, combination. rewrite Hcl', Hcc'. split.
    - intros He. apply list_eq. intros k.
      destruct (Z.ltb_spec (Z.of_nat k) (codeLength s)) as [Hk|Hk].
      + rewrite lookup_take_lt by lia.
        specialize (He (Z.of_nat k) ltac:(lia)). rewrite !arr_get_nat in He.
        rewrite <- He, Hev', Hi. zcases. rewrite Nat.sub_0_r. reflexivity.
      + rewrite lookup_take_ge by lia. apply lookup_ge_None. lia.
    - intros Hvs k Hk.
      replace k with (Z.of_nat (Z.to_nat k)) by lia. rewrite !arr_get_nat.
      rewrite Hev', Hi. zcases. rewrite Nat.sub_0_r, Hvs.
      apply lookup_take_lt. lia. }
  exists s', t. split; [exact Hrun|].
  split; [exact Hm'|]. split; [exact Hi'|].
  split; [unfold combination; congruence|]. split; [exact Hee'|].
  split.
  - intros Hvs. destruct Hres as [(_ & H1 & H2 & H3)|(Hn & _)]; [auto|].
    exfalso. apply Hn, Hiff, Hvs.
  - intros Hvs. destruct Hres as [(He & _)|(_ & H1 & H2 & H3)]; [|auto].
    exfalso. apply Hvs, Hiff, He.
Qed.

(** ** A failed read in SetCombo mode *)

(** X18: in SetCombo mode, when the card just placed cannot be read,
    [setComboLoop] plays the failure presentation, shows the progress as
    it was, and changes nothing but the card tracking variables: the
    combination being entered, the accumulator index and the EEPROM are as
    before, and the mode stays SetCombo. *)
Theorem X18_setcombo_read_failure (r : ReaderInput) (s : State) (u : Uid) :
  InvTop s ->
  currentMode s = SET_COMBO ->
  polled r s ->
  rd_card r = Some u ->
  size u <> 0 ->
  cardCurrentlyPresent s = false ->
  fst (readCard (rd_attempts r)) = false ->
  setComboLoop r s =
    Some (tt, card_tracked r u s,
          [E_poll true; E_readCard false 0xFF; E_tone BUZZER_PIN 200 100;
           E_animateWriteFailure;
           E_animateProgress (currentIndex s) (codeLength s);
           E_PICC_HaltA; E_PCD_StopCrypto1]) /\
  currentIndex (card_tracked r u s) = currentIndex s /\
  correctCode (card_tracked r u s) = correctCode s /\
  codeLength (card_tracked r u s) = codeLength s /\
  currentMode (card_tracked r u s) = SET_COMBO /\
  eeprom (card_tracked r u s) = eeprom s.
Proof.
  intros HT Hm Hp Hc Hsz Hpr Hrd.
  assert (Hcmp : compareUID (uidByte u) (size u) (lastUID s) (lastUIDSize s) = false).
  { destruct HT as [[_ _ _ _ _ Huid _ _] _]. rewrite (Huid Hpr).
    apply compareUID_empty. exact Hsz. }
  assert (Hh : handleReader r s =
    Some (tt, card_tracked r u s,
          [E_poll true; E_readCard false 0xFF; E_tone BUZZER_PIN 200 100;
           E_animateWriteFailure;
           E_animateProgress (currentIndex s) (codeLength s);
           E_PICC_HaltA; E_PCD_StopCrypto1])).
  { destruct (readCard (rd_attempts r)) as [ok v] eqn:Hread. simpl in Hrd. subst ok.
    destruct (readCard_value _ _ _ Hread) as [_ Hv]. rewrite (Hv eq_refl) in Hread.
    unfold polled in Hp. unfold handleReader, card_tracked. munfold.
    rewrite Hc, Hpr, Hcmp, Hm, Hread. zcases; reflexivity. }
  assert (Hfields :
    currentIndex (card_tracked r u s) = currentIndex s /\
    correctCode (card_tracked r u s) = correctCode s /\
    codeLength (card_tracked r u s) = codeLength s /\
    currentMode (card_tracked r u s) = SET_COMBO /\
    eeprom (card_tracked r u s) = eeprom s).
  { unfold card_tracked. destruct (size u <=? 10); simpl; repeat split; auto. }
  split; [|exact Hfields].
  destruct (handleReader_Inv r s HT) as (s1 & t1 & Hrun & HI & _).
  rewrite Hh in Hrun. injection Hrun as <- <-.
  destruct (setComboLoop_run r s _ _ HI Hh) as [Hlt _].
  apply Hlt. destruct Hfields as (-> & _ & -> & _). apply HT.
Qed.

(** ** Concrete runs of the further properties *)

(** [showNumber 3] on a strip in arbitrary colours. *)
Lemma X1_witness :
  Z.of_nat (length strip9) = NUM_LEDS /\
  exists leds',
    showNumber 3 strip9 = Some leds' /\
    leds' !! 2%nat = Some (CHSV 140 255 255) /\
    leds' !! 3%nat = Some CRGB_Black.
Proof.
  split; [reflexivity|].
  destruct (X1_showNumber_lights 3 strip9 eq_refl) as (l & Hs & _ & Hk).
  exists l. split; [exact Hs|].
  split; [exact (Hk 2%nat eq_refl)|exact (Hk 3%nat eq_refl)].
Defined.

(** [showProgressBar] after two of four cards. *)
Lemma X2_witness :
  Z.of_nat (length strip9) = NUM_LEDS /\
  INT_MIN <= 2 * 2 <= INT_MAX /\
  exists leds',
    showProgressBar 2 4 strip9 = Some leds' /\
    leds' !! 3%nat = Some CRGB_Green /\
    leds' !! 4%nat = Some CRGB_Black.
Proof.
  assert (Hi : INT_MIN <= 2 * 2 <= INT_MAX) by (unfold INT_MIN, INT_MAX; lia).
  split; [reflexivity|]. split; [exact Hi|].
  destruct (X2_showProgressBar_lights 2 4 strip9 eq_refl Hi) as (l & Hs & _ & Hk & _).
  exists l. split; [exact Hs|].
  split; [exact (Hk 3%nat eq_refl)|exact (Hk 4%nat eq_refl)].
Defined.

(** [animateProgress] after two of four cards: four orange LEDs, then the
    yellow one. *)
Lemma X3_witness :
  Z.of_nat (length strip9) = NUM_LEDS /\
  0 <= 2 <= 4 /\ 0 < 4 <= INT_MAX /\
  exists leds',
    animateProgress 2 4 strip9 = Some leds' /\
    leds' !! 3%nat = Some CRGB_Orange /\
    leds' !! 4%nat = Some CRGB_Yellow /\
    leds' !! 5%nat = Some CRGB_Black.
Proof.
  assert (Hc : 0 <= 2 <= 4) by lia.
  assert (Ht : 0 < 4 <= INT_MAX) by (unfold INT_MAX; lia).
  split; [reflexivity|]. split; [exact Hc|]. split; [exact Ht|].
  destruct (proj1 (X3_animateProgress_lights 2 4 strip9 eq_refl) Hc Ht) as (l & Hs & _ & Hk & _).
  exists l. split; [exact Hs|].
  split; [exact (Hk 3%nat eq_refl)|].
  split; [exact (Hk 4%nat eq_refl)|exact (Hk 5%nat eq_refl)].
Defined.

(** A card that answers the first attempt with 4. *)
Lemma X4_witness : readCard (reads 4) = (true, 4).
Proof.
  apply (proj1 (X4_readCard_three_attempts (reads 4))).
  exists 0. split; [lia|]. split; [intros j Hj; lia|].
  split; [|reflexivity].
  unfold attempt_ok. simpl. split; [lia|]. split; [reflexivity|].
  split; [lia|reflexivity].
Defined.

Lemma X5_witness : writeCard (reads 4) = true.
Proof.
  apply (proj2 (X5_writeCard_same_policy (reads 4))).
  exists 0. split; [lia|]. split; [intros j Hj; lia|].
  unfold attempt_ok. simpl. split; [lia|]. split; [reflexivity|].
  split; [lia|reflexivity].
Defined.

Lemma fresh_in_program_reachable : reachable fresh_in_program.
Proof.
  eapply (run_reachable short_press (booted (eeprom_of [])));
    [apply booted_reachable|]. vm_compute. reflexivity.
Qed.

Lemma fresh_card_on_reachable : reachable fresh_card_on.
Proof.
  eapply (run_reachable [pass false 100 (Some card_A) (reads 1)] (booted (eeprom_of [])));
    [apply booted_reachable|]. vm_compute. reflexivity.
Qed.

(** A card placed on a board that has just entered Program mode. *)
Lemma X6_witness :
  InvTop fresh_in_program /\ sel_ok fresh_in_program /\
  currentMode fresh_in_program = PROGRAM /\
  polled poll_program fresh_in_program /\
  rd_card poll_program = Some card_A /\ size card_A <> 0 /\
  cardCurrentlyPresent fresh_in_program = false /\
  handleReader poll_program fresh_in_program =
    Some (tt, card_tracked poll_program card_A fresh_in_program,
          [E_poll true;
           E_writeCard (selectedValue fresh_in_program) (writeCard (rd_attempts poll_program));
           E_tone BUZZER_PIN (if writeCard (rd_attempts poll_program) then 800 else 200) 100;
           (if writeCard (rd_attempts poll_program) then E_animateWriteSuccess
            else E_animateWriteFailure);
           E_showNumber (selectedValue fresh_in_program); E_PICC_HaltA; E_PCD_StopCrypto1]).
Proof.
  assert (HT : InvTop fresh_in_program) by concrete_InvTop.
  assert (Hs : sel_ok fresh_in_program) by (split; vm_compute; discriminate).
  assert (Hp : polled poll_program fresh_in_program) by (vm_compute; discriminate).
  assert (Hz : size card_A <> 0) by discriminate.
  repeat (split; [first [exact HT | exact Hs | exact Hp | exact Hz | reflexivity]|]).
  apply (proj1 (X6_program_write poll_program fresh_in_program card_A
                  HT Hs eq_refl Hp eq_refl Hz eq_refl)).
Defined.

Lemma X7_witness :
  reachable fresh_in_program /\
  0 <= selectedValue fresh_in_program <= 9 /\
  exists s' t,
    loop (pass false 500 (Some card_A) (reads 0)) fresh_in_program = Some (tt, s', t) /\
    Forall digit_written t.
Proof.
  split; [exact fresh_in_program_reachable|].
  exact (X7_selection_is_digit fresh_in_program (pass false 500 (Some card_A) (reads 0))
           fresh_in_program_reachable).
Defined.

(** A press seen by a board in Program mode. *)
Lemma X8_witness :
  reachable fresh_in_program /\
  currentMode fresh_in_program = PROGRAM /\
  exists s' t,
    loop (pass true 500 None (reads 0)) fresh_in_program = Some (tt, s', t) /\
    (currentMode s' = PROGRAM ->
       buttonWasPressed s' = true /\
       selectedValue s' =
         if true && negb (buttonWasPressed fresh_in_program)
         then (selectedValue fresh_in_program + 1) mod 10
         else selectedValue fresh_in_program).
Proof.
  split; [exact fresh_in_program_reachable|]. split; [reflexivity|].
  exact (X8_selection_step fresh_in_program (pass true 500 None (reads 0))
           fresh_in_program_reachable eq_refl).
Defined.

(** The release of a short press on a fresh board. *)
Lemma X9_witness :
  reachable fresh_pressed /\
  exists s' t,
    loop (pass false 400 None (reads 0)) fresh_pressed = Some (tt, s', t) /\
    match currentMode fresh_pressed, currentMode s' with
    | PUZZLE, PROGRAM => short_release (pass false 400 None (reads 0)) fresh_pressed
    | PUZZLE, SET_COMBO | PROGRAM, SET_COMBO =>
        long_release (pass false 400 None (reads 0)) fresh_pressed
    | SET_COMBO, PUZZLE =>
        currentIndex fresh_pressed + 1 = codeLength fresh_pressed /\
        count is_dispatch t = 1%nat
    | PROGRAM, PUZZLE =>
        long_release (pass false 400 None (reads 0)) fresh_pressed /\
        codeLength fresh_pressed = 1 /\ count is_dispatch t = 1%nat
    | SET_COMBO, PROGRAM => False
    | _, _ => True
    end.
Proof.
  assert (Hr : reachable fresh_pressed).
  { eapply (run_reachable [pass true 100 None (reads 0)] (booted (eeprom_of [])));
      [apply booted_reachable|]. vm_compute. reflexivity. }
  split; [exact Hr|].
  exact (X9_mode_transitions fresh_pressed (pass false 400 None (reads 0)) Hr).
Defined.

(** The fourth card of the default combination on a fresh board. *)
Lemma X10_witness :
  reachable fresh_after_123 /\
  exists s' t,
    loop (pass false 700 (Some card_A) (reads 4)) fresh_after_123 = Some (tt, s', t) /\
    (relay_writes t = [] \/ relay_writes t = [true; false]) /\
    (relay_writes t = [true; false] <->
       (currentMode fresh_after_123 = PUZZLE /\
        short_release (pass false 700 (Some card_A) (reads 4)) fresh_after_123) \/
       count is_success t = 1%nat).
Proof.
  assert (Hr : reachable fresh_after_123).
  { eapply (run_reachable
              [pass false 100 (Some card_A) (reads 1); pass false 200 None (reads 0);
               pass false 300 (Some card_A) (reads 2); pass false 400 None (reads 0);
               pass false 500 (Some card_A) (reads 3); pass false 600 None (reads 0)]
              (booted (eeprom_of [])));
      [apply booted_reachable|]. vm_compute. reflexivity. }
  split; [exact Hr|].
  destruct (X10_relay_pulse_causes fresh_after_123 (pass false 700 (Some card_A) (reads 4)) Hr)
    as (s' & t & Hl & H1 & H2 & _).
  exists s', t. auto.
Defined.

Lemma X11_witness :
  reachable fresh_in_setcombo /\
  exists s' t,
    loop (pass false 5100 (Some card_A) (reads 5)) fresh_in_setcombo = Some (tt, s', t) /\
    ((List.filter is_EEPROM_write t = [] /\ eeprom s' = eeprom fresh_in_setcombo) \/
     (List.filter is_EEPROM_write t =
        save_trace (codeLength fresh_in_setcombo) (correctCode s') /\
      Z.of_nat (count is_EEPROM_write t) = 2 + codeLength fresh_in_setcombo /\
      Forall (write_in 0 (2 + codeLength fresh_in_setcombo)) t /\
      currentMode s' = PUZZLE /\
      forall a, a < 0 \/ 2 + codeLength fresh_in_setcombo <= a ->
        eeprom s' a = eeprom fresh_in_setcombo a)).
Proof.
  assert (Hr : reachable fresh_in_setcombo).
  { eapply (run_reachable long_hold (booted (eeprom_of [])));
      [apply booted_reachable|]. vm_compute. reflexivity. }
  split; [exact Hr|].
  exact (X11_eeprom_writes_are_the_record fresh_in_setcombo
           (pass false 5100 (Some card_A) (reads 5)) Hr).
Defined.

(** Saving the default combination and loading it on the next start. *)
Lemma X12_witness :
  length (correctCode (booted (eeprom_of []))) = 10%nat /\
  1 <= codeLength (booted (eeprom_of [])) <= MAX_CARDS /\
  Forall (fun v => 0 <= v < 256) (combination (booted (eeprom_of []))) /\
  exists s1 t1,
    saveComboToEEPROM (booted (eeprom_of [])) = Some (tt, s1, t1) /\
    exists s3 t3,
      loadComboFromEEPROM (initial (eeprom s1)) = Some (tt, s3, t3) /\
      codeLength s3 = codeLength (booted (eeprom_of [])) /\
      combination s3 = combination (booted (eeprom_of [])).
Proof.
  assert (Hc : 1 <= codeLength (booted (eeprom_of [])) <= MAX_CARDS)
    by (split; vm_compute; discriminate).
  assert (Hb : Forall (fun v => 0 <= v < 256) (combination (booted (eeprom_of []))))
    by (vm_compute; repeat constructor; discriminate).
  split; [reflexivity|]. split; [exact Hc|]. split; [exact Hb|].
  destruct (X12_save_load_round_trip (booted (eeprom_of [])) eq_refl Hc Hb) as (s1 & t1 & Hs & Hl).
  exists s1, t1. split; [exact Hs|].
  destruct (Hl (initial (eeprom s1)) eq_refl eq_refl) as (s3 & t3 & H1 & H2 & H3 & _).
  exists s3, t3. auto.
Defined.

Lemma X13_witness :
  reachable fresh_in_setcombo /\
  exists s' t,
    loop (pass false 5100 (Some card_A) (reads 5)) fresh_in_setcombo = Some (tt, s', t) /\
    Forall (present_ok (codeLength fresh_in_setcombo)) t.
Proof.
  assert (Hr : reachable fresh_in_setcombo).
  { eapply (run_reachable long_hold (booted (eeprom_of [])));
      [apply booted_reachable|]. vm_compute. reflexivity. }
  split; [exact Hr|].
  destruct (X13_presentation_in_range fresh_in_setcombo
              (pass false 5100 (Some card_A) (reads 5)) Hr) as (s' & t & Hl & Hp & _).
  exists s', t. auto.
Defined.

(** A press 100 ms before [millis()] wraps around, held for 500 ms. *)
Lemma X14_witness :
  wasPressed (booted (eeprom_of [])) = false /\
  0 <= 500 < 2 ^ 32 /\
  exists s1,
    checkButtonPress true (2 ^ 32 - 100) (booted (eeprom_of [])) = Some (tt, s1, []) /\
    pressDuration s1 (2 ^ 32 - 100 + 500) = 500.
Proof.
  assert (Hd : 0 <= 500 < 2 ^ 32) by lia.
  split; [reflexivity|]. split; [exact Hd|].
  destruct (X14_press_duration_elapsed (booted (eeprom_of [])) (2 ^ 32 - 100) 500 eq_refl Hd)
    as (s1 & Hb & _ & _ & Hp).
  exists s1. auto.
Defined.

Lemma X15_witness :
  InvTop (booted (eeprom_of [])) /\
  polled poll_unreadable (booted (eeprom_of [])) /\
  exists s1 t1,
    handleReader poll_unreadable (booted (eeprom_of [])) = Some (tt, s1, t1) /\
    count is_poll t1 = 1%nat /\
    handleReader (mkReaderInput 110 None (reads 0)) s1 = Some (tt, s1, []).
Proof.
  assert (HT : InvTop (booted (eeprom_of []))) by concrete_InvTop.
  assert (Hp : polled poll_unreadable (booted (eeprom_of []))) by (vm_compute; discriminate).
  split; [exact HT|]. split; [exact Hp|].
  destruct (X15_poll_rate_limit poll_unreadable (booted (eeprom_of [])) HT Hp)
    as (s1 & t1 & Hh & Hc & Hn).
  exists s1, t1. split; [exact Hh|]. split; [exact Hc|].
  apply (proj1 (Hn (mkReaderInput 110 None (reads 0)) 10 ltac:(lia) eq_refl)). lia.
Defined.

(** Card B put in the place of card A without the reader being seen
    empty. *)
Lemma X16_witness :
  reachable fresh_card_on /\
  cardCurrentlyPresent fresh_card_on = true /\
  card_stays card_B_rests /\
  exists s' t,
    run card_B_rests fresh_card_on = Some (tt, s', t) /\
    count is_dispatch t = O /\
    enteredValues s' = enteredValues fresh_card_on.
Proof.
  assert (Hs : card_stays card_B_rests) by (repeat constructor; eexists; reflexivity).
  split; [exact fresh_card_on_reachable|]. split; [reflexivity|]. split; [exact Hs|].
  destruct (X16_card_swap_ignored fresh_card_on card_B_rests fresh_card_on_reachable eq_refl Hs)
    as (s' & t & Hr & _ & Hd & _ & He & _).
  exists s', t. auto.
Defined.

(** The default combination entered on a fresh board. *)
Lemma X17_witness :
  reachable (booted (eeprom_of [])) /\
  Forall (fun i => in_button i = false) cards_1234 /\
  entering [1; 2; 3; 4] cards_1234 /\
  paced (lastCardCheckTime (booted (eeprom_of []))) cards_1234 /\
  exists s' t,
    run cards_1234 (booted (eeprom_of [])) = Some (tt, s', t) /\
    currentMode s' = PUZZLE /\ currentIndex s' = 0 /\
    count is_success t = 1%nat /\ relay_writes t = [true; false].
Proof.
  assert (Hi : Forall (fun i => in_button i = false) cards_1234) by (repeat constructor).
  assert (He : entering [1; 2; 3; 4] cards_1234).
  { simpl. repeat split;
      try (exists card_A; split; [reflexivity|]; split; [discriminate|reflexivity]). }
  assert (Hp : paced (lastCardCheckTime (booted (eeprom_of []))) cards_1234).
  { simpl. repeat split; vm_compute; discriminate. }
  split; [apply booted_reachable|]. split; [exact Hi|]. split; [exact He|].
  split; [exact Hp|].
  destruct (X17_puzzle_attempt (booted (eeprom_of [])) [1; 2; 3; 4] cards_1234
              (booted_reachable (eeprom_of [])) eq_refl eq_refl eq_refl eq_refl Hi eq_refl He Hp)
    as (s' & t & Hr & Hm & Hx & _ & _ & Hok & _).
  destruct (Hok eq_refl) as (Hs & _ & Hrel).
  exists s', t. auto.
Defined.

(** An unreadable card placed on a board in SetCombo mode. *)
Lemma X18_witness :
  InvTop fresh_in_setcombo /\
  currentMode fresh_in_setcombo = SET_COMBO /\
  polled poll_late_unreadable fresh_in_setcombo /\
  rd_card poll_late_unreadable = Some card_A /\
  size card_A <> 0 /\
  cardCurrentlyPresent fresh_in_setcombo = false /\
  fst (readCard (rd_attempts poll_late_unreadable)) = false /\
  setComboLoop poll_late_unreadable fresh_in_setcombo =
    Some (tt, card_tracked poll_late_unreadable card_A fresh_in_setcombo,
          [E_poll true; E_readCard false 0xFF; E_tone BUZZER_PIN 200 100;
           E_animateWriteFailure;
           E_animateProgress (currentIndex fresh_in_setcombo) (codeLength fresh_in_setcombo);
           E_PICC_HaltA; E_PCD_StopCrypto1]).
Proof.
  assert (HT : InvTop fresh_in_setcombo) by concrete_InvTop.
  assert (Hp : polled poll_late_unreadable fresh_in_setcombo) by (vm_compute; discriminate).
  assert (Hz : size card_A <> 0) by discriminate.
  repeat (split; [first [exact HT | exact Hp | exact Hz | reflexivity]|]).
  apply (proj1 (X18_setcombo_read_failure poll_late_unreadable fresh_in_setcombo card_A
                  HT eq_refl Hp eq_refl Hz eq_refl eq_refl)).
Defined.
